(** * ADH Rigging Tools (rigging_tools.py): a model of the operators and their
      properties.

    The add-on is a set of operators that run inside a host application.  Each
    [execute] is modelled as a computation over an explicit [World]: the
    objects, bones, modifiers and data-blocks the operators reach through the
    context, together with the little state that lives outside the scene
    graph.  Python references to host objects are indices into the stores of
    the world, so two references to one object alias.  Exceptions are
    results: an operator either returns its status or raises, and the world
    it leaves behind is kept in both cases.

    Attributes of host objects are fields: an assignment stores the value it
    is given, and a collection's [new] appends an item with the host's
    defaults.  Names are the exception: the host does not store the name of
    an object, a bone or a data-block as it is given, but cuts it when it is
    too long, replaces it when it is empty and changes it when another item
    has it.  Every name the add-on gives to one of these goes through the
    host's naming.

    What belongs to the host or to other libraries and is not in the add-on's
    source is taken as a parameter ([Host]): the regular-expression engine, the
    sibling plug-in's [obj_to_bone], the geometry a modifier produces when it
    is applied, the host's naming, and what the host stores of the tables a
    mesh is built from.  The numbers the add-on computes are binary64 floats,
    as in Python. *)

From Stdlib Require Import Floats.
From stdpp Require Import base option list strings.

Set Warnings "-inexact-float".

(** ** Host data *)

Definition vec3 : Type := float * float * float.

(** A modifier of an object's stack.  [object] is the object a modifier
    refers to (the armature of an ARMATURE modifier). *)
Module Modifier.
Record t := mk {
  name : string;
  type : string;
  show_viewport : bool;
  show_expanded : bool;
  object : option nat }.

Definition set_show_viewport (v : bool) (m : t) : t :=
  mk (name m) (type m) v (show_expanded m) (object m).

Definition set_show_expanded (v : bool) (m : t) : t :=
  mk (name m) (type m) (show_viewport m) v (object m).

(** [obj.modifiers.new(name, type)]: the host's defaults show a new modifier
    in the viewport, with its panel expanded. *)
Definition new (n ty : string) : t := mk n ty true true None.
End Modifier.

Module VertexGroup.
Record t := mk { name : string }.
End VertexGroup.

Module Constraint.
Record t := mk {
  type : string;
  owner_space : string;
  target_space : string;
  target : option nat;
  subtarget : string }.

Definition set_owner_space (v : string) (c : t) : t :=
  mk (type c) v (target_space c) (target c) (subtarget c).

Definition set_target_space (v : string) (c : t) : t :=
  mk (type c) (owner_space c) v (target c) (subtarget c).

Definition set_target (v : option nat) (c : t) : t :=
  mk (type c) (owner_space c) (target_space c) v (subtarget c).

Definition set_subtarget (v : string) (c : t) : t :=
  mk (type c) (owner_space c) (target_space c) (target c) v.

(** [constraints.new(type)]: world space on both sides, no target. *)
Definition new (ty : string) : t := mk ty "WORLD" "WORLD" None "".
End Constraint.

(** A bone of an armature.  The host shows the same bone as an edit bone in
    edit mode and as a pose bone in pose mode; the fields of both views are
    kept in one record.  [custom_shape] refers to an object. *)
Module Bone.
Record t := mk {
  name : string;
  head : vec3;
  tail : vec3;
  roll : float;
  bbone_x : float;
  bbone_z : float;
  layers : list bool;
  select : bool;
  custom_shape : option nat;
  constraints : list Constraint.t }.

Definition set_name (v : string) (b : t) : t :=
  mk v (head b) (tail b) (roll b) (bbone_x b) (bbone_z b) (layers b)
     (select b) (custom_shape b) (constraints b).

Definition set_head (v : vec3) (b : t) : t :=
  mk (name b) v (tail b) (roll b) (bbone_x b) (bbone_z b) (layers b)
     (select b) (custom_shape b) (constraints b).

Definition set_tail (v : vec3) (b : t) : t :=
  mk (name b) (head b) v (roll b) (bbone_x b) (bbone_z b) (layers b)
     (select b) (custom_shape b) (constraints b).

Definition set_roll (v : float) (b : t) : t :=
  mk (name b) (head b) (tail b) v (bbone_x b) (bbone_z b) (layers b)
     (select b) (custom_shape b) (constraints b).

Definition set_bbone_x (v : float) (b : t) : t :=
  mk (name b) (head b) (tail b) (roll b) v (bbone_z b) (layers b)
     (select b) (custom_shape b) (constraints b).

Definition set_bbone_z (v : float) (b : t) : t :=
  mk (name b) (head b) (tail b) (roll b) (bbone_x b) v (layers b)
     (select b) (custom_shape b) (constraints b).

Definition set_layers (v : list bool) (b : t) : t :=
  mk (name b) (head b) (tail b) (roll b) (bbone_x b) (bbone_z b) v
     (select b) (custom_shape b) (constraints b).

Definition set_custom_shape (v : option nat) (b : t) : t :=
  mk (name b) (head b) (tail b) (roll b) (bbone_x b) (bbone_z b) (layers b)
     (select b) v (constraints b).

Definition upd_constraints (f : list Constraint.t → list Constraint.t) (b : t) : t :=
  mk (name b) (head b) (tail b) (roll b) (bbone_x b) (bbone_z b) (layers b)
     (select b) (custom_shape b) (f (constraints b)).

(** [edit_bones.new(name)]: a bone at the origin on the first layer, not
    selected, without custom shape or constraints. *)
Definition new (n : string) : t :=
  mk n (0, 0, 0)%float (0, 0, 0)%float 0%float 0.1%float 0.1%float
     (true :: replicate 31 false) false None [].
End Bone.

(** The data-block behind an object ([obj.data]): a name, mesh geometry, and
    the names of the shape-key blocks.  [obj.data.shape_keys] is [None]
    exactly when there is no key block. *)
Module ObData.
Record t := mk {
  name : string;
  vertices : list vec3;
  edges : list (nat * nat);
  faces : list (list nat);
  key_blocks : list string }.

Definition set_name (v : string) (d : t) : t :=
  mk v (vertices d) (edges d) (faces d) (key_blocks d).

Definition upd_key_blocks (f : list string → list string) (d : t) : t :=
  mk (name d) (vertices d) (edges d) (faces d) (f (key_blocks d)).

(** [bpy.data.meshes.new(name)] *)
Definition new (n : string) : t := mk n [] [] [] [].
End ObData.

Module Object.
Record t := mk {
  name : string;
  type : string;
  select : bool;
  linked : bool;                (* linked to the scene: in [scene.objects] *)
  data : option nat;            (* reference to the object's data-block *)
  modifiers : list Modifier.t;
  vertex_groups : list VertexGroup.t;
  bones : list Bone.t;          (* [pose.bones] / [data.edit_bones] of an armature *)
  show_wire : bool;
  layers : list bool;
  active_shape_key_index : nat;
  placement : vec3 * vec3 * vec3 (* location, rotation_euler, scale *) }.

Definition set_name (v : string) (o : t) : t :=
  mk v (type o) (select o) (linked o) (data o) (modifiers o) (vertex_groups o)
     (bones o) (show_wire o) (layers o) (active_shape_key_index o) (placement o).

Definition set_linked (v : bool) (o : t) : t :=
  mk (name o) (type o) (select o) v (data o) (modifiers o) (vertex_groups o)
     (bones o) (show_wire o) (layers o) (active_shape_key_index o) (placement o).

Definition upd_modifiers (f : list Modifier.t → list Modifier.t) (o : t) : t :=
  mk (name o) (type o) (select o) (linked o) (data o) (f (modifiers o))
     (vertex_groups o) (bones o) (show_wire o) (layers o)
     (active_shape_key_index o) (placement o).

Definition upd_vertex_groups (f : list VertexGroup.t → list VertexGroup.t) (o : t) : t :=
  mk (name o) (type o) (select o) (linked o) (data o) (modifiers o)
     (f (vertex_groups o)) (bones o) (show_wire o) (layers o)
     (active_shape_key_index o) (placement o).

Definition upd_bones (f : list Bone.t → list Bone.t) (o : t) : t :=
  mk (name o) (type o) (select o) (linked o) (data o) (modifiers o)
     (vertex_groups o) (f (bones o)) (show_wire o) (layers o)
     (active_shape_key_index o) (placement o).

Definition set_show_wire (v : bool) (o : t) : t :=
  mk (name o) (type o) (select o) (linked o) (data o) (modifiers o)
     (vertex_groups o) (bones o) v (layers o) (active_shape_key_index o)
     (placement o).

Definition set_layers (v : list bool) (o : t) : t :=
  mk (name o) (type o) (select o) (linked o) (data o) (modifiers o)
     (vertex_groups o) (bones o) (show_wire o) v (active_shape_key_index o)
     (placement o).

Definition set_active_shape_key_index (v : nat) (o : t) : t :=
  mk (name o) (type o) (select o) (linked o) (data o) (modifiers o)
     (vertex_groups o) (bones o) (show_wire o) (layers o) v (placement o).

(** [bpy.data.objects.new(name, mesh)]: a mesh object, not yet in any scene. *)
Definition new (n : string) (mesh : nat) : t :=
  mk n "MESH" false false (Some mesh) [] [] [] false (true :: replicate 19 false) 0
     ((0, 0, 0), (0, 0, 0), (1, 1, 1))%float.
End Object.

(** ** The add-on's module-level data

    [bl_info] and the properties the module and its operator classes declare.
    They are written once, when the module is loaded. *)
Module Addon.
Record t := mk {
  bl_info : list (string * string);
  scene_properties : list string;
  operator_properties : list (string * string) }.
End Addon.

Definition rigging_tools : Addon.t :=
  Addon.mk
    [("name", "ADH Rigging Tools"); ("author", "Adhi Hargo");
     ("version", "(1, 0, 0)"); ("blender", "(2, 65, 0)");
     ("location", "View3D > Tools > ADH Rigging Tools");
     ("description", "Several simple tools to aid rigging.");
     ("warning", "");
     ("wiki_url", "https://github.com/adhihargo/rigging_tools");
     ("tracker_url", "https://github.com/adhihargo/rigging_tools/issues");
     ("category", "Rigging")]
    ["adh_regex_search_pattern"; "adh_regex_replacement_string"]
    [("ADH_AddSubdivisionSurfaceModifier", "show_viewport");
     ("ADH_CreateCustomShape", "widget_shape");
     ("ADH_CreateCustomShape", "widget_size");
     ("ADH_CreateCustomShape", "widget_pos");
     ("ADH_CreateCustomShape", "widget_prefix");
     ("ADH_CreateCustomShape", "widget_layers");
     ("ADH_CreateHookBones", "hook_layers");
     ("ADH_DisplayWireForSkinnedObjects", "show_wire")].

(** ** The world an operator runs in

    The first eight fields are the scene graph as the context shows it:
    [objects] is [bpy.data.objects] and [datablocks] the object data; a
    reference to either is its index, and nothing here ever deletes one.
    [pose_object] is the armature whose pose bones the context exposes (the
    active object in pose mode), [active_bone] the index of its active bone.
    The last two fields are not part of the scene: the redraw tag of the
    interface area the operator was invoked from, and the add-on module. *)
Record World := mkWorld {
  objects : list Object.t;
  datablocks : list ObData.t;
  active_object : option nat;
  mode : string;
  pose_object : option nat;
  active_bone : option nat;
  adh_regex_search_pattern : string;
  adh_regex_replacement_string : string;
  area_redraw : bool;
  addon : Addon.t }.

Definition upd_objects (f : list Object.t → list Object.t) (w : World) : World :=
  mkWorld (f (objects w)) (datablocks w) (active_object w) (mode w) (pose_object w)
          (active_bone w) (adh_regex_search_pattern w)
          (adh_regex_replacement_string w) (area_redraw w) (addon w).

Definition upd_datablocks (f : list ObData.t → list ObData.t) (w : World) : World :=
  mkWorld (objects w) (f (datablocks w)) (active_object w) (mode w) (pose_object w)
          (active_bone w) (adh_regex_search_pattern w)
          (adh_regex_replacement_string w) (area_redraw w) (addon w).

Definition set_mode (m : string) (pose : option nat) (w : World) : World :=
  mkWorld (objects w) (datablocks w) (active_object w) m pose
          (active_bone w) (adh_regex_search_pattern w)
          (adh_regex_replacement_string w) (area_redraw w) (addon w).

Definition set_area_redraw (v : bool) (w : World) : World :=
  mkWorld (objects w) (datablocks w) (active_object w) (mode w) (pose_object w)
          (active_bone w) (adh_regex_search_pattern w)
          (adh_regex_replacement_string w) v (addon w).

(** ** What the add-on calls but does not define

    - [re_compile] and [re_sub] are [re.compile] and the compiled pattern's
      [sub]; [None] stands for an exception ([re.error]).
    - [obj_to_bone w obj rig bone_name] is the sibling plug-in's
      [rigify.utils.obj_to_bone]: the object [obj] as that function leaves it,
      or [None] when it raises.
    - [apply_modifier w obj m] is the data-block of [obj] after the host has
      applied modifier [m] to it, or [None] when the host refuses.
    - [unique_name others n] is the name the host stores when the name [n] is
      given to an object, a bone or a data-block whose collection holds the
      names [others] besides.
    - [from_pydata verts edges faces mesh] is the mesh after
      [mesh.from_pydata(verts, edges, faces)] and the [mesh.update()] calls
      that follow: the host stores the tables in its own number format and
      order. *)
Record Host := mkHost {
  regex : Type;
  re_compile : string → option regex;
  re_sub : regex → string → string → option string;
  obj_to_bone : World → nat → nat → string → option Object.t;
  apply_modifier : World → nat → Modifier.t → option ObData.t;
  unique_name : list string → string → string;
  from_pydata : list vec3 → list (nat * nat) → list (list nat) → ObData.t → ObData.t }.

(** ** Operator results, exceptions and the operator monad *)

Inductive status := FINISHED | CANCELLED.

Inductive exn :=
  | re_error | ValueError | KeyError | AttributeError | TypeError
  | RuntimeError | ReferenceError.

Inductive result (A : Type) :=
  | Ok (a : A)
  | Raise (e : exn).
Arguments Ok {A} a.
Arguments Raise {A} e.

Definition M (A : Type) : Type := World → result A * World.

Definition ret {A} (a : A) : M A := λ w, (Ok a, w).

Definition bind {A B} (m : M A) (k : A → M B) : M B :=
  λ w, match m w with
       | (Ok a, w') => k a w'
       | (Raise e, w') => (Raise e, w')
       end.

Definition raise {A} (e : exn) : M A := λ w, (Raise e, w).

Definition get : M World := λ w, (Ok w, w).

Definition modify (f : World → World) : M unit := λ w, (Ok tt, f w).

Notation "'let*' x ':=' m 'in' k" := (bind m (λ x, k))
  (at level 10, x name, m at level 100, k at level 200, only parsing).
Notation "m '>>' k" := (bind m (λ _, k))
  (at level 90, right associativity, only parsing).

(** [o] when it is there, exception [e] otherwise. *)
Definition of_option {A} (e : exn) (o : option A) : M A :=
  match o with
  | Some a => ret a
  | None => raise e
  end.

(** [try: m  except: pass] *)
Definition try_except_pass (m : M unit) : M unit :=
  λ w, (Ok tt, (m w).2).

(** [for x in xs: body x], over a Python list. *)
Fixpoint for_each {X} (xs : list X) (body : X → M unit) : M unit :=
  match xs with
  | [] => ret tt
  | x :: rest => body x >> for_each rest body
  end.

(** Iterating [None] is a [TypeError]. *)
Definition iterable {X} (o : option (list X)) : M (list X) := of_option TypeError o.

(** ** References *)

(** Indices of the items of [l] that satisfy [P], in order, counted from [k]. *)
Fixpoint indices_from {A} (P : A → bool) (k : nat) (l : list A) : list nat :=
  match l with
  | [] => []
  | x :: rest => if P x then k :: indices_from P (S k) rest
                 else indices_from P (S k) rest
  end.

Definition indices_where {A} (P : A → bool) (l : list A) : list nat :=
  indices_from P 0 l.

(** A bone is referred to by its armature object and its index there. *)
Definition bone_ref : Type := nat * nat.

Definition the_object (obj : nat) : M Object.t :=
  let* w := get in of_option ReferenceError (objects w !! obj).

Definition update_object (obj : nat) (f : Object.t → Object.t) : M unit :=
  modify (upd_objects (alter f obj)).

(** [obj.pose.bones]: only an armature has a pose (and edit bones). *)
Definition pose_bones (o : Object.t) : option (list Bone.t) :=
  if String.eqb (Object.type o) "ARMATURE" then Some (Object.bones o) else None.

Definition lookup_bone (w : World) (r : bone_ref) : option Bone.t :=
  o ← objects w !! r.1; bs ← pose_bones o; bs !! r.2.

Definition the_bone (r : bone_ref) : M Bone.t :=
  let* w := get in of_option ReferenceError (lookup_bone w r).

Definition update_bone (r : bone_ref) (f : Bone.t → Bone.t) : M unit :=
  update_object r.1 (Object.upd_bones (alter f r.2)).

Definition update_datablock (d : nat) (f : ObData.t → ObData.t) : M unit :=
  modify (upd_datablocks (alter f d)).

(** ** The context *)

(** [context.selected_objects]: a fresh list of references on every access. *)
Definition selected_objects (w : World) : list nat :=
  indices_where Object.select (objects w).

(** [context.selectable_objects] *)
Definition selectable_objects (w : World) : list nat :=
  indices_where Object.linked (objects w).

Definition selected_bones_of (w : World) (a : nat) : option (list bone_ref) :=
  o ← objects w !! a;
  bs ← pose_bones o;
  Some (pair a <$> indices_where Bone.select bs).

(** [context.selected_pose_bones]: [None] without a pose object. *)
Definition selected_pose_bones (w : World) : option (list bone_ref) :=
  a ← pose_object w; selected_bones_of w a.

(** [context.selected_bones]: the selected edit bones of the armature being
    edited, [None] outside armature edit mode. *)
Definition selected_bones (w : World) : option (list bone_ref) :=
  if String.eqb (mode w) "EDIT_ARMATURE"
  then a ← active_object w; selected_bones_of w a
  else None.

(** [context.active_pose_bone] *)
Definition active_pose_bone (w : World) : option bone_ref :=
  a ← pose_object w;
  j ← active_bone w;
  _ ← lookup_bone w (a, j);
  Some (a, j).

(** Attribute access on [context.active_object]: an [AttributeError] on [None]. *)
Definition context_active_object : M nat :=
  let* w := get in of_option AttributeError (active_object w).

(** [armature.pose.bones[name]]: the first bone of that name. *)
Definition bone_index (n : string) (bs : list Bone.t) : option nat :=
  fst <$> list_find (λ b, Bone.name b = n) bs.

Definition pose_bone_by_name (a : nat) (n : string) : M bone_ref :=
  let* o := the_object a in
  let* bs := of_option AttributeError (pose_bones o) in
  let* j := of_option KeyError (bone_index n bs) in
  ret (a, j).

(** ** Host operators and methods the add-on calls *)

(** [bpy.ops.object.mode_set(mode=m)] on the active object.  Only the modes
    of an armature that the add-on asks for are modelled. *)
Definition mode_set (m : string) : M unit :=
  let* w := get in
  let* a := of_option RuntimeError (active_object w) in
  let* o := the_object a in
  if String.eqb m "OBJECT" then modify (set_mode "OBJECT" None)
  else if String.eqb (Object.type o) "ARMATURE" then
    if String.eqb m "EDIT" then modify (set_mode "EDIT_ARMATURE" None)
    else if String.eqb m "POSE" then modify (set_mode "POSE" (Some a))
    else raise TypeError
  else raise TypeError.

(** [bpy.ops.object.shape_key_remove()]: drops the active shape key of the
    active object. *)
Definition shape_key_remove : M unit :=
  let* a := context_active_object in
  let* o := the_object a in
  let* d := of_option RuntimeError (Object.data o) in
  update_datablock d (ObData.upd_key_blocks (delete (Object.active_shape_key_index o))).

(** [bpy.ops.object.modifier_apply(modifier=name)]: the host computes the new
    data of the active object and takes the modifier off the stack. *)
Definition modifier_apply (host : Host) (n : string) : M unit :=
  let* a := context_active_object in
  let* o := the_object a in
  let* jm := of_option RuntimeError
               (list_find (λ m, Modifier.name m = n) (Object.modifiers o)) in
  let* d := of_option RuntimeError (Object.data o) in
  let* w := get in
  let* d' := of_option RuntimeError (apply_modifier host w a jm.2) in
  modify (upd_datablocks (<[d := d']>)) >>
  update_object a (Object.upd_modifiers (delete jm.1)).

(** [rigify.utils.obj_to_bone(obj, rig, bone_name)] *)
Definition rigify_utils_obj_to_bone (host : Host) (obj : nat) (rig : option nat)
    (bone_name : string) : M unit :=
  let* rig := of_option AttributeError rig in
  let* w := get in
  let* o' := of_option RuntimeError (obj_to_bone host w obj rig bone_name) in
  modify (upd_objects (<[obj := o']>)).

(** [bpy.data.meshes.new(name)] and [bpy.data.objects.new(name, mesh)] return a
    reference to the new data-block, which has the name the host makes of
    [name].  (The model does not tell the kinds of data-blocks apart: the
    names a new data-block is compared with are those of all data-blocks, of
    which the host looks at those of its kind.) *)
Definition meshes_new (host : Host) (n : string) : M nat :=
  let* w := get in
  let n := unique_name host (ObData.name <$> datablocks w) n in
  modify (upd_datablocks (λ ds, ds ++ [ObData.new n])) >>
  ret (length (datablocks w)).

Definition objects_new (host : Host) (n : string) (mesh : nat) : M nat :=
  let* w := get in
  let n := unique_name host (Object.name <$> objects w) n in
  modify (upd_objects (λ os, os ++ [Object.new n mesh])) >>
  ret (length (objects w)).

(** [obj.name = n], [bone.name = n] and [obj.data.name = n]: the item gets
    the name the host makes of [n], given the names of the other items of
    its collection. *)
Definition set_object_name (host : Host) (obj : nat) (n : string) : M unit :=
  let* w := get in
  update_object obj
    (Object.set_name (unique_name host (Object.name <$> delete obj (objects w)) n)).

Definition set_bone_name (host : Host) (r : bone_ref) (n : string) : M unit :=
  let* w := get in
  let others :=
    match objects w !! r.1 with
    | Some o => Bone.name <$> delete r.2 (Object.bones o)
    | None => []
    end in
  update_bone r (Bone.set_name (unique_name host others n)).

Definition set_data_name (host : Host) (d : nat) (n : string) : M unit :=
  let* w := get in
  update_datablock d
    (ObData.set_name (unique_name host (ObData.name <$> delete d (datablocks w)) n)).

(** [scene.objects.link(obj)] *)
Definition scene_objects_link (obj : nat) : M unit :=
  update_object obj (Object.set_linked true).

(** The names in [scene.objects] ([name in scene.objects] looks a name up). *)
Definition scene_object_names (w : World) : list string :=
  Object.name <$> filter (λ o, Object.linked o = true) (objects w).

(** [obj.modifiers.new(name, type)] returns the new modifier, the last of the
    stack. *)
Definition modifiers_new (obj : nat) (n ty : string) : M nat :=
  let* o := the_object obj in
  update_object obj (Object.upd_modifiers (λ ms, ms ++ [Modifier.new n ty])) >>
  ret (length (Object.modifiers o)).

Definition update_modifier (obj sm : nat) (f : Modifier.t → Modifier.t) : M unit :=
  update_object obj (Object.upd_modifiers (alter f sm)).

(** [data.edit_bones.new(name)] returns the new bone, the last of the
    armature, under the name the host makes of [name].  (The bones of an
    armature are held with the object, for [obj.data.edit_bones] and
    [obj.pose.bones] alike.) *)
Definition edit_bones_new (host : Host) (a : nat) (n : string) : M bone_ref :=
  let* o := the_object a in
  let n := unique_name host (Bone.name <$> Object.bones o) n in
  update_object a (Object.upd_bones (λ bs, bs ++ [Bone.new n])) >>
  ret (a, length (Object.bones o)).

(** [bone.constraints.new(type)] returns the new constraint, the last of the
    bone's stack. *)
Definition constraints_new (r : bone_ref) (ty : string) : M nat :=
  let* b := the_bone r in
  update_bone r (Bone.upd_constraints (λ cs, cs ++ [Constraint.new ty])) >>
  ret (length (Bone.constraints b)).

Definition update_constraint (r : bone_ref) (c : nat) (f : Constraint.t → Constraint.t)
    : M unit :=
  update_bone r (Bone.upd_constraints (alter f c)).

(** [context.area.tag_redraw()] *)
Definition tag_redraw : M unit := modify (set_area_redraw true).

(** [l.remove(x)] of a Python list: the first occurrence goes, and a
    [ValueError] is raised when there is none. *)
Fixpoint remove_first `{EqDecision A} (x : A) (l : list A) : list A :=
  match l with
  | [] => []
  | y :: rest => if decide (x = y) then rest else y :: remove_first x rest
  end.

Definition list_remove `{EqDecision A} (x : A) (l : list A) : M (list A) :=
  if decide (x ∈ l) then ret (remove_first x l) else raise ValueError.

(** [for x in coll: body x] over a collection of the host ([obj.modifiers],
    [obj.vertex_groups]).  The host's iterator has moved on to the following
    item before the body receives the current one, so a body that removes
    the item it was given does not disturb the traversal: the loop runs over
    the items the collection held when it started.  An item is passed by
    value; an item of these collections carries nothing that tells it from an
    equal one. *)
Definition for_each_in_collection {X} (items : list X) (body : X → M unit) : M unit :=
  for_each items body.

#[global] Instance VertexGroup_eq_dec : EqDecision VertexGroup.t.
Proof. solve_decision. Defined.

(** [obj.vertex_groups.remove(vg)] *)
Definition vertex_groups_remove (obj : nat) (vg : VertexGroup.t) : M unit :=
  update_object obj (Object.upd_vertex_groups (remove_first vg)).

(** [obj.type == ty] for a reference [obj]. *)
Definition is_type (ty : string) (w : World) (obj : nat) : bool :=
  match objects w !! obj with
  | Some o => String.eqb (Object.type o) ty
  | None => false
  end.

(** ** The operators *)

Module ADH_AddSubdivisionSurfaceModifier.
Definition bl_idname : string := "object.adh_add_subsurf_modifier".
Definition bl_label : string := "Add Subdivision Surface Modifier".

Definition poll (w : World) : bool :=
  String.eqb (mode w) "OBJECT" && negb (bool_decide (selected_objects w = [])).

Definition execute (show_viewport : bool) : M status :=
  let* w := get in
  let meshes := filter (λ obj, is_type "MESH" w obj = true) (selected_objects w) in
  for_each meshes (λ obj,
    let* o := the_object obj in
    let sml := indices_where (λ m, String.eqb (Modifier.type m) "SUBSURF")
                             (Object.modifiers o) in
    if bool_decide (sml = []) then
      let* sm := modifiers_new obj "Subsurf" "SUBSURF" in
      update_modifier obj sm (Modifier.set_show_viewport show_viewport) >>
      update_modifier obj sm (Modifier.set_show_expanded false)
    else
      for_each sml (λ sm,
        update_modifier obj sm (Modifier.set_show_viewport show_viewport) >>
        update_modifier obj sm (Modifier.set_show_expanded false))) >>
  ret FINISHED.
End ADH_AddSubdivisionSurfaceModifier.

Module ADH_ApplyLattices.
Definition bl_idname : string := "object.adh_apply_lattices".
Definition bl_label : string := "Apply Lattices".

Definition poll (w : World) : bool :=
  String.eqb (mode w) "OBJECT" && negb (bool_decide (selected_objects w = []))
  && match active_object w with
     | Some a => is_type "MESH" w a
     | None => false
     end.

Definition execute (host : Host) : M status :=
  let* obj := context_active_object in
  let* o := the_object obj in
  let* d := of_option AttributeError (Object.data o) in
  let* w := get in
  let* mesh := of_option ReferenceError (datablocks w !! d) in
  (if bool_decide (ObData.key_blocks mesh = []) then ret tt
   else
     for_each (reverse (seq 1 (length (ObData.key_blocks mesh)))) (λ i,
       update_object obj (Object.set_active_shape_key_index (i - 1)) >>
       shape_key_remove)) >>
  let* o := the_object obj in
  for_each_in_collection (Object.modifiers o) (λ m,
    if String.eqb (Modifier.type m) "LATTICE"
    then modifier_apply host (Modifier.name m)
    else ret tt) >>
  ret FINISHED.
End ADH_ApplyLattices.

Module ADH_CopyCustomShapes.
Definition bl_idname : string := "object.adh_copy_shapes".
Definition bl_label : string := "Copy Custom Shapes".

Definition poll (w : World) : bool :=
  let non_armatures_selected :=
    filter (λ o, is_type "ARMATURE" w o = false) (selected_objects w) in
  bool_decide (2 ≤ length (selected_objects w))
  && bool_decide (non_armatures_selected = []).

Definition execute : M status :=
  let* w := get in
  let src_armature := active_object w in
  let dst_armatures := selected_objects w in
  let* dst_armatures :=
    match src_armature with
    | Some src => list_remove src dst_armatures
    | None => raise ValueError   (* [None] is in no list of objects *)
    end in
  let* src := of_option AttributeError src_armature in
  let* o := the_object src in
  let* src_bones := of_option AttributeError (pose_bones o) in
  for_each (pair src <$> seq 0 (length src_bones)) (λ bone,
    for_each dst_armatures (λ armature,
      try_except_pass (
        let* b := the_bone bone in
        let* dst := pose_bone_by_name armature (Bone.name b) in
        let* b := the_bone bone in
        update_bone dst (Bone.set_custom_shape (Bone.custom_shape b))))) >>
  ret FINISHED.
End ADH_CopyCustomShapes.

Module ADH_CreateCustomShape.
Definition bl_idname : string := "object.adh_create_shape".
Definition bl_label : string := "Create Custom Shape".

Inductive shape := sphere | ring | box.

(** The operator's properties, as [self] carries them. *)
Record props := mk {
  widget_shape : shape;
  widget_size : float;
  widget_pos : float;
  widget_prefix : string;
  widget_layers : list bool }.

(** The declared defaults: size 1.0, position 0.5, prefix ['wgt-'], the last
    of twenty layers. *)
Definition defaults (s : shape) : props :=
  mk s 1.0%float 0.5%float "wgt-" ((λ x, bool_decide (x = 19)) <$> seq 0 20).

Definition poll (w : World) : bool :=
  String.eqb (mode w) "POSE" && bool_decide (active_pose_bone w ≠ None).

Definition create_widget (host : Host) (self : props) (rig : option nat)
    (bone_name : string) (bone_transform_name : option string) : M (option nat) :=
  let obj_name := widget_prefix self +:+ bone_name in
  let* scene := get in
  if bool_decide (obj_name ∈ scene_object_names scene) then ret None
  else
    let* mesh := meshes_new host obj_name in
    let* obj := objects_new host obj_name mesh in
    scene_objects_link obj >>
    rigify_utils_obj_to_bone host obj rig bone_name >>
    update_object obj (Object.set_layers (widget_layers self)) >>
    ret (Some obj).

(** The widget tables. *)
Definition sphere_verts (size pos : float) : list vec3 :=
  [
   ((-0.3535533845424652) * size, ((-0.3535533845424652) * size) + pos, 2.9802322387695312e-08 * size);
   ((-0.5) * size, (2.1855694143368964e-08 * size) + pos, (-1.7763568394002505e-15) * size);
   ((-0.3535533845424652) * size, (0.3535533845424652 * size) + pos, (-2.9802322387695312e-08) * size);
   (4.371138828673793e-08 * size, (0.5 * size) + pos, (-2.9802322387695312e-08) * size);
   ((-0.24999994039535522) * size, ((-0.3535533845424652) * size) + pos, 0.2500000596046448 * size);
   ((-0.3535533845424652) * size, (5.960464477539063e-08 * size) + pos, 0.35355344414711 * size);
   ((-0.24999994039535522) * size, (0.3535534143447876 * size) + pos, 0.2500000298023224 * size);
   (7.968597515173315e-08 * size, ((-0.3535534143447876) * size) + pos, 0.35355344414711 * size);
   (8.585823962903305e-08 * size, (5.960464477539063e-08 * size) + pos, 0.5000001192092896 * size);
   (7.968597515173315e-08 * size, (0.3535534143447876 * size) + pos, 0.3535533845424652 * size);
   (0.25000008940696716 * size, ((-0.3535533547401428) * size) + pos, 0.25 * size);
   (0.35355350375175476 * size, (5.960464477539063e-08 * size) + pos, 0.3535533845424652 * size);
   (0.25000008940696716 * size, (0.3535534143447876 * size) + pos, 0.2499999701976776 * size);
   (0.3535534739494324 * size, ((-0.3535534143447876) * size) + pos, (-2.9802322387695312e-08) * size);
   (0.5000001192092896 * size, (2.9802315282267955e-08 * size) + pos, (-8.429370268459024e-08) * size);
   (0.3535534739494324 * size, (0.3535533845424652 * size) + pos, (-8.940696716308594e-08) * size);
   (0.2500000298023224 * size, ((-0.35355344414711) * size) + pos, (-0.2500000596046448) * size);
   (0.3535533845424652 * size, (0.0 * size) + pos, (-0.35355350375175476) * size);
   (0.2500000298023224 * size, (0.35355332493782043 * size) + pos, (-0.25000011920928955) * size);
   ((-4.494675920341251e-08) * size, ((-0.35355344414711) * size) + pos, (-0.3535534143447876) * size);
   ((-8.27291728455748e-08) * size, (0.0 * size) + pos, (-0.5) * size);
   ((-4.494675920341251e-08) * size, (0.3535533845424652 * size) + pos, (-0.3535534739494324) * size);
   (1.2802747306750462e-08 * size, ((-0.5) * size) + pos, 0.0 * size);
   ((-0.25000008940696716) * size, ((-0.35355344414711) * size) + pos, (-0.24999994039535522) * size);
   ((-0.35355350375175476) * size, (0.0 * size) + pos, (-0.35355332493782043) * size);
   ((-0.25000008940696716) * size, (0.35355332493782043 * size) + pos, (-0.25) * size)
  ]%float.

Definition sphere_edges : list (nat * nat) :=
  [
   (0, 1); (1, 2); (2, 3); (4, 5); (5, 6); (2, 6); (0, 4); (5, 1);
   (7, 8); (8, 9); (6, 9); (5, 8); (7, 4); (10, 11); (11, 12); (9, 12);
   (10, 7); (11, 8); (13, 14); (14, 15); (12, 15); (13, 10); (14, 11); (16, 17);
   (17, 18); (15, 18); (16, 13); (17, 14); (19, 20); (20, 21); (18, 21); (16, 19);
   (20, 17); (22, 23); (23, 24); (24, 25); (21, 25); (20, 24); (23, 19); (22, 0);
   (22, 4); (6, 3); (22, 7); (9, 3); (22, 10); (12, 3); (22, 13); (15, 3);
   (22, 16); (18, 3); (22, 19); (21, 3); (25, 3); (25, 2); (0, 23); (1, 24)
  ].

Definition sphere_faces : list (list nat) :=
  [
   [1; 0; 4; 5]; [2; 1; 5; 6]; [6; 5; 8; 9]; [5; 4; 7; 8];
   [8; 7; 10; 11]; [9; 8; 11; 12]; [11; 10; 13; 14]; [12; 11; 14; 15];
   [14; 13; 16; 17]; [15; 14; 17; 18]; [17; 16; 19; 20]; [18; 17; 20; 21];
   [21; 20; 24; 25]; [20; 19; 23; 24]; [3; 2; 6]; [0; 22; 4];
   [3; 6; 9]; [4; 22; 7]; [3; 9; 12]; [7; 22; 10];
   [3; 12; 15]; [10; 22; 13]; [3; 15; 18]; [13; 22; 16];
   [3; 18; 21]; [16; 22; 19]; [3; 21; 25]; [19; 22; 23];
   [3; 25; 2]; [23; 22; 0]; [24; 23; 0; 1]; [25; 24; 1; 2]
  ].

Definition ring_verts (size pos : float) : list vec3 :=
  [
   (0.0 * size, pos, 1.0 * size);
   ((-0.5) * size, pos, 0.8660253882408142 * size);
   ((-0.866025447845459) * size, pos, 0.4999999701976776 * size);
   ((-1.0) * size, pos, (-4.371138828673793e-08) * size);
   ((-0.8660253882408142) * size, pos, (-0.5000000596046448) * size);
   ((-0.5000000596046448) * size, pos, (-0.8660253882408142) * size);
   ((-1.5099580252808664e-07) * size, pos, (-1.0) * size);
   (0.4999997913837433 * size, pos, (-0.8660255074501038) * size);
   (0.8660252094268799 * size, pos, (-0.5000002980232239) * size);
   (1.0 * size, pos, (-4.649122899991198e-07) * size);
   (0.8660256862640381 * size, pos, 0.4999994933605194 * size);
   (0.5000005960464478 * size, pos, 0.8660250902175903 * size)
  ]%float.

Definition ring_edges : list (nat * nat) :=
  [
   (1, 0); (2, 1); (3, 2); (4, 3); (5, 4); (6, 5); (7, 6); (8, 7);
   (9, 8); (10, 9); (11, 10); (0, 11)
  ].

Definition ring_faces : list (list nat) := [].

Definition box_verts (size pos : float) : list vec3 :=
  [
   ((-0.5) * size, (-0.5) + pos, (-0.5) * size);
   ((-0.5) * size, 0.5 + pos, (-0.5) * size);
   (0.5 * size, 0.5 + pos, (-0.5) * size);
   (0.5 * size, (-0.5) + pos, (-0.5) * size);
   ((-0.5) * size, (-0.5) + pos, 0.5 * size);
   ((-0.5) * size, 0.5 + pos, 0.5 * size);
   (0.5 * size, 0.5 + pos, 0.5 * size);
   (0.5 * size, (-0.5) + pos, 0.5 * size)
  ]%float.

Definition box_edges : list (nat * nat) :=
  [
   (4, 5); (5, 1); (1, 0); (0, 4); (5, 6); (6, 2); (2, 1); (6, 7);
   (7, 3); (3, 2); (7, 4); (0, 3)
  ].

Definition box_faces : list (list nat) :=
  [
   [4; 5; 1; 0]; [5; 6; 2; 1]; [6; 7; 3; 2]; [7; 4; 0; 3];
   [0; 1; 2; 3]; [7; 6; 5; 4]
  ].

(** [mesh = obj.data; mesh.from_pydata(verts, edges, faces); mesh.update();
    mesh.update()] *)
Definition fill_mesh (host : Host) (obj : nat) (verts : list vec3)
    (edges : list (nat * nat)) (faces : list (list nat)) : M unit :=
  let* o := the_object obj in
  let* mesh := of_option AttributeError (Object.data o) in
  update_datablock mesh (from_pydata host verts edges faces).

Definition create_sphere_widget (host : Host) (self : props) (rig : option nat)
    (bone_name : string) (size pos : float) (bone_transform_name : option string)
    : M (option nat) :=
  let* obj := create_widget host self rig bone_name bone_transform_name in
  match obj with
  | Some obj =>
      fill_mesh host obj (sphere_verts size pos) sphere_edges sphere_faces >>
      ret (Some obj)
  | None => ret None
  end.

Definition create_ring_widget (host : Host) (self : props) (rig : option nat)
    (bone_name : string) (size pos : float) (bone_transform_name : option string)
    : M (option nat) :=
  let* obj := create_widget host self rig bone_name bone_transform_name in
  match obj with
  | Some obj =>
      fill_mesh host obj (ring_verts size pos) ring_edges ring_faces >>
      ret (Some obj)
  | None => ret None
  end.

Definition create_box_widget (host : Host) (self : props) (rig : option nat)
    (bone_name : string) (size pos : float) (bone_transform_name : option string)
    : M (option nat) :=
  let* obj := create_widget host self rig bone_name bone_transform_name in
  match obj with
  | Some obj =>
      fill_mesh host obj (box_verts size pos) box_edges box_faces >>
      ret (Some obj)
  | None => ret None
  end.

Definition execute (host : Host) (self : props) : M status :=
  let* w := get in
  let rig := active_object w in
  let* bone := of_option AttributeError (active_pose_bone w) in
  let func :=
    match widget_shape self with
    | sphere => create_sphere_widget
    | ring => create_ring_widget
    | box => create_box_widget
    end in
  let* b := the_bone bone in
  let* widget := func host self rig (Bone.name b) (widget_size self) (widget_pos self)
                      None in
  update_bone bone (Bone.set_custom_shape widget) >>
  ret FINISHED.
End ADH_CreateCustomShape.

Module ADH_CreateHookBones.
Definition bl_idname : string := "object.adh_create_hook_bones".
Definition bl_label : string := "Create Hook Bones".

(** The declared default of [hook_layers]: the last but one of 32 layers. *)
Definition default_hook_layers : list bool :=
  (λ x, bool_decide (x = 30)) <$> seq 0 32.

Definition poll (w : World) : bool :=
  match active_object w with
  | Some a => is_type "ARMATURE" w a
  | None => false
  end.

Definition execute (host : Host) (hook_layers : list bool) : M status :=
  let* w := get in
  let prev_mode := if String.eqb (mode w) "EDIT_ARMATURE" then "EDIT" else mode w in
  mode_set "EDIT" >>
  let* w := get in
  let* bones := iterable (selected_bones w) in
  for_each bones (λ bone,
    let* b := the_bone bone in
    let hook_name := "hook-" +:+ Bone.name b in
    let* a := context_active_object in
    let* hook := edit_bones_new host a hook_name in
    update_bone hook (Bone.set_head (Bone.head b)) >>
    update_bone hook (Bone.set_tail (Bone.tail b)) >>
    update_bone hook (Bone.set_bbone_x (Bone.bbone_x b / 2)%float) >>
    update_bone hook (Bone.set_bbone_z (Bone.bbone_z b / 2)%float) >>
    update_bone hook (Bone.set_layers hook_layers) >>
    update_bone hook (Bone.set_roll (Bone.roll b))) >>
  mode_set "POSE" >>
  let* w := get in
  let* bones := iterable (selected_pose_bones w) in
  for_each bones (λ bone,
    let* b := the_bone bone in
    let* a := context_active_object in
    let* hook := pose_bone_by_name a ("hook-" +:+ Bone.name b) in
    let* ct_constraint := constraints_new hook "COPY_TRANSFORMS" in
    update_constraint hook ct_constraint (Constraint.set_owner_space "LOCAL") >>
    update_constraint hook ct_constraint (Constraint.set_target_space "LOCAL") >>
    update_constraint hook ct_constraint (Constraint.set_target (Some a)) >>
    update_constraint hook ct_constraint (Constraint.set_subtarget (Bone.name b))) >>
  mode_set prev_mode >>
  ret FINISHED.
End ADH_CreateHookBones.

Module ADH_DisplayWireForSkinnedObjects.
Definition bl_idname : string := "object.adh_display_wire_if_skinned".
Definition bl_label : string := "Display Wire For Skinned Objects".

Definition poll (w : World) : bool :=
  match active_object w with
  | Some a => is_type "ARMATURE" w a
  | None => false
  end.

(** [[m for m in obj.modifiers if m.type == 'ARMATURE' and m.object == armature_obj]] *)
Definition armature_mod (armature_obj : option nat) (o : Object.t) : list Modifier.t :=
  filter (λ m, Modifier.type m = "ARMATURE" ∧ Modifier.object m = armature_obj)
         (Object.modifiers o).

Definition is_affected (w : World) (armature_obj : option nat) (obj : nat) : bool :=
  match objects w !! obj with
  | Some o => negb (bool_decide (armature_mod armature_obj o = []))
  | None => false
  end.

Definition execute (show_wire : bool) : M status :=
  let* w := get in
  let armature_obj := active_object w in
  let affected_objects :=
    filter (λ obj, is_affected w armature_obj obj = true) (selectable_objects w) in
  for_each affected_objects (λ obj,
    update_object obj (Object.set_show_wire show_wire)) >>
  ret FINISHED.
End ADH_DisplayWireForSkinnedObjects.

Module ADH_RemoveVertexGroupsUnselectedBones.
Definition bl_idname : string := "object.adh_remove_vertex_groups_unselected_bones".
Definition bl_label : string := "Remove Vertex Groups of Unselected Bones".

Definition poll (w : World) : bool :=
  bool_decide (selected_pose_bones w ≠ None).

(** [[b.name for b in bones]] *)
Definition names_of (w : World) (bones : list bone_ref) : list string :=
  omap (λ r, Bone.name <$> lookup_bone w r) bones.

Definition execute : M status :=
  let* w := get in
  let* bones := iterable (selected_pose_bones w) in
  let bone_names := names_of w bones in
  let affected_objects :=
    filter (λ o, is_type "MESH" w o = true) (selected_objects w) in
  for_each affected_objects (λ obj,
    let* o := the_object obj in
    for_each_in_collection (Object.vertex_groups o) (λ vg,
      if negb (bool_decide (VertexGroup.name vg ∈ bone_names))
      then vertex_groups_remove obj vg
      else ret tt)) >>
  ret FINISHED.
End ADH_RemoveVertexGroupsUnselectedBones.

Module ADH_RenameRegex.
Definition bl_idname : string := "object.adh_rename_regex".
Definition bl_label : string := "Rename Regex".

Definition poll (w : World) : bool :=
  negb (bool_decide (selected_objects w = [])).

(** What [item_list] holds: objects, or bones (pose bones and edit bones are
    views of the same bone). *)
Inductive item :=
  | object_item (obj : nat)
  | bone_item (r : bone_ref).

Definition item_name (w : World) (it : item) : option string :=
  match it with
  | object_item obj => Object.name <$> objects w !! obj
  | bone_item r => Bone.name <$> lookup_bone w r
  end.

Definition set_item_name (host : Host) (it : item) (n : string) : M unit :=
  match it with
  | object_item obj => set_object_name host obj n
  | bone_item r => set_bone_name host r n
  end.

(** The list the mode selects; the outer [None] is the [else] branch. *)
Definition item_list (w : World) : option (option (list item)) :=
  if String.eqb (mode w) "OBJECT" then
    Some (Some (object_item <$> selected_objects w))
  else if String.eqb (mode w) "POSE" then
    Some (fmap (M:=list) bone_item <$> selected_pose_bones w)
  else if String.eqb (mode w) "EDIT_ARMATURE" then
    Some (fmap (M:=list) bone_item <$> selected_bones w)
  else None.

Definition execute (host : Host) : M status :=
  let* w := get in
  let* substring_re := of_option re_error (re_compile host (adh_regex_search_pattern w)) in
  match item_list w with
  | None => ret CANCELLED
  | Some item_list =>
      let* item_list := iterable item_list in
      for_each item_list (λ item,
        let* w := get in
        let* old := of_option ReferenceError (item_name w item) in
        let* new := of_option re_error
                      (re_sub host substring_re (adh_regex_replacement_string w) old) in
        set_item_name host item new) >>
      let* w := get in
      (if String.eqb (mode w) "POSE" then tag_redraw else ret tt) >>
      ret FINISHED
  end.
End ADH_RenameRegex.

Module ADH_SyncObjectDataNameToObject.
Definition bl_idname : string := "object.adh_sync_data_name_to_object".
Definition bl_label : string := "Sync Object Data Name To Object".

Definition poll (w : World) : bool :=
  negb (bool_decide (selected_objects w = [])).

Definition execute (host : Host) : M status :=
  let* w := get in
  for_each (selected_objects w) (λ obj,
    let* o := the_object obj in
    match Object.data o with
    | Some d => set_data_name host d (Object.name o)
    | None => ret tt
    end) >>
  ret FINISHED.
End ADH_SyncObjectDataNameToObject.

Module ADH_SyncCustomShapePositionToBone.
Definition bl_idname : string := "object.adh_sync_shape_position_to_bone".
Definition bl_label : string := "Sync Custom Shape Position to Bone".

Definition poll (w : World) : bool :=
  match active_object w with
  | Some a => is_type "ARMATURE" w a
  | None => false
  end && String.eqb (mode w) "POSE".

Definition execute (host : Host) : M status :=
  let* w := get in
  let* bones := iterable (selected_pose_bones w) in
  for_each bones (λ bone,
    let* b := the_bone bone in
    match Bone.custom_shape b with
    | Some obj =>
        let* w := get in
        rigify_utils_obj_to_bone host obj (active_object w) (Bone.name b)
    | None => ret tt
    end) >>
  ret FINISHED.
End ADH_SyncCustomShapePositionToBone.

Module ADH_UseSameCustomShape.
Definition bl_idname : string := "object.adh_use_same_shape".
Definition bl_label : string := "Use Same Custom Shape".

Definition poll (w : World) : bool :=
  bool_decide (active_pose_bone w ≠ None).

(** [for obj in objs: if obj.type == 'MESH': custom_shape = obj; break] *)
Fixpoint first_mesh (w : World) (objs : list nat) (custom_shape : option nat)
    : option nat :=
  match objs with
  | [] => custom_shape
  | obj :: rest => if is_type "MESH" w obj then Some obj
                   else first_mesh w rest custom_shape
  end.

Definition execute : M status :=
  let* w := get in
  match active_pose_bone w with
  | None => ret CANCELLED
  | Some active =>
      let* b := the_bone active in
      let custom_shape := Bone.custom_shape b in
      let custom_shape := first_mesh w (selected_objects w) custom_shape in
      let* bones := iterable (selected_pose_bones w) in
      for_each bones (λ bone,
        update_bone bone (Bone.set_custom_shape custom_shape)) >>
      ret FINISHED
  end.
End ADH_UseSameCustomShape.

(** ** The tool panel *)

Module Layout.
(** What [draw] puts into a column: an operator button (with the [text]
    override, if any) or a property field. *)
Inductive item :=
  | operator (idname : string) (text : option string)
  | prop (owner : string) (property : string).

Definition column : Type := list item.
End Layout.

Module ADH_RiggingToolsPanel.
Definition bl_idname : string := "OBJECT_PT_ADH_rigging_tools".
Definition bl_label : string := "ADH Rigging Tools".

(** The columns [draw] lays out, in order. *)
Definition draw : list Layout.column :=
  [ [ Layout.operator "object.adh_rename_regex" None;
      Layout.prop "scene" "adh_regex_search_pattern";
      Layout.prop "scene" "adh_regex_replacement_string" ];
    [ Layout.operator "object.adh_add_subsurf_modifier" (Some "Add Subsurf");
      Layout.operator "object.adh_apply_lattices" None ];
    [ Layout.operator "object.adh_copy_shapes" None;
      Layout.operator "object.adh_use_same_shape" None;
      Layout.operator "object.adh_create_shape" None ];
    [ Layout.operator "object.adh_create_hook_bones" None;
      Layout.operator "object.adh_display_wire_if_skinned" (Some "Display Wire");
      Layout.operator "object.adh_remove_vertex_groups_unselected_bones"
                      (Some "Remove Unselected VG") ];
    [ Layout.operator "object.adh_sync_data_name_to_object"
                      (Some "ObData.name <- Ob.name");
      Layout.operator "object.adh_sync_shape_position_to_bone"
                      (Some "CustShape.pos <- Bone.pos") ] ].

(** The [bl_idname]s of the buttons, in drawing order. *)
Definition operator_buttons : list string :=
  omap (λ it, match it with
              | Layout.operator idname _ => Some idname
              | Layout.prop _ _ => None
              end) (concat draw).
End ADH_RiggingToolsPanel.

(** ** The operator classes *)

(** The [bl_idname] of every operator class of the module, in the order the
    classes are defined. *)
Definition operator_idnames : list string :=
  [ ADH_AddSubdivisionSurfaceModifier.bl_idname;
    ADH_ApplyLattices.bl_idname;
    ADH_CopyCustomShapes.bl_idname;
    ADH_CreateCustomShape.bl_idname;
    ADH_CreateHookBones.bl_idname;
    ADH_DisplayWireForSkinnedObjects.bl_idname;
    ADH_RemoveVertexGroupsUnselectedBones.bl_idname;
    ADH_RenameRegex.bl_idname;
    ADH_SyncObjectDataNameToObject.bl_idname;
    ADH_SyncCustomShapePositionToBone.bl_idname;
    ADH_UseSameCustomShape.bl_idname ].

(** How often [x] occurs in [l]. *)
Definition occurrences (x : string) (l : list string) : nat :=
  length (filter (λ y, y = x) l).

(** ** Functions used to state the properties *)

Definition is_subsurf (m : Modifier.t) : bool :=
  String.eqb (Modifier.type m) "SUBSURF".

(** The two assignments the operator makes to a SUBSURF modifier. *)
Definition subsurf_settings (show_viewport : bool) (m : Modifier.t) : Modifier.t :=
  Modifier.set_show_expanded false (Modifier.set_show_viewport show_viewport m).

(** What the operator does to one mesh object. *)
Definition with_subsurf (show_viewport : bool) (o : Object.t) : Object.t :=
  if bool_decide (indices_where is_subsurf (Object.modifiers o) = []) then
    Object.upd_modifiers
      (λ ms, ms ++ [subsurf_settings show_viewport (Modifier.new "Subsurf" "SUBSURF")]) o
  else
    Object.upd_modifiers
      (fmap (λ m, if is_subsurf m then subsurf_settings show_viewport m else m)) o.

(** [[obj for obj in context.selected_objects if obj.type == 'MESH']] *)
Definition selected_meshes (w : World) : list nat :=
  filter (λ obj, is_type "MESH" w obj = true) (selected_objects w).

Definition is_selected_mesh (o : Object.t) : bool :=
  Object.select o && String.eqb (Object.type o) "MESH".

(** The vertices of a table are literals scaled by [size], the second
    coordinate offset by [pos]: [place size pos] puts one literal vertex
    [(a, b, c)] at [(a*size, (b*size)+pos, c*size)], and at [(a*size, pos,
    c*size)] when the vertex has no literal along that axis. *)
Definition place (size pos : float) (v : float * option float * float) : vec3 :=
  (v.1.1 * size,
   match v.1.2 with
   | Some b => (b * size) + pos
   | None => pos
   end,
   v.2 * size)%float.

Definition scaled_table (verts : float → float → list vec3) : Prop :=
  ∃ literals, ∀ size pos, verts size pos = place size pos <$> literals.

(** The box's variant: the literal along the offset axis is not scaled,
    [(a*size, b+pos, c*size)]. *)
Definition place_unscaled (size pos : float) (v : vec3) : vec3 :=
  (v.1.1 * size, v.1.2 + pos, v.2 * size)%float.

(** The corners of the box the table is written from, in its order. *)
Definition box_corners : list vec3 :=
  [ (-0.5, -0.5, -0.5); (-0.5, 0.5, -0.5); (0.5, 0.5, -0.5); (0.5, -0.5, -0.5);
    (-0.5, -0.5, 0.5); (-0.5, 0.5, 0.5); (0.5, 0.5, 0.5); (0.5, -0.5, 0.5) ]%float.

(** The unit table: a table read at size 1 and position 0. *)
Definition unit_literals (verts : float → float → list vec3)
    : list (float * option float * float) :=
  (λ v : vec3, (v.1.1, Some v.1.2, v.2)) <$> verts 1%float 0%float.

(** [edges] is one closed cycle through the vertices [0 .. n-1]: some order
    of the vertices in which every edge joins a vertex to the one before it,
    and the first to the last. *)
Definition closed_cycle (n : nat) (edges : list (nat * nat)) : Prop :=
  ∃ order, order ≡ₚ seq 0 n ∧ edges = zip (rotate 1 order) order.

(** The names of the selected pose bones (none without a pose object). *)
Definition selected_pose_bone_names (w : World) : list string :=
  match selected_pose_bones w with
  | Some bones => ADH_RemoveVertexGroupsUnselectedBones.names_of w bones
  | None => []
  end.

(** The vertex groups of [o] named in [names], in their order. *)
Definition keep_vertex_groups (names : list string) (o : Object.t) : Object.t :=
  Object.upd_vertex_groups (filter (λ vg, VertexGroup.name vg ∈ names)) o.

(** The first selected mesh object, if any object selected is a mesh. *)
Definition first_selected_mesh (w : World) : option nat := head (selected_meshes w).

(** [bone.custom_shape] for a reference [bone]. *)
Definition custom_shape_of (w : World) (bone : bone_ref) : option nat :=
  b ← lookup_bone w bone; Bone.custom_shape b.

(** The host keeps the names of the bones of an armature distinct: a name is
    the key of a bone in [pose.bones] and [edit_bones]. *)
Definition unique_bone_names (w : World) : Prop :=
  ∀ obj o, objects w !! obj = Some o → NoDup (Bone.name <$> Object.bones o).

(** [armature.pose.bones[bone.name].custom_shape = bone.custom_shape] under
    [try ... except: pass], for the armature [o] and the source bone [b]. *)
Definition copy_shape (b : Bone.t) (o : Object.t) : Object.t :=
  match pose_bones o with
  | Some bs =>
      match bone_index (Bone.name b) bs with
      | Some j =>
          Object.upd_bones (alter (Bone.set_custom_shape (Bone.custom_shape b)) j) o
      | None => o
      end
  | None => o
  end.

(** The shape a destination bone [bd] ends with after the source bones [bs]
    have been gone through in order. *)
Definition copied_shape (bs : list Bone.t) (bd : Bone.t) : Bone.t :=
  foldl (λ bd b, if decide (Bone.name b = Bone.name bd)
                 then Bone.set_custom_shape (Bone.custom_shape b) bd
                 else bd) bd bs.

(** A name the host stores as it is given when no other item has it: not
    empty, and of 63 bytes at most. *)
Definition valid_name (n : string) : Prop := n ≠ "" ∧ String.length n ≤ 63.

(** What the properties rely on in the host's naming: a valid name that no
    other item of the collection has is stored as it is given. *)
Definition keeps_free_names (host : Host) : Prop :=
  ∀ others n, valid_name n → n ∉ others → unique_name host others n = n.

#[global] Instance item_eq_dec : EqDecision ADH_RenameRegex.item.
Proof. solve_decision. Defined.

(** Two items of one collection: two objects, or two bones of one armature. *)
Definition same_collection (it it' : ADH_RenameRegex.item) : Prop :=
  match it, it' with
  | ADH_RenameRegex.object_item _, ADH_RenameRegex.object_item _ => True
  | ADH_RenameRegex.bone_item r, ADH_RenameRegex.bone_item r' => r.1 = r'.1
  | _, _ => False
  end.

(** The substitution does not raise on the names of the items to rename. *)
Definition substitution_succeeds (host : Host) (re : regex host) (w : World) : Prop :=
  ∀ items it old,
    ADH_RenameRegex.item_list w = Some (Some items) → it ∈ items →
    ADH_RenameRegex.item_name w it = Some old →
    is_Some (re_sub host re (adh_regex_replacement_string w) old).

(** The item is renamed to the result of the substitution on its old name. *)
Definition renamed (host : Host) (re : regex host) (w w' : World)
    (it : ADH_RenameRegex.item) : Prop :=
  ∃ old new,
    ADH_RenameRegex.item_name w it = Some old
    ∧ re_sub host re (adh_regex_replacement_string w) old = Some new
    ∧ ADH_RenameRegex.item_name w' it = Some new.

(** The hook of a bone, as the first loop of Create Hook Bones leaves it. *)
Definition hook_bone (hook_layers : list bool) (b : Bone.t) : Bone.t :=
  Bone.mk ("hook-" +:+ Bone.name b) (Bone.head b) (Bone.tail b) (Bone.roll b)
          (Bone.bbone_x b / 2)%float (Bone.bbone_z b / 2)%float hook_layers
          false None [].

(** The constraint the second loop gives the hook of bone [b] of armature [a]. *)
Definition hook_constraint (a : nat) (b : Bone.t) : Constraint.t :=
  Constraint.mk "COPY_TRANSFORMS" "LOCAL" "LOCAL" (Some a) (Bone.name b).

(** The finished hook: the new bone with that one constraint. *)
Definition constrained_hook (hook_layers : list bool) (a : nat) (b : Bone.t) : Bone.t :=
  Bone.upd_constraints (λ cs, cs ++ [hook_constraint a b]) (hook_bone hook_layers b).

(** No bone of the armature has the name a hook of a selected bone is to get. *)
Definition hook_names_free (bs : list Bone.t) : Prop :=
  ∀ b b', b ∈ bs → Bone.select b = true → b' ∈ bs →
          Bone.name b' ≠ "hook-" +:+ Bone.name b.

(** What Create Hook Bones is to do: it returns FINISHED with the mode of
    before, and for every selected bone of the active armature there is a new
    bone (one past the bones of before) that is its finished hook. *)
Definition creates_constrained_hooks (host : Host) (hook_layers : list bool)
    (w : World) : Prop :=
  let r := ADH_CreateHookBones.execute host hook_layers w in
  r.1 = Ok FINISHED
  ∧ mode r.2 = mode w
  ∧ ∀ a o b,
      active_object w = Some a → objects w !! a = Some o →
      b ∈ Object.bones o → Bone.select b = true →
      ∃ k, length (Object.bones o) ≤ k
           ∧ lookup_bone r.2 (a, k) = Some (constrained_hook hook_layers a b).

(** The new names are names the host stores as given: every new name is
    valid, and it is neither the name another item of the collection has nor
    the new name of another item to rename. *)
Definition new_names_free (host : Host) (re : regex host) (w : World) : Prop :=
  ∀ items it old new,
    ADH_RenameRegex.item_list w = Some (Some items) → it ∈ items →
    ADH_RenameRegex.item_name w it = Some old →
    re_sub host re (adh_regex_replacement_string w) old = Some new →
    valid_name new
    ∧ ∀ it' old', it' ≠ it → same_collection it it' →
        ADH_RenameRegex.item_name w it' = Some old' →
        old' ≠ new
        ∧ (it' ∈ items → ∀ new',
             re_sub host re (adh_regex_replacement_string w) old' = Some new' →
             new' ≠ new).

(** The scene in which the item [it] has the name [n]. *)
Definition with_item_name (it : ADH_RenameRegex.item) (n : string) (w : World) : World :=
  match it with
  | ADH_RenameRegex.object_item obj => upd_objects (alter (Object.set_name n) obj) w
  | ADH_RenameRegex.bone_item r =>
      upd_objects (alter (Object.upd_bones (alter (Bone.set_name n) r.2)) r.1) w
  end.

(** ** A host and a scene to run the operators on *)

(** Replacing a literal word: every occurrence of [pat] in [s], left to right
    and without overlap, becomes [repl].  [skip] counts the characters of a
    match that are still to be passed over. *)
Fixpoint replace_word (pat repl : string) (skip : nat) (s : string) : string :=
  match s with
  | EmptyString => EmptyString
  | String c rest =>
      match skip with
      | S k => replace_word pat repl k rest
      | 0 => if String.prefix pat s
             then repl +:+ replace_word pat repl (String.length pat - 1) rest
             else String c (replace_word pat repl 0 rest)
      end
  end.

Definition is_word_char (c : Ascii.ascii) : bool :=
  let n := Ascii.nat_of_ascii c in
  (48 <=? n) && (n <=? 57) || (65 <=? n) && (n <=? 90) || (97 <=? n) && (n <=? 122)
  || (n =? 95) || (n =? 45).

Definition is_word (s : string) : bool :=
  negb (String.eqb s "") && forallb is_word_char (String.list_ascii_of_string s).

(** Naming as the host does it on the names of the scenes below: an empty
    name becomes a default, a long one is cut to 63 bytes, and a name another
    item has gets the first number that makes it unique, counting from
    [.001].  (The host goes on from the number of a name that ends in one,
    cuts a long name further to make room for the number, and has one
    default per kind of item; the scenes have no such name.) *)
Definition digit (k : nat) : string := String (Ascii.ascii_of_nat (48 + k)) "".

Definition numbered (base : string) (k : nat) : string :=
  base +:+ "." +:+ digit (k / 100) +:+ digit (k / 10 mod 10) +:+ digit (k mod 10).

Fixpoint first_unused (others : list string) (base : string) (k tries : nat) : string :=
  match tries with
  | 0 => numbered base k
  | S tries => if bool_decide (numbered base k ∈ others)
               then first_unused others base (S k) tries
               else numbered base k
  end.

Definition example_unique_name (others : list string) (n : string) : string :=
  let n := if String.eqb n "" then "Untitled" else String.substring 0 63 n in
  if bool_decide (n ∈ others) then first_unused others n 1 998 else n.

(** The nearest binary32 number, which is what a mesh holds of a coordinate. *)
Definition to_binary32 (x : float) : float :=
  match Prim2SF x with
  | S754_finite s m e =>
      match binary_normalize 24 128 (cond_Zopp s (Zpos m)) e s with
      | S754_finite s' m' e' =>
          SF2Prim (binary_normalize 53 1024 (cond_Zopp s' (Zpos m')) e' s')
      | y => SF2Prim y
      end
  | _ => x
  end.

(** A mesh built from tables: coordinates in binary32, every edge with its
    smaller index first. *)
Definition example_from_pydata (vs : list vec3) (es : list (nat * nat))
    (fs : list (list nat)) (d : ObData.t) : ObData.t :=
  ObData.mk (ObData.name d)
    (ObData.vertices d
       ++ ((λ v : vec3, (to_binary32 v.1.1, to_binary32 v.1.2, to_binary32 v.2)) <$> vs))
    (ObData.edges d ++ ((λ e : nat * nat, (e.1 `min` e.2, e.1 `max` e.2)) <$> es))
    (ObData.faces d ++ fs) (ObData.key_blocks d).

(** A host whose regular expressions are the literal words (other patterns
    and replacements are refused), whose [obj_to_bone] moves the object onto
    the head of the bone, whose modifiers leave the geometry as it is, and
    which names items and builds meshes as above. *)
Definition example_host : Host :=
  mkHost string
    (λ pat, if is_word pat then Some pat else None)
    (λ pat repl s, if is_word repl || String.eqb repl "" then Some (replace_word pat repl 0 s)
                   else None)
    (λ w obj rig bone_name,
       o ← objects w !! obj;
       r ← objects w !! rig;
       j ← bone_index bone_name (Object.bones r);
       b ← Object.bones r !! j;
       Some (Object.mk (Object.name o) (Object.type o) (Object.select o)
               (Object.linked o) (Object.data o) (Object.modifiers o)
               (Object.vertex_groups o) (Object.bones o) (Object.show_wire o)
               (Object.layers o) (Object.active_shape_key_index o)
               (Bone.head b, (0, 0, 0), (1, 1, 1))%float))
    (λ w obj m, o ← objects w !! obj; d ← Object.data o; datablocks w !! d)
    example_unique_name example_from_pydata.

Definition example_bone (n : string) (select : bool) (x : float)
    (custom_shape : option nat) : Bone.t :=
  Bone.mk n (x, 0, 0)%float (x, 1, 0)%float 0.5%float 0.25%float 0.125%float
          (true :: replicate 31 false) select custom_shape [].

Definition example_armature (n : string) (select : bool) (data : nat)
    (bones : list Bone.t) : Object.t :=
  Object.mk n "ARMATURE" select true (Some data) [] [] bones false
            (true :: replicate 19 false) 0 ((0, 0, 0), (0, 0, 0), (1, 1, 1))%float.

Definition example_mesh (n : string) (select : bool) (data : nat)
    (modifiers : list Modifier.t) (vertex_groups : list string) : Object.t :=
  Object.mk n "MESH" select true (Some data) modifiers
            (VertexGroup.mk <$> vertex_groups) [] false
            (true :: replicate 19 false) 0 ((0, 0, 0), (0, 0, 0), (1, 1, 1))%float.

(** Two armatures and three meshes.  [rig] (object 0) is active, in pose
    mode, with its bones [arm] and [leg] selected and the active bone [tail]
    not; [tail] has the widget [wgt-tail] as its custom shape.  [body],
    [rig.copy] and [wgt-tail] are selected as well, [prop] is not. *)
Definition example_objects : list Object.t :=
  [ example_armature "rig" true 0
      [ example_bone "arm" true 0 None;
        example_bone "leg" true 1 None;
        example_bone "tail" false 2 (Some 4) ];
    example_mesh "body" true 1
      [ Modifier.mk "Armature" "ARMATURE" true true (Some 0);
        Modifier.mk "Lattice" "LATTICE" true true None;
        Modifier.mk "Subsurf" "SUBSURF" true true None ]
      [ "arm"; "leg"; "tail"; "spine" ];
    example_mesh "prop" false 2 [] [ "leg" ];
    example_armature "rig.copy" true 3
      [ example_bone "leg" false 1 (Some 2);
        example_bone "head" false 3 (Some 2) ];
    example_mesh "wgt-tail" true 4 [] [] ].

Definition example_datablocks : list ObData.t :=
  [ ObData.mk "rig" [] [] [] [];
    ObData.mk "body" [] [] [] [ "Basis"; "Key 1" ];
    ObData.mk "prop" [] [] [] [];
    ObData.mk "rig.copy" [] [] [] [];
    ObData.mk "wgt-tail" [] [] [] [] ].

Definition example_world : World :=
  mkWorld example_objects example_datablocks (Some 0) "POSE" (Some 0) (Some 2)
          "leg" "shin" false rigging_tools.

(** The same scene in object mode: no pose object. *)
Definition example_world_object_mode : World :=
  set_mode "OBJECT" None example_world.

(** The scene after Create Hook Bones has run once: [rig] has the hooks
    [hook-arm] and [hook-leg]. *)
Definition hooked_example_world : World :=
  (ADH_CreateHookBones.execute example_host ADH_CreateHookBones.default_hook_layers
     example_world).2.
(** ** Functions used to state further properties *)

(** Two worlds that differ in their objects at most. *)
Definition same_but_objects (w w' : World) : Prop :=
  upd_objects (λ _, objects w) w' = w.

(** Two worlds that differ in their data-blocks at most. *)
Definition same_but_datablocks (w w' : World) : Prop :=
  upd_datablocks (λ _, datablocks w) w' = w.

(** An object is skinned by [armature_obj]: one of its modifiers is an
    ARMATURE modifier whose object is [armature_obj]. *)
Definition skinned_by (armature_obj : option nat) (o : Object.t) : Prop :=
  ∃ m, m ∈ Object.modifiers o
       ∧ Modifier.type m = "ARMATURE" ∧ Modifier.object m = armature_obj.

(** The test Display Wire makes on an object: the list comprehension over its
    modifiers is not empty. *)
Definition has_armature_mod (armature_obj : option nat) (o : Object.t) : bool :=
  negb (bool_decide
          (ADH_DisplayWireForSkinnedObjects.armature_mod armature_obj o = [])).

(** The assignments Sync Object Data Name To Object makes, in order: for
    every selected object that has data, the data-block and the name it is
    given. *)
Definition data_renames (w : World) : list (nat * string) :=
  omap (λ obj, o ← objects w !! obj; d ← Object.data o; Some (d, Object.name o))
       (selected_objects w).

(** The example scene in object mode with the mesh of [body] named [Cube]. *)
Definition example_world_cube : World :=
  upd_datablocks (alter (ObData.set_name "Cube") 1) example_world_object_mode.

(** The names Sync Object Data Name To Object assigns are names the host
    stores as given: they are valid, no other data-block has one of them, and
    a name goes to one data-block only (as with objects of distinct names). *)
Definition data_names_free (w : World) : Prop :=
  ∀ d n, (d, n) ∈ data_renames w →
    valid_name n
    ∧ (∀ d' db', d' ≠ d → datablocks w !! d' = Some db' → ObData.name db' ≠ n)
    ∧ (∀ d', (d', n) ∈ data_renames w → d' = d).

(** An object at another placement. *)
Definition with_placement (p : vec3 * vec3 * vec3) (o : Object.t) : Object.t :=
  Object.mk (Object.name o) (Object.type o) (Object.select o) (Object.linked o)
            (Object.data o) (Object.modifiers o) (Object.vertex_groups o)
            (Object.bones o) (Object.show_wire o) (Object.layers o)
            (Object.active_shape_key_index o) p.

(** What the add-on relies on in [rigify.utils.obj_to_bone]: it moves the
    object it is given and does nothing else to it. *)
Definition obj_to_bone_moves_only (host : Host) : Prop :=
  ∀ w obj rig bone_name o o',
    obj_to_bone host w obj rig bone_name = Some o' → objects w !! obj = Some o →
    o' = with_placement (Object.placement o') o.

(** The object is the custom shape of a selected pose bone. *)
Definition shape_of_selected_bone (w : World) (obj : nat) : Prop :=
  ∃ bones bone b,
    selected_pose_bones w = Some bones ∧ bone ∈ bones
    ∧ lookup_bone w bone = Some b ∧ Bone.custom_shape b = Some obj.

(** What Sync Custom Shape Position to Bone keeps of the world [w] it
    started in: objects are moved, and those only that are custom shapes of
    selected pose bones. *)
Definition moved_only (w w' : World) : Prop :=
  same_but_objects w w'
  ∧ length (objects w') = length (objects w)
  ∧ ∀ obj o, objects w !! obj = Some o →
      (∃ p, objects w' !! obj = Some (with_placement p o))
      ∧ (¬ shape_of_selected_bone w obj → objects w' !! obj = Some o).

(** A scene in pose mode in which the selected bone [arm] has the object
    [wgt-arm] as its custom shape. *)
Definition example_world_with_shape : World :=
  mkWorld
    [ example_armature "rig" true 0
        [ example_bone "arm" true 0 (Some 2); example_bone "leg" false 1 None ];
      example_mesh "body" true 1 [] [];
      example_mesh "wgt-arm" false 2 [] [] ]
    example_datablocks (Some 0) "POSE" (Some 0) (Some 0) "" "" false rigging_tools.

(** The scene once the shape keys behind data-block [d] of the active object
    [a] are gone: the last key removed was the first of the list. *)
Definition without_shape_keys (a d : nat) (w : World) : World :=
  upd_datablocks (alter (ObData.upd_key_blocks (λ _, [])) d)
    (upd_objects (alter (Object.set_active_shape_key_index 0) a) w).

(** The scene when Apply Lattices reaches its second loop. *)
Definition after_keys (a d : nat) (mesh : ObData.t) (w : World) : World :=
  if bool_decide (ObData.key_blocks mesh = []) then w else without_shape_keys a d w.

(** The host applies whatever modifier of object [a] it is asked to. *)
Definition applies_modifiers_of (host : Host) (a : nat) : Prop :=
  ∀ w m, is_Some (apply_modifier host w a m).

(** The host applies no modifier of object [a]. *)
Definition refuses_modifiers_of (host : Host) (a : nat) : Prop :=
  ∀ w m, apply_modifier host w a m = None.

(** A host that applies every modifier and leaves the geometry as it is,
    and one that applies none. *)
Definition willing_host : Host :=
  mkHost (regex example_host) (re_compile example_host) (re_sub example_host)
         (obj_to_bone example_host)
         (λ w obj m, Some (default (ObData.new "")
                             (o ← objects w !! obj; d ← Object.data o; datablocks w !! d)))
         (unique_name example_host) (from_pydata example_host).

Definition refusing_host : Host :=
  mkHost (regex example_host) (re_compile example_host) (re_sub example_host)
         (obj_to_bone example_host) (λ _ _ _, None)
         (unique_name example_host) (from_pydata example_host).

(** The example scene in object mode with the mesh [body] active: a LATTICE
    modifier between two others, and two shape keys. *)
Definition example_world_body_active : World :=
  mkWorld example_objects example_datablocks (Some 1) "OBJECT" None None
          "leg" "shin" false rigging_tools.

(** A mesh with shape keys and no LATTICE modifier. *)
Definition example_world_face : World :=
  mkWorld [ example_mesh "face" true 0
              [ Modifier.mk "Subsurf" "SUBSURF" true true None ] [] ]
          [ ObData.mk "face" [] [] [] [ "Basis"; "Smile"; "Frown" ] ]
          (Some 0) "OBJECT" None None "" "" false rigging_tools.

(** The name Create Custom Shape gives the widget of bone [b]. *)
Definition widget_name (self : ADH_CreateCustomShape.props) (b : Bone.t) : string :=
  ADH_CreateCustomShape.widget_prefix self +:+ Bone.name b.

(** No object and no data-block has the name yet: the host then lets the new
    mesh and the new object have the name they are created with, when the
    name is valid. *)
Definition name_unused (name : string) (w : World) : Prop :=
  (name ∉ Object.name <$> objects w) ∧ (name ∉ ObData.name <$> datablocks w).

(** The new object as [create_widget] has it when it calls [obj_to_bone]:
    made for the new mesh and linked to the scene. *)
Definition linked_widget (name : string) (mesh : nat) : Object.t :=
  Object.set_linked true (Object.new name mesh).

(** The scene in which [create_widget] calls [obj_to_bone]: the new mesh and
    the new object are the last data-block and the last object. *)
Definition with_new_widget (name : string) (w : World) : World :=
  upd_objects (λ os, os ++ [linked_widget name (length (datablocks w))])
    (upd_datablocks (λ ds, ds ++ [ObData.new name]) w).

(** The finished widget: at the placement [obj_to_bone] gave it, on the
    operator's layers. *)
Definition widget_object (self : ADH_CreateCustomShape.props) (name : string)
    (mesh : nat) (p : vec3 * vec3 * vec3) : Object.t :=
  Object.set_layers (ADH_CreateCustomShape.widget_layers self)
    (with_placement p (linked_widget name mesh)).

(** Its mesh: what the host makes of the table of the chosen shape at the
    operator's size and position, given to [from_pydata] on the new, empty
    mesh. *)
Definition widget_mesh (host : Host) (self : ADH_CreateCustomShape.props)
    (name : string) : ObData.t :=
  let size := ADH_CreateCustomShape.widget_size self in
  let pos := ADH_CreateCustomShape.widget_pos self in
  match ADH_CreateCustomShape.widget_shape self with
  | ADH_CreateCustomShape.sphere =>
      from_pydata host (ADH_CreateCustomShape.sphere_verts size pos)
        ADH_CreateCustomShape.sphere_edges ADH_CreateCustomShape.sphere_faces
        (ObData.new name)
  | ADH_CreateCustomShape.ring =>
      from_pydata host (ADH_CreateCustomShape.ring_verts size pos)
        ADH_CreateCustomShape.ring_edges ADH_CreateCustomShape.ring_faces
        (ObData.new name)
  | ADH_CreateCustomShape.box =>
      from_pydata host (ADH_CreateCustomShape.box_verts size pos)
        ADH_CreateCustomShape.box_edges ADH_CreateCustomShape.box_faces
        (ObData.new name)
  end.

(** The scene after Create Custom Shape has made a widget for the bone
    [active]. *)
Definition with_widget (host : Host) (self : ADH_CreateCustomShape.props)
    (name : string) (p : vec3 * vec3 * vec3) (active : bone_ref) (w : World) : World :=
  upd_objects
    (λ os, alter (Object.upd_bones
                    (alter (Bone.set_custom_shape (Some (length (objects w)))) active.2))
                 active.1 os
           ++ [widget_object self name (length (datablocks w)) p])
    (upd_datablocks (λ ds, ds ++ [widget_mesh host self name]) w).

(** Create Custom Shape with a prefix that is free in the example scene. *)
Definition example_box_props : ADH_CreateCustomShape.props :=
  ADH_CreateCustomShape.mk ADH_CreateCustomShape.box 2%float 0.5%float "box-"
    (ADH_CreateCustomShape.widget_layers
       (ADH_CreateCustomShape.defaults ADH_CreateCustomShape.box)).

(** A host whose [obj_to_bone] raises. *)
Definition unplacing_host : Host :=
  mkHost (regex example_host) (re_compile example_host) (re_sub example_host)
         (λ _ _ _ _, None) (apply_modifier example_host)
         (unique_name example_host) (from_pydata example_host).

(** ** Meshes as [from_pydata] takes them *)

(** The sides of a face: every vertex with the one that follows it, the
    last with the first. *)
Definition face_sides (f : list nat) : list (nat * nat) := zip f (rotate 1 f).

(** An edge whichever way round it is written. *)
Definition unordered (e : nat * nat) : nat * nat := (e.1 `min` e.2, e.1 `max` e.2).

(** The faces that have the edge [e] as a side. *)
Definition faces_at (e : nat * nat) (faces : list (list nat)) : list (list nat) :=
  filter (λ f, unordered e ∈ unordered <$> face_sides f) faces.

(** Edges and faces over the vertices [0 .. n-1] that fit together: every
    index is that of a vertex, an edge joins two different vertices and is
    listed once, a face goes through different vertices, and every side of a
    face is a listed edge. *)
Definition well_formed_mesh (n : nat) (edges : list (nat * nat))
    (faces : list (list nat)) : Prop :=
  Forall (λ e, e.1 < n ∧ e.2 < n ∧ e.1 ≠ e.2) edges
  ∧ NoDup (unordered <$> edges)
  ∧ Forall (λ f, Forall (λ v, v < n) f ∧ NoDup f
                 ∧ Forall (λ s, unordered s ∈ unordered <$> edges) (face_sides f))
           faces.

(** A surface without border: every edge is a side of exactly two faces. *)
Definition closed_surface (edges : list (nat * nat)) (faces : list (list nat)) : Prop :=
  Forall (λ e, length (faces_at e faces) = 2) edges.

(** A scene in pose mode in which no bone is selected. *)
Definition example_world_no_bone_selected : World :=
  mkWorld
    [ example_armature "rig" true 0 [ example_bone "arm" false 0 None ];
      example_mesh "body" true 1 [] [ "arm"; "leg" ] ]
    example_datablocks (Some 0) "POSE" (Some 0) (Some 0) "" "" false rigging_tools.

(** * Properties *)

(** ** Lists of indices *)

Lemma elem_of_indices_from {A} (P : A → bool) (l : list A) (k i : nat) :
  i ∈ indices_from P k l ↔ k ≤ i ∧ ∃ x, l !! (i - k) = Some x ∧ P x = true.
Proof.
  revert k. induction l as [|y l IH]; intros k; simpl.
  - split; [by intros ?%elem_of_nil | by intros (_ & x & ? & _)].
  - assert (i ∈ indices_from P (S k) l ↔
            S k ≤ i ∧ ∃ x, (y :: l) !! (i - k) = Some x ∧ P x = true) as IH'.
    { rewrite IH. split; intros (Hle & x & Hx & HP); (split; [lia|]); exists x;
        split; try done.
      - replace (i - k) with (S (i - S k)) by lia. done.
      - replace (i - k) with (S (i - S k)) in Hx by lia. done. }
    destruct (P y) eqn:Hy.
    + rewrite elem_of_cons, IH'. split.
      * intros [-> | (Hle & x & Hx & HP)].
        -- split; [lia|]. exists y. by rewrite Nat.sub_diag.
        -- split; [lia|]. by exists x.
      * intros (Hle & x & Hx & HP).
        destruct (decide (i = k)) as [->|Hne]; [by left|right].
        split; [lia|]. by exists x.
    + rewrite IH'. split.
      * intros (Hle & x & Hx & HP). split; [lia|]. by exists x.
      * intros (Hle & x & Hx & HP).
        destruct (decide (i = k)) as [->|Hne].
        -- rewrite Nat.sub_diag in Hx. simpl in Hx. congruence.
        -- split; [lia|]. by exists x.
Qed.

Lemma elem_of_indices_where {A} (P : A → bool) (l : list A) (i : nat) :
  i ∈ indices_where P l ↔ ∃ x, l !! i = Some x ∧ P x = true.
Proof.
  unfold indices_where. rewrite elem_of_indices_from, Nat.sub_0_r.
  split; [by intros [_ ?] | intros ?; split; [lia | done]].
Qed.

Lemma NoDup_indices_from {A} (P : A → bool) (l : list A) (k : nat) :
  NoDup (indices_from P k l).
Proof.
  revert k. induction l as [|y l IH]; intros k; simpl; [constructor|].
  destruct (P y); [|done].
  constructor; [|done].
  rewrite elem_of_indices_from. lia.
Qed.

Lemma NoDup_indices_where {A} (P : A → bool) (l : list A) :
  NoDup (indices_where P l).
Proof. apply NoDup_indices_from. Qed.

Lemma indices_from_fmap {A B} (f : A → B) (P : B → bool) (l : list A) (k : nat) :
  indices_from P k (f <$> l) = indices_from (P ∘ f) k l.
Proof.
  revert k. induction l as [|y l IH]; intros k; simpl; [done|].
  by rewrite IH.
Qed.

Lemma indices_from_app {A} (P : A → bool) (l1 l2 : list A) (k : nat) :
  indices_from P k (l1 ++ l2) = indices_from P k l1 ++ indices_from P (k + length l1) l2.
Proof.
  revert k. induction l1 as [|y l1 IH]; intros k; simpl.
  - by rewrite Nat.add_0_r.
  - rewrite IH. replace (S k + length l1) with (k + S (length l1)) by lia.
    by destruct (P y).
Qed.

Lemma indices_from_none {A} (P : A → bool) (l : list A) (k : nat) :
  (∀ x, x ∈ l → P x = false) → indices_from P k l = [].
Proof.
  revert k. induction l as [|y l IH]; intros k Hl; simpl; [done|].
  rewrite (Hl y) by by left. apply IH. intros x Hx. apply Hl. by right.
Qed.

Lemma indices_where_ext {A} (P Q : A → bool) (l : list A) :
  (∀ x, x ∈ l → P x = Q x) → indices_where P l = indices_where Q l.
Proof.
  unfold indices_where. generalize 0.
  induction l as [|y l IH]; intros k Hl; simpl; [done|].
  rewrite (Hl y) by by left. rewrite IH; [done|].
  intros x Hx. apply Hl. by right.
Qed.

(** Altering along a list of distinct indices touches each listed index once. *)
Lemma lookup_foldl_alter {A} (f : nat → A → A) (xs : list nat) (l : list A) (j : nat) :
  NoDup xs →
  foldl (λ l i, alter (f i) i l) l xs !! j =
    if decide (j ∈ xs) then f j <$> l !! j else l !! j.
Proof.
  revert l. induction xs as [|x xs IH]; intros l Hnd.
  - destruct (decide (j ∈ [])) as [Hj|Hj]; [by apply elem_of_nil in Hj | done].
  - apply NoDup_cons in Hnd as [Hx Hnd].
    change (foldl (λ l i, alter (f i) i l) (alter (f x) x l) xs !! j =
            if decide (j ∈ x :: xs) then f j <$> l !! j else l !! j).
    rewrite IH by done.
    destruct (decide (j ∈ xs)) as [Hj|Hj];
      destruct (decide (j ∈ x :: xs)) as [Hj'|Hj'].
    + rewrite list_lookup_alter_ne; [done|]. by intros ->.
    + destruct Hj'. by right.
    + apply elem_of_cons in Hj' as [->|?]; [|done].
      rewrite list_lookup_alter. by destruct (decide (x = x)).
    + rewrite list_lookup_alter_ne; [done|]. intros ->. destruct Hj'. by left.
Qed.

Lemma length_foldl_alter {A} (f : nat → A → A) (xs : list nat) (l : list A) :
  length (foldl (λ l i, alter (f i) i l) l xs) = length l.
Proof.
  revert l. induction xs as [|x xs IH]; intros l; simpl; [done|].
  by rewrite IH, length_alter.
Qed.

(** Altering at every index that satisfies [P] is a map. *)
Lemma foldl_alter_indices_where {A} (P : A → bool) (h : A → A) (l : list A) :
  foldl (λ l i, alter h i l) l (indices_where P l) =
    (λ x, if P x then h x else x) <$> l.
Proof.
  apply list_eq. intros j.
  rewrite (lookup_foldl_alter (λ _, h)) by apply NoDup_indices_where.
  rewrite list_lookup_fmap.
  destruct (decide (j ∈ indices_where P l)) as [Hin|Hin].
  - apply elem_of_indices_where in Hin as (x & -> & HP). simpl. by rewrite HP.
  - destruct (l !! j) as [x|] eqn:Hj; [|done]. simpl.
    destruct (P x) eqn:HP; [|done].
    destruct Hin. apply elem_of_indices_where. by exists x.
Qed.

(** ** Loops *)

(** Unfolds the monad and the reference accessors down to matches on the
    values read, which the hypotheses then decide. *)
(** Running a computation one step. *)
Lemma bind_get {B} (k : World → M B) (w : World) : bind get k w = k w w.
Proof. done. Qed.

Lemma bind_ok {A B} (m : M A) (k : A → M B) (a : A) (w w' : World) :
  m w = (Ok a, w') → bind m k w = k a w'.
Proof. intros Hm. unfold bind. by rewrite Hm. Qed.

Lemma bind_raise {A B} (m : M A) (k : A → M B) (e : exn) (w w' : World) :
  m w = (Raise e, w') → bind m k w = (Raise e, w').
Proof. intros Hm. unfold bind. by rewrite Hm. Qed.

Lemma bind_of_option {A B} (e : exn) (o : option A) (a : A) (k : A → M B)
    (w : World) :
  o = Some a → bind (of_option e o) k w = k a w.
Proof. by intros ->. Qed.

Lemma bind_modify {B} (f : World → World) (k : unit → M B) (w : World) :
  bind (modify f) k w = k tt (f w).
Proof. done. Qed.

Lemma bind_ret {A B} (a : A) (k : A → M B) (w : World) : bind (ret a) k w = k a w.
Proof. done. Qed.

Ltac mred := cbn beta iota delta [fst snd].

Ltac munfold :=
  unfold pose_bone_by_name, modifiers_new, edit_bones_new, constraints_new,
    update_constraint, update_modifier, update_bone, update_object, update_datablock,
    the_bone, the_object, context_active_object, iterable, of_option,
    bind, ret, raise, get, modify;
  mred.

Ltac mrewrite H := rewrite H; mred.

(** A loop whose body, wherever an invariant holds, is an update of the
    world that keeps the invariant, is the updates in sequence. *)
Lemma for_each_modify {X} (I : World → Prop) (g : X → World → World)
    (xs : list X) (body : X → M unit) (w : World) :
  (∀ x w, x ∈ xs → I w → body x w = (Ok tt, g x w) ∧ I (g x w)) →
  I w →
  for_each xs body w = (Ok tt, foldl (λ w x, g x w) w xs)
  ∧ I (foldl (λ w x, g x w) w xs).
Proof.
  revert w. induction xs as [|x xs IH]; intros w Hbody Hw; simpl; [done|].
  destruct (Hbody x w) as [Hx HI]; [by left | done |].
  unfold bind. rewrite Hx. apply IH; [|done].
  intros y w' Hy. apply Hbody. by right.
Qed.

Lemma foldl_upd_objects {X} (h : X → list Object.t → list Object.t) (xs : list X)
    (w : World) :
  foldl (λ w x, upd_objects (h x) w) w xs =
    upd_objects (λ os, foldl (λ os x, h x os) os xs) w.
Proof.
  revert w. induction xs as [|x xs IH]; intros w; simpl.
  - by destruct w.
  - by rewrite IH.
Qed.

(** The loop over object references whose body rewrites the object it is
    given. *)
Lemma for_each_alter_objects (f : nat → Object.t → Object.t) (xs : list nat)
    (body : nat → M unit) (w : World) :
  (∀ i w o, i ∈ xs → objects w !! i = Some o →
            body i w = (Ok tt, upd_objects (alter (f i) i) w)) →
  (∀ i, i ∈ xs → i < length (objects w)) →
  for_each xs body w =
    (Ok tt, upd_objects (λ os, foldl (λ os i, alter (f i) i os) os xs) w).
Proof.
  intros Hbody Hlen.
  destruct (for_each_modify
              (λ w', length (objects w') = length (objects w))
              (λ i, upd_objects (alter (f i) i)) xs body w) as [Heq _].
  - intros i w' Hi Hw'. split.
    + destruct (lookup_lt_is_Some_2 (objects w') i) as [o Ho].
      { rewrite Hw'. by apply Hlen. }
      by eapply Hbody.
    + simpl. by rewrite length_alter.
  - done.
  - by rewrite Heq, foldl_upd_objects.
Qed.

(** Filtering references by a property of the item they refer to. *)
Lemma filter_indices_from {A} (P Q : A → bool) (R : nat → Prop)
    `{∀ i, Decision (R i)} (l : list A) (k : nat) :
  (∀ i x, l !! i = Some x → R (k + i) ↔ Q x = true) →
  filter R (indices_from P k l) = indices_from (λ x, P x && Q x) k l.
Proof.
  revert k. induction l as [|y l IH]; intros k HR; simpl; [done|].
  assert (filter R (indices_from P (S k) l) = indices_from (λ x, P x && Q x) (S k) l)
    as IH'.
  { apply IH. intros i x Hx. rewrite <- (HR (S i) x Hx). by rewrite Nat.add_succ_r. }
  specialize (HR 0 y eq_refl). rewrite Nat.add_0_r in HR.
  destruct (P y); simpl; [|done].
  rewrite filter_cons. destruct (decide (R k)) as [Hk|Hk].
  - apply HR in Hk as ->. by rewrite IH'.
  - destruct (Q y); [by destruct Hk; apply HR|]. done.
Qed.

Lemma filter_is_type (P : Object.t → bool) (ty : string) (w : World) :
  filter (λ obj, is_type ty w obj = true) (indices_where P (objects w)) =
    indices_where (λ o, P o && String.eqb (Object.type o) ty) (objects w).
Proof.
  apply filter_indices_from. intros i x Hx. unfold is_type. simpl. by rewrite Hx.
Qed.

Lemma upd_bones_id (f : list Bone.t → list Bone.t) (o : Object.t) :
  f (Object.bones o) = Object.bones o → Object.upd_bones f o = o.
Proof. intros Hf. destruct o. unfold Object.upd_bones. simpl in *. by rewrite Hf. Qed.

Lemma upd_objects_id (f : list Object.t → list Object.t) (w : World) :
  f (objects w) = objects w → upd_objects f w = w.
Proof. intros Hf. destruct w. unfold upd_objects. simpl in *. by rewrite Hf. Qed.

(** The loop over bone references of one armature whose body rewrites the
    bone it is given. *)
Lemma for_each_alter_bones (a : nat) (f : nat → Bone.t → Bone.t) (js : list nat)
    (w : World) :
  for_each (pair a <$> js) (λ bone, update_bone bone (f bone.2)) w =
    (Ok tt,
     upd_objects (alter (Object.upd_bones
                           (λ bs, foldl (λ bs j, alter (f j) j bs) bs js)) a) w).
Proof.
  revert w. induction js as [|j js IH]; intros w; simpl.
  - unfold ret. f_equal. symmetry. apply upd_objects_id.
    apply list_alter_id. intros o. by apply upd_bones_id.
  - unfold bind, update_bone, update_object, modify. rewrite IH.
    f_equal. unfold upd_objects. simpl. f_equal.
    rewrite list_alter_alter_eq. apply list_alter_ext; [|done].
    intros o _. by destruct o.
Qed.

(** Reading a bone of an armature whose bones were rewritten. *)
Lemma lookup_bone_upd_bones (f : list Bone.t → list Bone.t) (a : nat) (w : World)
    (r : bone_ref) :
  lookup_bone (upd_objects (alter (Object.upd_bones f) a) w) r =
    if decide (r.1 = a)
    then o ← objects w !! a; bs ← pose_bones o; f bs !! r.2
    else lookup_bone w r.
Proof.
  unfold lookup_bone. simpl. destruct (decide (r.1 = a)) as [<-|Hne].
  - rewrite list_lookup_alter, decide_True by done.
    destruct (objects w !! r.1) as [o|]; [|done]. simpl.
    unfold pose_bones. simpl. by destruct (String.eqb _ _).
  - by rewrite list_lookup_alter_ne.
Qed.

(** ** Names *)

Lemma elem_of_fmap_delete {A} (f : A → string) (i : nat) (l : list A) (x : string) :
  x ∈ f <$> delete i l → ∃ j y, j ≠ i ∧ l !! j = Some y ∧ f y = x.
Proof.
  intros (y & -> & Hy)%list_elem_of_fmap. apply list_elem_of_lookup in Hy as [k Hk].
  rewrite list_lookup_delete in Hk. destruct (decide (k < i)).
  - exists k, y. split; [lia|done].
  - exists (S k), y. split; [lia|done].
Qed.

(** A name that no other item of the list has is stored as given. *)
Lemma unique_name_free {A} (host : Host) (f : A → string) (i : nat) (l : list A)
    (n : string) :
  keeps_free_names host → valid_name n →
  (∀ j y, j ≠ i → l !! j = Some y → f y ≠ n) →
  unique_name host (f <$> delete i l) n = n.
Proof.
  intros Hhost Hvalid Hfree. apply Hhost; [done|].
  intros (j & y & Hj & Hy & Hn)%elem_of_fmap_delete. by eapply Hfree.
Qed.

(** A name that no item of the list has is stored as given to a new item. *)
Lemma unique_name_new {A} (host : Host) (f : A → string) (l : list A) (n : string) :
  keeps_free_names host → valid_name n → n ∉ f <$> l →
  unique_name host (f <$> l) n = n.
Proof. intros Hhost Hvalid Hfree. by apply Hhost. Qed.

Lemma substring_short (s : string) (m : nat) :
  String.length s ≤ m → String.substring 0 m s = s.
Proof.
  revert m. induction s as [|c s IH]; intros m Hm; [by destruct m|].
  destruct m as [|m]; simpl in *; [lia|]. rewrite IH; [done|lia].
Qed.

Lemma example_host_keeps_free_names : keeps_free_names example_host.
Proof.
  intros others n [Hne Hlen] Hfree. simpl. unfold example_unique_name.
  destruct (String.eqb n "") eqn:He; [by apply String.eqb_eq in He|].
  rewrite substring_short by done. by rewrite bool_decide_eq_false_2.
Qed.

Lemma foldl_alter_at {A X} (i : nat) (F : X → A → A) (xs : list X) (l : list A) :
  foldl (λ l x, alter (F x) i l) l xs = alter (λ a, foldl (λ a x, F x a) a xs) i l.
Proof.
  revert l. induction xs as [|x xs IH]; intros l; simpl.
  - symmetry. apply list_alter_id. done.
  - rewrite IH. apply list_alter_alter_eq.
Qed.

Lemma upd_objects_alter_ext (f g : Object.t → Object.t) (i : nat) (o : Object.t)
    (w : World) :
  objects w !! i = Some o → f o = g o →
  upd_objects (alter f i) w = upd_objects (alter g i) w.
Proof.
  intros Ho Hfg. unfold upd_objects. f_equal.
  apply list_alter_ext; [|done..]. intros x Hx. congruence.
Qed.

Lemma foldl_upd_modifiers {X} (h : X → list Modifier.t → list Modifier.t)
    (xs : list X) (o : Object.t) :
  foldl (λ o x, Object.upd_modifiers (h x) o) o xs =
    Object.upd_modifiers (λ ms, foldl (λ ms x, h x ms) ms xs) o.
Proof.
  revert o. induction xs as [|x xs IH]; intros o; simpl.
  - by destruct o.
  - by rewrite IH.
Qed.

(** ** Add Subdivision Surface Modifier *)

Lemma add_subsurf_body (show_viewport : bool) (obj : nat) (o : Object.t) (w : World) :
  objects w !! obj = Some o →
  (let* o := the_object obj in
   let sml := indices_where (λ m, String.eqb (Modifier.type m) "SUBSURF")
                            (Object.modifiers o) in
   if bool_decide (sml = []) then
     let* sm := modifiers_new obj "Subsurf" "SUBSURF" in
     update_modifier obj sm (Modifier.set_show_viewport show_viewport) >>
     update_modifier obj sm (Modifier.set_show_expanded false)
   else
     for_each sml (λ sm,
       update_modifier obj sm (Modifier.set_show_viewport show_viewport) >>
       update_modifier obj sm (Modifier.set_show_expanded false))) w
  = (Ok tt, upd_objects (alter (with_subsurf show_viewport) obj) w).
Proof.
  intros Ho. unfold bind at 1, the_object, bind at 1, get, of_option.
  rewrite Ho. unfold ret at 1.
  fold is_subsurf.
  destruct (bool_decide (indices_where is_subsurf (Object.modifiers o) = [])) eqn:Hsml.
  - unfold modifiers_new, the_object, update_modifier, update_object, bind, get,
      of_option, modify, ret. rewrite Ho. cbn.
    unfold upd_objects at 1. cbn. unfold upd_objects. f_equal. f_equal.
    rewrite !list_alter_alter_eq.
    apply list_alter_ext; [|done..]. intros x Hx.
    assert (x = o) as -> by congruence. cbn.
    unfold with_subsurf. rewrite Hsml. unfold Object.upd_modifiers. cbn. f_equal.
    rewrite list_alter_alter_eq.
    replace (length (Object.modifiers o)) with (length (Object.modifiers o) + 0) by lia.
    by rewrite alter_app_r.
  - destruct (for_each_modify (λ _, True)
      (λ sm, upd_objects (alter (Object.upd_modifiers
                                   (alter (subsurf_settings show_viewport) sm)) obj))
      (indices_where is_subsurf (Object.modifiers o))
      (λ sm, update_modifier obj sm (Modifier.set_show_viewport show_viewport) >>
             update_modifier obj sm (Modifier.set_show_expanded false)) w) as [-> _];
      [|done|].
    { intros sm w' _ _. split; [|done].
      unfold update_modifier, update_object, bind, modify. cbn.
      unfold upd_objects. cbn. f_equal. f_equal.
      rewrite list_alter_alter_eq. apply list_alter_ext; [|done..].
      intros x _. unfold Object.upd_modifiers. cbn. f_equal.
      by rewrite list_alter_alter_eq. }
    f_equal. rewrite foldl_upd_objects.
    unfold upd_objects. f_equal.
    rewrite (foldl_alter_at obj
               (λ sm, Object.upd_modifiers (alter (subsurf_settings show_viewport) sm))).
    apply list_alter_ext; [|done..]. intros x Hx.
    assert (x = o) as -> by congruence.
    rewrite (foldl_upd_modifiers (λ sm, alter (subsurf_settings show_viewport) sm)).
    unfold with_subsurf. rewrite Hsml. unfold Object.upd_modifiers. f_equal.
    apply foldl_alter_indices_where.
Qed.

Lemma selected_meshes_indices (w : World) :
  selected_meshes w = indices_where is_selected_mesh (objects w).
Proof. apply filter_is_type. Qed.

Lemma selected_meshes_valid (w : World) (i : nat) :
  i ∈ selected_meshes w → i < length (objects w).
Proof.
  rewrite selected_meshes_indices.
  intros (o & Ho & _)%elem_of_indices_where. by eapply lookup_lt_Some.
Qed.

(** The operator rewrites every selected mesh object with [with_subsurf] and
    leaves everything else as it was. *)
Lemma add_subsurf_execute (show_viewport : bool) (w : World) :
  ADH_AddSubdivisionSurfaceModifier.execute show_viewport w =
    (Ok FINISHED,
     upd_objects (fmap (λ o, if is_selected_mesh o then with_subsurf show_viewport o
                             else o)) w).
Proof.
  unfold ADH_AddSubdivisionSurfaceModifier.execute.
  unfold bind at 1, get. fold (selected_meshes w). unfold bind at 1.
  rewrite (for_each_alter_objects (λ _, with_subsurf show_viewport)).
  - unfold ret. f_equal. unfold upd_objects. f_equal.
    rewrite selected_meshes_indices. apply foldl_alter_indices_where.
  - intros i w' o _ Ho. by apply (add_subsurf_body _ _ o).
  - apply selected_meshes_valid.
Qed.

Lemma with_subsurf_select sv o : Object.select (with_subsurf sv o) = Object.select o.
Proof. unfold with_subsurf. by destruct (bool_decide _). Qed.

Lemma with_subsurf_type sv o : Object.type (with_subsurf sv o) = Object.type o.
Proof. unfold with_subsurf. by destruct (bool_decide _). Qed.

Lemma subsurf_settings_is_subsurf sv m :
  is_subsurf (subsurf_settings sv m) = is_subsurf m.
Proof. done. Qed.

(** After [with_subsurf] there is a SUBSURF modifier, and every one carries
    the settings. *)
Lemma with_subsurf_modifiers sv o :
  (∃ m, m ∈ Object.modifiers (with_subsurf sv o) ∧ Modifier.type m = "SUBSURF")
  ∧ ∀ m, m ∈ Object.modifiers (with_subsurf sv o) → Modifier.type m = "SUBSURF" →
         Modifier.show_viewport m = sv ∧ Modifier.show_expanded m = false.
Proof.
  unfold with_subsurf.
  destruct (bool_decide (indices_where is_subsurf (Object.modifiers o) = [])) eqn:Hsml.
  - apply bool_decide_eq_true in Hsml. simpl. split.
    + eexists. split; [apply elem_of_app; right; by left | done].
    + intros m [Hm | ->%list_elem_of_singleton]%elem_of_app Hty; [|done].
      apply list_elem_of_lookup in Hm as [j Hj].
      assert (j ∈ indices_where is_subsurf (Object.modifiers o)) as Hin.
      { apply elem_of_indices_where. exists m. split; [done|].
        unfold is_subsurf. by rewrite Hty. }
      rewrite Hsml in Hin. by apply elem_of_nil in Hin.
  - apply bool_decide_eq_false in Hsml. simpl. split.
    + destruct (indices_where is_subsurf (Object.modifiers o)) as [|j js] eqn:Hjs;
        [done|].
      assert (j ∈ indices_where is_subsurf (Object.modifiers o)) as Hin
        by (rewrite Hjs; by left).
      apply elem_of_indices_where in Hin as (m & Hm & Hsub).
      exists (subsurf_settings sv m). split.
      * apply list_elem_of_fmap. exists m. rewrite Hsub. split; [done|].
        by eapply list_elem_of_lookup_2.
      * unfold is_subsurf in Hsub. by apply String.eqb_eq in Hsub.
    + intros m (m0 & -> & Hm0)%list_elem_of_fmap Hty.
      destruct (is_subsurf m0) eqn:Hsub; [done|].
      unfold is_subsurf in Hsub. rewrite Hty in Hsub. done.
Qed.

Lemma with_subsurf_idemp sv o :
  with_subsurf sv (with_subsurf sv o) = with_subsurf sv o.
Proof.
  destruct (with_subsurf_modifiers sv o) as [(m & Hm & Hty) Hall].
  unfold with_subsurf at 1.
  rewrite bool_decide_eq_false_2.
  - destruct (with_subsurf sv o) as [n ty s lk d ms vgs bs sw ls ak pl] eqn:Ho'.
    unfold Object.upd_modifiers. simpl in *. f_equal.
    rewrite <- (list_fmap_id ms) at 2. apply list_fmap_ext.
    intros j x Hx. simpl. destruct (is_subsurf x) eqn:Hsub; [|done].
    destruct (Hall x) as [Hv He].
    { by eapply list_elem_of_lookup_2. }
    { unfold is_subsurf in Hsub. by apply String.eqb_eq in Hsub. }
    destruct x. simpl in *. by subst.
  - apply list_elem_of_lookup in Hm as [j Hj]. intros Hnil.
    assert (j ∈ indices_where is_subsurf (Object.modifiers (with_subsurf sv o))) as Hin.
    { apply elem_of_indices_where. exists m. split; [done|].
      unfold is_subsurf. by rewrite Hty. }
    rewrite Hnil in Hin. by apply elem_of_nil in Hin.
Qed.

(** C4.  After Add Subdivision Surface Modifier has run, every selected mesh
    object has at least one SUBSURF modifier, every SUBSURF modifier on it has
    [show_viewport] equal to the operator's property and [show_expanded]
    false, and the operator returns FINISHED; run again with the same
    property value it changes nothing at all, so it adds no modifier and
    leaves the stacks as they are. *)
Theorem add_subsurf_modifier_settings_idempotent (show_viewport : bool) (w : World) :
  let r := ADH_AddSubdivisionSurfaceModifier.execute show_viewport w in
  r.1 = Ok FINISHED
  ∧ (∀ obj o,
       obj ∈ selected_objects r.2 → objects r.2 !! obj = Some o →
       Object.type o = "MESH" →
       (∃ m, m ∈ Object.modifiers o ∧ Modifier.type m = "SUBSURF")
       ∧ ∀ m, m ∈ Object.modifiers o → Modifier.type m = "SUBSURF" →
              Modifier.show_viewport m = show_viewport
              ∧ Modifier.show_expanded m = false)
  ∧ ADH_AddSubdivisionSurfaceModifier.execute show_viewport r.2 = (Ok FINISHED, r.2).
Proof.
  cbv zeta. rewrite add_subsurf_execute. simpl. split; [done|]. split.
  - intros obj o Hsel Ho Hty.
    apply elem_of_indices_where in Hsel as (o1 & Ho1 & Hsel1).
    simpl in Ho1. rewrite Ho in Ho1. injection Ho1 as <-.
    rewrite list_lookup_fmap in Ho.
    destruct (objects w !! obj) as [o0|]; [|done]. injection Ho as <-.
    destruct (is_selected_mesh o0) eqn:Hm.
    + apply with_subsurf_modifiers.
    + unfold is_selected_mesh in Hm. rewrite Hsel1, Hty in Hm. done.
  - rewrite add_subsurf_execute. f_equal.
    apply upd_objects_id. simpl.
    rewrite <- list_fmap_compose. apply list_fmap_ext. intros j o _. simpl.
    destruct (is_selected_mesh o) eqn:Hm; [|by rewrite Hm].
    unfold is_selected_mesh in *.
    rewrite with_subsurf_select, with_subsurf_type, Hm.
    apply with_subsurf_idemp.
Qed.

Lemma add_subsurf_modifier_settings_idempotent_witness :
  selected_meshes example_world_object_mode = [1; 4]
  ∧ let r := ADH_AddSubdivisionSurfaceModifier.execute false
               example_world_object_mode in
    r.1 = Ok FINISHED
    ∧ Object.modifiers <$> objects r.2 !! 1
      = Some [ Modifier.mk "Armature" "ARMATURE" true true (Some 0);
               Modifier.mk "Lattice" "LATTICE" true true None;
               Modifier.mk "Subsurf" "SUBSURF" false false None ]
    ∧ Object.modifiers <$> objects r.2 !! 4
      = Some [ Modifier.mk "Subsurf" "SUBSURF" false false None ]
    ∧ ADH_AddSubdivisionSurfaceModifier.execute false r.2 = (Ok FINISHED, r.2).
Proof.
  split; [by vm_compute|].
  destruct (add_subsurf_modifier_settings_idempotent false example_world_object_mode)
    as (Hfin & _ & Hidem).
  cbv zeta. split; [exact Hfin|]. split; [by vm_compute|]. split; [by vm_compute|].
  exact Hidem.
Defined.

(** ** The tool panel *)

(** C8.  The module defines eleven operator classes with distinct
    [bl_idname]s, the panel's [draw] refers to each of them exactly once, and
    it has no button for anything else. *)
Theorem panel_has_one_button_per_operator :
  length operator_idnames = 11
  ∧ NoDup operator_idnames
  ∧ Forall (λ idname, occurrences idname ADH_RiggingToolsPanel.operator_buttons = 1)
           operator_idnames
  ∧ Forall (λ idname, idname ∈ operator_idnames) ADH_RiggingToolsPanel.operator_buttons.
Proof.
  split; [done|]. split.
  - apply (bool_decide_unpack _). by vm_compute.
  - split.
    + repeat constructor.
    + repeat (constructor; [apply (bool_decide_unpack _); by vm_compute|]). constructor.
Qed.

(** ** The widget tables *)

Module Widgets.
Import ADH_CreateCustomShape.

(** No float scaled by zero and then offset by zero is [-0.5]. *)
Lemma scaled_by_zero (b : float) : (b * 0 + 0)%float ≠ (-0.5)%float.
Proof.
  intros H. apply (f_equal Prim2SF) in H.
  rewrite add_spec, mul_spec in H.
  destruct (Prim2SF b) as [s|s| |s m e]; try destruct s; vm_compute in H;
    discriminate.
Qed.

Lemma sphere_scaled : scaled_table sphere_verts.
Proof. exists (unit_literals sphere_verts). intros size pos. by vm_compute. Qed.

Lemma ring_scaled : scaled_table ring_verts.
Proof.
  exists ((λ v : vec3, (v.1.1, None, v.2)) <$> ring_verts 1%float 0%float).
  intros size pos. by vm_compute.
Qed.

Lemma box_unscaled_offset (size pos : float) :
  box_verts size pos = place_unscaled size pos <$> box_corners.
Proof. by vm_compute. Qed.

Lemma box_not_scaled : ¬ scaled_table box_verts.
Proof.
  intros [literals Hbox]. specialize (Hbox 0%float 0%float).
  destruct literals as [|[[a b] c] literals]; [done|].
  injection Hbox as _ Hy _ _. destruct b as [b|]; simpl in Hy.
  - symmetry in Hy. by apply scaled_by_zero in Hy.
  - apply (f_equal (λ x, PrimFloat.ltb x 0)) in Hy. vm_compute in Hy. done.
Qed.

Lemma ring_cycle : closed_cycle 12 ring_edges.
Proof. exists (seq 0 12). split; [done|]. by vm_compute. Qed.

End Widgets.

(** C6 at the box.  A box of size 2 at position 0.5 has its first vertex at
    [(-1, 0, -1)]: across the bone the literal [-0.5] is scaled by the size,
    along the bone it is only offset by the position.  With every coordinate
    scaled by the size, as the specification has it and as the sphere's
    table is written ([(b * size) + pos]), the vertex would be at
    [(-1, -0.5, -1)].  No table of literals scaled by [size] gives the
    box. *)
Lemma box_widget_not_scaled_along_bone :
  ADH_CreateCustomShape.box_verts 2 0.5 !! 0 = Some (-1, 0, -1)%float
  ∧ place 2 0.5 (-0.5, Some (-0.5), -0.5)%float = (-1, -0.5, -1)%float
  ∧ ADH_CreateCustomShape.sphere_verts 2 0.5 !! 3
    = Some (place 2 0.5 (4.371138828673793e-08, Some 0.5, -2.9802322387695312e-08)%float)
  ∧ ¬ scaled_table ADH_CreateCustomShape.box_verts.
Proof.
  split; [by vm_compute|]. split; [by vm_compute|]. split; [by vm_compute|].
  apply Widgets.box_not_scaled.
Qed.

(** The tables as they are written.  They are fixed literal data that depend
    on [size] and [pos] only.  The sphere has 26 vertices and the ring 12,
    each coordinate a literal scaled by [size] and the second one offset by
    [pos]; the ring's 12 edges are one closed cycle through its 12 vertices
    and it has no face.  The box has 8 vertices, 12 edges and 6 faces of four
    vertices; its vertices are the corners [(a, b, c)] with [a], [b] and [c]
    each [-0.5] or [0.5], put at [(a * size, b + pos, c * size)]. *)
Theorem widget_tables :
  (∀ size pos, length (ADH_CreateCustomShape.sphere_verts size pos) = 26)
  ∧ scaled_table ADH_CreateCustomShape.sphere_verts
  ∧ (∀ size pos, length (ADH_CreateCustomShape.ring_verts size pos) = 12)
  ∧ scaled_table ADH_CreateCustomShape.ring_verts
  ∧ length ADH_CreateCustomShape.ring_edges = 12
  ∧ closed_cycle 12 ADH_CreateCustomShape.ring_edges
  ∧ ADH_CreateCustomShape.ring_faces = []
  ∧ (∀ size pos, length (ADH_CreateCustomShape.box_verts size pos) = 8)
  ∧ (∀ size pos, ADH_CreateCustomShape.box_verts size pos
                 = place_unscaled size pos <$> box_corners)
  ∧ length ADH_CreateCustomShape.box_edges = 12
  ∧ length ADH_CreateCustomShape.box_faces = 6
  ∧ Forall (λ face, length face = 4) ADH_CreateCustomShape.box_faces.
Proof.
  split; [done|]. split; [apply Widgets.sphere_scaled|].
  split; [done|]. split; [apply Widgets.ring_scaled|].
  split; [done|]. split; [apply Widgets.ring_cycle|].
  split; [done|]. split; [done|].
  split; [apply Widgets.box_unscaled_offset|].
  split; [done|]. split; [done|]. repeat constructor.
Qed.

(** ** Remove Vertex Groups of Unselected Bones *)

Lemma remove_first_app_r `{EqDecision A} (x : A) (l1 l2 : list A) :
  x ∉ l1 → remove_first x (l1 ++ l2) = l1 ++ remove_first x l2.
Proof.
  induction l1 as [|y l1 IH]; intros Hx; simpl; [done|].
  apply not_elem_of_cons in Hx as [Hne Hx].
  rewrite decide_False by done. by rewrite IH.
Qed.

Lemma remove_first_head `{EqDecision A} (x : A) (l : list A) :
  remove_first x (x :: l) = l.
Proof. simpl. by rewrite decide_True. Qed.

(** Walking over the items a list held at the start and removing, from the
    list as it is by then, each item that is not to be kept, leaves exactly
    the items to keep. *)
Lemma remove_unkept `{EqDecision A} (keep : A → Prop) `{∀ x, Decision (keep x)}
    (kept pending : list A) :
  Forall keep kept →
  foldl (λ l x, if decide (keep x) then l else remove_first x l)
        (kept ++ pending) pending
  = kept ++ filter keep pending.
Proof.
  revert kept. induction pending as [|x pending IH]; intros kept Hkept; simpl.
  - done.
  - rewrite filter_cons. destruct (decide (keep x)) as [Hx|Hx].
    + rewrite (cons_middle x kept pending), (assoc_L (++)).
      rewrite IH by (apply Forall_app; by repeat constructor).
      by rewrite <- (assoc_L (++)).
    + rewrite remove_first_app_r, remove_first_head.
      * by apply IH.
      * intros Hin. apply Hx. by eapply Forall_forall in Hkept.
Qed.

Lemma foldl_upd_vertex_groups {X} (h : X → list VertexGroup.t → list VertexGroup.t)
    (xs : list X) (o : Object.t) :
  foldl (λ o x, Object.upd_vertex_groups (h x) o) o xs =
    Object.upd_vertex_groups (λ l, foldl (λ l x, h x l) l xs) o.
Proof.
  revert o. induction xs as [|x xs IH]; intros o; simpl.
  - by destruct o.
  - by rewrite IH.
Qed.

Lemma remove_vertex_groups_body (names : list string) (obj : nat) (o : Object.t)
    (w : World) :
  objects w !! obj = Some o →
  (let* o := the_object obj in
   for_each_in_collection (Object.vertex_groups o) (λ vg,
     if negb (bool_decide (VertexGroup.name vg ∈ names))
     then vertex_groups_remove obj vg
     else ret tt)) w
  = (Ok tt, upd_objects (alter (keep_vertex_groups names) obj) w).
Proof.
  intros Ho. unfold bind at 1, the_object, bind at 1, get, of_option.
  rewrite Ho. unfold ret at 1.
  unfold for_each_in_collection.
  set (step := λ (vg : VertexGroup.t) (l : list VertexGroup.t),
         if decide (VertexGroup.name vg ∈ names) then l else remove_first vg l).
  destruct (for_each_modify (λ _, True)
    (λ vg, upd_objects (alter (Object.upd_vertex_groups (step vg)) obj))
    (Object.vertex_groups o)
    (λ vg, if negb (bool_decide (VertexGroup.name vg ∈ names))
           then vertex_groups_remove obj vg else ret tt) w) as [-> _]; [|done|].
  { intros vg w' _ _. split; [|done]. unfold step.
    destruct (decide (VertexGroup.name vg ∈ names)) as [Hin|Hin].
    - rewrite bool_decide_eq_true_2 by done. simpl. unfold ret. f_equal.
      symmetry. apply upd_objects_id. apply list_alter_id. by intros [].
    - rewrite bool_decide_eq_false_2 by done. done. }
  f_equal. rewrite foldl_upd_objects. unfold upd_objects. f_equal.
  rewrite (foldl_alter_at obj (λ vg, Object.upd_vertex_groups (step vg))).
  apply list_alter_ext; [|done..]. intros x Hx. assert (x = o) as -> by congruence.
  rewrite (foldl_upd_vertex_groups step).
  unfold keep_vertex_groups, Object.upd_vertex_groups. f_equal.
  apply (remove_unkept (λ vg, VertexGroup.name vg ∈ names) []). constructor.
Qed.

(** With a pose object in the context, the operator filters the vertex
    groups of every selected mesh object and touches nothing else. *)
Lemma remove_vertex_groups_execute (w : World) (bones : list bone_ref) :
  selected_pose_bones w = Some bones →
  ADH_RemoveVertexGroupsUnselectedBones.execute w =
    (Ok FINISHED,
     upd_objects (fmap (λ o, if is_selected_mesh o
                             then keep_vertex_groups (selected_pose_bone_names w) o
                             else o)) w).
Proof.
  intros Hsel. unfold ADH_RemoveVertexGroupsUnselectedBones.execute.
  unfold bind at 1, get. rewrite Hsel. unfold bind at 1, iterable, of_option, ret at 1.
  fold (selected_meshes w). unfold bind at 1.
  unfold selected_pose_bone_names. rewrite Hsel.
  rewrite (for_each_alter_objects
             (λ _, keep_vertex_groups
                     (ADH_RemoveVertexGroupsUnselectedBones.names_of w bones))).
  - unfold ret. f_equal. unfold upd_objects. f_equal.
    rewrite selected_meshes_indices. apply foldl_alter_indices_where.
  - intros i w' o _ Ho. by apply (remove_vertex_groups_body _ _ o).
  - apply selected_meshes_valid.
Qed.

(** An update of the objects that keeps every object's type and bones does not
    change what the context says about bones. *)
Section bones_untouched.
Variable G : Object.t → Object.t.
Hypothesis G_type : ∀ o, Object.type (G o) = Object.type o.
Hypothesis G_bones : ∀ o, Object.bones (G o) = Object.bones o.

Lemma lookup_bone_fmap (w : World) (r : bone_ref) :
  lookup_bone (upd_objects (fmap G) w) r = lookup_bone w r.
Proof.
  unfold lookup_bone. simpl. rewrite list_lookup_fmap.
  destruct (objects w !! r.1) as [o|]; simpl; [|done].
  unfold pose_bones. by rewrite G_type, G_bones.
Qed.

Lemma selected_pose_bones_fmap (w : World) :
  selected_pose_bones (upd_objects (fmap G) w) = selected_pose_bones w.
Proof.
  unfold selected_pose_bones. simpl.
  destruct (pose_object w) as [a|]; simpl; [|done].
  unfold selected_bones_of. simpl. rewrite list_lookup_fmap.
  destruct (objects w !! a) as [o|]; simpl; [|done].
  unfold pose_bones. by rewrite G_type, G_bones.
Qed.

Lemma selected_pose_bone_names_fmap (w : World) :
  selected_pose_bone_names (upd_objects (fmap G) w) = selected_pose_bone_names w.
Proof.
  unfold selected_pose_bone_names. rewrite selected_pose_bones_fmap.
  destruct (selected_pose_bones w) as [bones|]; [|done].
  unfold ADH_RemoveVertexGroupsUnselectedBones.names_of.
  induction bones as [|r bones IH]; [done|].
  cbn [omap list_omap]. by rewrite lookup_bone_fmap, IH.
Qed.
End bones_untouched.

(** What [keep_vertex_groups] retains: exactly the groups with a listed name. *)
Lemma elem_of_keep_vertex_groups (names : list string) (o : Object.t)
    (vg : VertexGroup.t) :
  vg ∈ Object.vertex_groups (keep_vertex_groups names o)
  ↔ vg ∈ Object.vertex_groups o ∧ VertexGroup.name vg ∈ names.
Proof. simpl. rewrite list_elem_of_filter. tauto. Qed.

(** C2.  When the operator can run (the context has selected pose bones), it
    returns FINISHED; a selected mesh object is left with exactly those of its
    vertex groups whose name is the name of a selected pose bone, in their
    order, and is otherwise as before; every other object is untouched, and
    so the selected pose bones and their names are what they were. *)
Theorem remove_vertex_groups_keeps_selected_bones (w : World) :
  ADH_RemoveVertexGroupsUnselectedBones.poll w = true →
  let r := ADH_RemoveVertexGroupsUnselectedBones.execute w in
  r.1 = Ok FINISHED
  ∧ length (objects r.2) = length (objects w)
  ∧ selected_pose_bone_names r.2 = selected_pose_bone_names w
  ∧ ∀ obj o,
      objects w !! obj = Some o →
      objects r.2 !! obj =
        Some (if Object.select o && String.eqb (Object.type o) "MESH"
              then keep_vertex_groups (selected_pose_bone_names w) o
              else o)
      ∧ ∀ vg, vg ∈ Object.vertex_groups (keep_vertex_groups (selected_pose_bone_names w) o)
              ↔ vg ∈ Object.vertex_groups o
                ∧ VertexGroup.name vg ∈ selected_pose_bone_names w.
Proof.
  intros Hpoll. unfold ADH_RemoveVertexGroupsUnselectedBones.poll in Hpoll.
  apply bool_decide_eq_true in Hpoll.
  destruct (selected_pose_bones w) as [bones|] eqn:Hbones; [|done].
  cbv zeta. rewrite (remove_vertex_groups_execute w bones Hbones). simpl.
  split; [done|]. split; [by rewrite length_fmap|]. split.
  - apply selected_pose_bone_names_fmap; intros o;
      by destruct (is_selected_mesh o).
  - intros obj o Ho. split; [|apply elem_of_keep_vertex_groups].
    rewrite list_lookup_fmap, Ho. done.
Qed.

Lemma remove_vertex_groups_keeps_selected_bones_witness :
  ADH_RemoveVertexGroupsUnselectedBones.poll example_world = true
  ∧ (ADH_RemoveVertexGroupsUnselectedBones.execute example_world).1 = Ok FINISHED
  ∧ Object.vertex_groups
      <$> objects (ADH_RemoveVertexGroupsUnselectedBones.execute example_world).2 !! 1
    = Some [VertexGroup.mk "arm"; VertexGroup.mk "leg"].
Proof.
  split; [by vm_compute|].
  destruct (remove_vertex_groups_keeps_selected_bones example_world)
    as (Hfin & _ & _ & Hobj); [by vm_compute|].
  split; [exact Hfin|].
  destruct (Hobj 1 (example_mesh "body" true 1
      [ Modifier.mk "Armature" "ARMATURE" true true (Some 0);
        Modifier.mk "Lattice" "LATTICE" true true None;
        Modifier.mk "Subsurf" "SUBSURF" true true None ]
      [ "arm"; "leg"; "tail"; "spine" ]) eq_refl) as [-> _].
  by vm_compute.
Defined.

(** ** Use Same Custom Shape *)

(** The loop with [break] finds the first selected mesh. *)
Lemma first_mesh_head (w : World) (objs : list nat) (custom_shape : option nat) :
  ADH_UseSameCustomShape.first_mesh w objs custom_shape =
    match head (filter (λ obj, is_type "MESH" w obj = true) objs) with
    | Some mesh => Some mesh
    | None => custom_shape
    end.
Proof.
  induction objs as [|obj objs IH]; simpl; [done|].
  rewrite filter_cons. destruct (is_type "MESH" w obj) eqn:Hty.
  - by rewrite decide_True.
  - by rewrite decide_False.
Qed.

(** An active pose bone comes with its armature and the list of selected
    pose bones. *)
Lemma active_pose_bone_Some (w : World) (active : bone_ref) :
  active_pose_bone w = Some active →
  ∃ o b, pose_object w = Some active.1
         ∧ objects w !! active.1 = Some o
         ∧ pose_bones o = Some (Object.bones o)
         ∧ Object.bones o !! active.2 = Some b
         ∧ lookup_bone w active = Some b
         ∧ selected_pose_bones w =
             Some (pair active.1 <$> indices_where Bone.select (Object.bones o)).
Proof.
  unfold active_pose_bone, selected_pose_bones, selected_bones_of.
  destruct (pose_object w) as [a|]; simpl; [|done].
  destruct (active_bone w) as [j|]; simpl; [|done].
  destruct (lookup_bone w (a, j)) as [b|] eqn:Hb; simpl; [|done].
  intros [= <-]. simpl. unfold lookup_bone in *. simpl in *.
  destruct (objects w !! a) as [o|]; simpl in *; [|done].
  unfold pose_bones in *.
  destruct (String.eqb (Object.type o) "ARMATURE") eqn:Hty; simpl in *; [|done].
  exists o, b. by rewrite Hty.
Qed.

Lemma use_same_shape_execute (w : World) (active : bone_ref) :
  active_pose_bone w = Some active →
  ADH_UseSameCustomShape.execute w =
    (Ok FINISHED,
     upd_objects
       (alter (Object.upd_bones
                 (fmap (λ b, if Bone.select b
                             then Bone.set_custom_shape
                                    (match first_selected_mesh w with
                                     | Some mesh => Some mesh
                                     | None => custom_shape_of w active
                                     end) b
                             else b))) active.1) w).
Proof.
  intros Hactive.
  destruct (active_pose_bone_Some w active Hactive)
    as (o & b & Hpose & Ho & Hpb & Hj & Hb & Hsel).
  unfold ADH_UseSameCustomShape.execute. unfold bind at 1, get. rewrite Hactive.
  unfold bind at 1, the_object, the_bone, bind at 1, get, of_option. rewrite Hb.
  unfold ret at 1. rewrite Hsel. unfold bind at 1, iterable, of_option, ret at 1.
  unfold bind at 1.
  rewrite (for_each_alter_bones active.1 (λ _, Bone.set_custom_shape _)).
  unfold ret. f_equal. unfold upd_objects. f_equal.
  apply list_alter_ext; [|done]. intros o' Ho'. assert (o' = o) as -> by congruence.
  unfold Object.upd_bones. f_equal.
  rewrite foldl_alter_indices_where. apply list_fmap_ext. intros i x _.
  destruct (Bone.select x); [|done]. f_equal.
  rewrite first_mesh_head. unfold first_selected_mesh, selected_meshes, custom_shape_of.
  by rewrite Hb.
Qed.

(** C10.  When the operator can run (there is an active pose bone), it
    returns FINISHED and every selected pose bone, the active one included
    when it is selected, gets one and the same custom shape: the first
    selected mesh object if any selected object is a mesh, whatever the
    active bone's own shape, and the active pose bone's custom shape only
    when none is.  Nothing else about a selected bone changes. *)
Theorem use_same_custom_shape_prefers_selected_mesh (w : World) :
  ADH_UseSameCustomShape.poll w = true →
  ∃ active bones,
    active_pose_bone w = Some active
    ∧ selected_pose_bones w = Some bones
    ∧ let r := ADH_UseSameCustomShape.execute w in
      r.1 = Ok FINISHED
      ∧ ∀ bone, bone ∈ bones →
          ∃ b, lookup_bone w bone = Some b
               ∧ lookup_bone r.2 bone =
                   Some (Bone.set_custom_shape
                           (match first_selected_mesh w with
                            | Some mesh => Some mesh
                            | None => custom_shape_of w active
                            end) b).
Proof.
  intros Hpoll. apply bool_decide_eq_true in Hpoll.
  destruct (active_pose_bone w) as [active|] eqn:Hactive; [|done].
  destruct (active_pose_bone_Some w active Hactive)
    as (o & b & Hpose & Ho & Hpb & Hj & Hb & Hsel).
  exists active, (pair active.1 <$> indices_where Bone.select (Object.bones o)).
  split; [done|]. split; [done|]. cbv zeta.
  rewrite (use_same_shape_execute w active Hactive). simpl. split; [done|].
  intros bone (j & -> & Hjsel)%list_elem_of_fmap.
  apply elem_of_indices_where in Hjsel as (bj & Hbj & Hselj).
  exists bj. rewrite lookup_bone_upd_bones. simpl.
  rewrite decide_True by done. unfold lookup_bone. simpl.
  rewrite Ho. simpl. rewrite Hpb. simpl.
  rewrite Hbj, list_lookup_fmap, Hbj. simpl. by rewrite Hselj.
Qed.

Lemma use_same_custom_shape_prefers_selected_mesh_witness :
  ADH_UseSameCustomShape.poll example_world = true
  ∧ first_selected_mesh example_world = Some 1
  ∧ custom_shape_of example_world (0, 2) = Some 4
  ∧ Bone.custom_shape
      <$> lookup_bone (ADH_UseSameCustomShape.execute example_world).2 (0, 0)
    = Some (Some 1).
Proof.
  split; [by vm_compute|]. split; [by vm_compute|]. split; [by vm_compute|].
  destruct (use_same_custom_shape_prefers_selected_mesh example_world)
    as (active & bones & Hactive & Hbones & _ & Hall); [by vm_compute|].
  injection Hbones as <-.
  destruct (Hall (0, 0)) as (b & Hb & ->); [by left|].
  injection Hb as <-. by vm_compute.
Defined.

(** ** Create Custom Shape *)

(** With the name taken, no widget function creates anything. *)
Lemma create_widget_exists (host : Host) (self : ADH_CreateCustomShape.props)
    (rig : option nat) (bone_name : string) (w : World) :
  ADH_CreateCustomShape.widget_prefix self +:+ bone_name ∈ scene_object_names w →
  ADH_CreateCustomShape.create_widget host self rig bone_name None w = (Ok None, w).
Proof.
  intros Hin. unfold ADH_CreateCustomShape.create_widget, bind, get.
  by rewrite bool_decide_eq_true_2.
Qed.

(** C9.  If an object named by the widget prefix followed by the active pose
    bone's name is already in the scene, Create Custom Shape creates no
    object and no mesh, sets the active pose bone's custom shape to [None]
    whatever it was, changes nothing else, and returns FINISHED. *)
Theorem create_custom_shape_clears_shape_when_widget_exists
    (host : Host) (self : ADH_CreateCustomShape.props) (w : World)
    (active : bone_ref) (b : Bone.t) :
  active_pose_bone w = Some active →
  lookup_bone w active = Some b →
  ADH_CreateCustomShape.widget_prefix self +:+ Bone.name b ∈ scene_object_names w →
  let r := ADH_CreateCustomShape.execute host self w in
  r = (Ok FINISHED,
       upd_objects (alter (Object.upd_bones
                             (alter (Bone.set_custom_shape None) active.2))
                          active.1) w)
  ∧ length (objects r.2) = length (objects w)
  ∧ datablocks r.2 = datablocks w
  ∧ lookup_bone r.2 active = Some (Bone.set_custom_shape None b).
Proof.
  intros Hactive Hb Hname. cbv zeta.
  assert (ADH_CreateCustomShape.execute host self w =
          (Ok FINISHED,
           upd_objects (alter (Object.upd_bones
                                 (alter (Bone.set_custom_shape None) active.2))
                              active.1) w)) as ->.
  { unfold ADH_CreateCustomShape.execute. unfold bind at 1, get. rewrite Hactive.
    unfold bind at 1, of_option, ret at 1.
    unfold bind at 1, the_bone, bind at 1, get, of_option. rewrite Hb.
    unfold ret at 1. unfold bind at 1.
    destruct (ADH_CreateCustomShape.widget_shape self);
      unfold ADH_CreateCustomShape.create_sphere_widget,
        ADH_CreateCustomShape.create_ring_widget,
        ADH_CreateCustomShape.create_box_widget;
      unfold bind at 1; rewrite create_widget_exists by done; done. }
  split; [done|]. simpl. split; [by rewrite length_alter|]. split; [done|].
  rewrite lookup_bone_upd_bones, decide_True by done.
  unfold lookup_bone in Hb.
  destruct (objects w !! active.1) as [o|]; [|done]. simpl in *.
  destruct (pose_bones o) as [bs|]; [|done]. simpl in *.
  by rewrite list_lookup_alter, decide_True, Hb.
Qed.

Lemma create_custom_shape_clears_shape_when_widget_exists_witness :
  custom_shape_of example_world (0, 2) = Some 4
  ∧ active_pose_bone example_world = Some (0, 2)
  ∧ "wgt-tail" ∈ scene_object_names example_world
  ∧ let r := ADH_CreateCustomShape.execute example_host
               (ADH_CreateCustomShape.defaults ADH_CreateCustomShape.ring)
               example_world in
    r.1 = Ok FINISHED
    ∧ length (objects r.2) = 5
    ∧ custom_shape_of r.2 (0, 2) = None.
Proof.
  split; [by vm_compute|]. split; [by vm_compute|].
  assert ("wgt-tail" ∈ scene_object_names example_world) as Hin.
  { apply (bool_decide_unpack _). by vm_compute. }
  split; [exact Hin|].
  destruct (create_custom_shape_clears_shape_when_widget_exists example_host
              (ADH_CreateCustomShape.defaults ADH_CreateCustomShape.ring)
              example_world (0, 2) (example_bone "tail" false 2 (Some 4)))
    as (Hr & Hlen & _ & Hbone); [by vm_compute | by vm_compute | exact Hin |].
  cbv zeta. split; [by rewrite Hr|]. split; [exact Hlen|].
  unfold custom_shape_of. by rewrite Hbone.
Defined.

(** ** Copy Custom Shapes *)

Lemma remove_first_NoDup `{EqDecision A} (x : A) (l : list A) :
  NoDup l → ∀ y, y ∈ remove_first x l ↔ y ∈ l ∧ y ≠ x.
Proof.
  induction 1 as [|z l Hz Hnd IH]; intros y; simpl.
  - split; [by intros ?%elem_of_nil | by intros [?%elem_of_nil _]].
  - destruct (decide (x = z)) as [->|Hne].
    + rewrite elem_of_cons. split.
      * intros Hy. split; [by right|]. by intros ->.
      * by intros [[->|?] ?].
    + rewrite !elem_of_cons, IH. split.
      * intros [->|[? ?]]; [split; [by left|done] | split; [by right|done]].
      * intros [[->|?] ?]; [by left | by right].
Qed.

Lemma NoDup_remove_first `{EqDecision A} (x : A) (l : list A) :
  NoDup l → NoDup (remove_first x l).
Proof.
  induction 1 as [|z l Hz Hnd IH]; simpl; [constructor|].
  destruct (decide (x = z)); [done|].
  constructor; [|done]. rewrite remove_first_NoDup by done. tauto.
Qed.

Lemma list_alter_None {A} (f : A → A) (i : nat) (l : list A) :
  l !! i = None → alter f i l = l.
Proof.
  intros Hi. apply list_eq. intros j.
  destruct (decide (i = j)) as [<-|Hne].
  - by rewrite list_lookup_alter, decide_True, Hi.
  - by rewrite list_lookup_alter_ne.
Qed.

Lemma list_alter_same {A} (f : A → A) (i : nat) (l : list A) :
  (∀ x, l !! i = Some x → f x = x) → alter f i l = l.
Proof.
  intros Hf. apply list_eq. intros j.
  destruct (decide (i = j)) as [<-|Hne].
  - rewrite list_lookup_alter, decide_True by done.
    destruct (l !! i) as [x|] eqn:Hx; [|done]. simpl. by rewrite Hf.
  - by rewrite list_lookup_alter_ne.
Qed.

(** One assignment under [try ... except: pass]: the destination armature is
    rewritten by [copy_shape], whatever goes wrong on the way. *)
Lemma copy_shapes_body (bone : bone_ref) (b : Bone.t) (armature : nat) (w : World) :
  lookup_bone w bone = Some b →
  try_except_pass (
    let* b := the_bone bone in
    let* dst := pose_bone_by_name armature (Bone.name b) in
    let* b := the_bone bone in
    update_bone dst (Bone.set_custom_shape (Bone.custom_shape b))) w
  = (Ok tt, upd_objects (alter (copy_shape b) armature) w).
Proof.
  intros Hb. unfold try_except_pass. f_equal. munfold. mrewrite Hb.
  destruct (objects w !! armature) as [o|] eqn:Ho; mred.
  2:{ symmetry. apply upd_objects_id. by apply list_alter_None. }
  destruct (pose_bones o) as [bs|] eqn:Hbs; mred.
  2:{ symmetry. apply upd_objects_id. apply list_alter_same.
      intros x Hx. assert (x = o) as -> by congruence.
      unfold copy_shape. by rewrite Hbs. }
  destruct (bone_index (Bone.name b) bs) as [j|] eqn:Hj; mred.
  2:{ symmetry. apply upd_objects_id. apply list_alter_same.
      intros x Hx. assert (x = o) as -> by congruence.
      unfold copy_shape. by rewrite Hbs, Hj. }
  mrewrite Hb. simpl.
  apply (upd_objects_alter_ext _ _ _ o); [done|].
  unfold copy_shape. by rewrite Hbs, Hj.
Qed.

Lemma bone_index_Some (n : string) (bs : list Bone.t) (j : nat) :
  bone_index n bs = Some j →
  ∃ b, bs !! j = Some b ∧ Bone.name b = n.
Proof.
  unfold bone_index. destruct (list_find _ bs) as [[i b]|] eqn:Hfind; [|done].
  intros [= <-]. apply list_find_Some in Hfind as (Hi & Hn & _). by exists b.
Qed.

Lemma bone_index_None (n : string) (bs : list Bone.t) :
  bone_index n bs = None → ∀ b, b ∈ bs → Bone.name b ≠ n.
Proof.
  unfold bone_index. destruct (list_find _ bs) as [[i b]|] eqn:Hfind; [done|].
  intros _ b Hb. apply list_find_None in Hfind.
  by eapply Forall_forall in Hfind.
Qed.

(** With distinct names, the bone a name denotes is the bone of that name. *)
Lemma bone_index_unique (bs : list Bone.t) (j : nat) (b : Bone.t) :
  NoDup (Bone.name <$> bs) → bs !! j = Some b → bone_index (Bone.name b) bs = Some j.
Proof.
  intros Hnd Hj. unfold bone_index.
  destruct (list_find (λ b0, Bone.name b0 = Bone.name b) bs) as [[i b']|] eqn:Hfind.
  - apply list_find_Some in Hfind as (Hi & Hn & _). simpl. f_equal.
    eapply (NoDup_lookup _ i j (Bone.name b) Hnd).
    + rewrite list_lookup_fmap, Hi. simpl. by rewrite Hn.
    + by rewrite list_lookup_fmap, Hj.
  - apply list_find_None in Hfind.
    apply list_elem_of_lookup_2 in Hj. by eapply Forall_forall in Hfind.
Qed.

(** On an armature with distinct bone names, [copy_shape] sets the shape of
    the bone that has the source bone's name and of no other. *)
Lemma copy_shape_bones (b : Bone.t) (o : Object.t) :
  pose_bones o = Some (Object.bones o) →
  NoDup (Bone.name <$> Object.bones o) →
  Object.bones (copy_shape b o) =
    (λ bd, if decide (Bone.name b = Bone.name bd)
           then Bone.set_custom_shape (Bone.custom_shape b) bd
           else bd) <$> Object.bones o.
Proof.
  intros Hpose Hnd. unfold copy_shape. rewrite Hpose.
  destruct (bone_index (Bone.name b) (Object.bones o)) as [j|] eqn:Hj.
  - apply bone_index_Some in Hj as (bj & Hbj & Hn). simpl.
    apply list_eq. intros i. rewrite list_lookup_fmap.
    destruct (decide (j = i)) as [<-|Hne].
    + rewrite list_lookup_alter, decide_True, Hbj by done. simpl.
      by rewrite decide_True.
    + rewrite list_lookup_alter_ne by done.
      destruct (Object.bones o !! i) as [bi|] eqn:Hbi; [|done]. simpl.
      rewrite decide_False; [done|]. intros Heq. apply Hne.
      eapply (NoDup_lookup _ j i (Bone.name b) Hnd).
      * rewrite list_lookup_fmap, Hbj. simpl. by rewrite Hn.
      * rewrite list_lookup_fmap, Hbi. simpl. by rewrite Heq.
  - rewrite <- (list_fmap_id (Object.bones o)) at 1.
    apply list_fmap_ext. intros i bi Hbi. simpl.
    rewrite decide_False; [done|]. intros Heq.
    eapply bone_index_None; [exact Hj | by eapply list_elem_of_lookup_2 | done].
Qed.

Lemma copy_shape_pose_bones (b : Bone.t) (o : Object.t) :
  pose_bones o = Some (Object.bones o) →
  pose_bones (copy_shape b o) = Some (Object.bones (copy_shape b o)).
Proof.
  intros Hpose. unfold copy_shape. rewrite Hpose.
  destruct (bone_index _ _); [|done].
  unfold pose_bones in *. simpl. by destruct (String.eqb _ _).
Qed.

(** Going through all source bones leaves every destination bone with its
    [copied_shape]. *)
Lemma copy_shapes_object (bs : list Bone.t) (o : Object.t) :
  pose_bones o = Some (Object.bones o) →
  NoDup (Bone.name <$> Object.bones o) →
  pose_bones (foldl (λ o b, copy_shape b o) o bs)
    = Some (copied_shape bs <$> Object.bones o).
Proof.
  revert o. induction bs as [|b bs IH]; intros o Hpose Hnd; simpl.
  - rewrite Hpose. f_equal. symmetry. apply list_fmap_id.
  - rewrite IH.
    + rewrite copy_shape_bones by done. by rewrite <- list_fmap_compose.
    + by apply copy_shape_pose_bones.
    + rewrite copy_shape_bones by done. rewrite <- list_fmap_compose.
      erewrite list_fmap_ext; [exact Hnd|]. intros i x _. simpl.
      by destruct (decide _).
Qed.

Lemma copied_shape_name (bs : list Bone.t) (bd : Bone.t) :
  Bone.name (copied_shape bs bd) = Bone.name bd.
Proof.
  revert bd. induction bs as [|b bs IH]; intros bd; simpl; [done|].
  unfold copied_shape in *. simpl. rewrite IH. by destruct (decide _).
Qed.

(** No source bone of that name: the destination bone keeps its shape. *)
Lemma copied_shape_no_counterpart (bs : list Bone.t) (bd : Bone.t) :
  (∀ b, b ∈ bs → Bone.name b ≠ Bone.name bd) → copied_shape bs bd = bd.
Proof.
  revert bd. induction bs as [|b bs IH]; intros bd Hbs; [done|].
  unfold copied_shape in *. simpl. rewrite decide_False by (apply Hbs; by left).
  apply IH. intros b' Hb'. apply Hbs. by right.
Qed.

(** A source bone of that name, the only one: its shape is the one copied. *)
Lemma copied_shape_counterpart (bs : list Bone.t) (b bd : Bone.t) :
  NoDup (Bone.name <$> bs) → b ∈ bs → Bone.name b = Bone.name bd →
  copied_shape bs bd = Bone.set_custom_shape (Bone.custom_shape b) bd.
Proof.
  revert bd. induction bs as [|b0 bs IH]; intros bd Hnd Hb Hname.
  - by apply elem_of_nil in Hb.
  - rewrite fmap_cons in Hnd. apply NoDup_cons in Hnd as [Hb0 Hnd].
    unfold copied_shape in *. simpl.
    apply elem_of_cons in Hb as [->|Hb].
    + rewrite decide_True by done.
      apply (copied_shape_no_counterpart bs). intros b' Hb' Heq.
      apply Hb0. simpl in Heq. rewrite Hname, <- Heq.
      apply list_elem_of_fmap. by exists b'.
    + rewrite decide_False.
      * by apply IH.
      * intros Heq. apply Hb0. rewrite Heq, <- Hname.
        apply list_elem_of_fmap. by exists b.
Qed.

(** The two nested loops, as updates of the object store. *)
Lemma lookup_foldl_foldl_alter {A X} (F : X → A → A) (dst : list nat) (xs : list X)
    (l : list A) (i : nat) :
  NoDup dst →
  foldl (λ l x, foldl (λ l d, alter (F x) d l) l dst) l xs !! i =
    if decide (i ∈ dst) then (λ a, foldl (λ a x, F x a) a xs) <$> l !! i else l !! i.
Proof.
  intros Hnd. revert l. induction xs as [|x xs IH]; intros l.
  - simpl. destruct (decide (i ∈ dst)); [|done]. by destruct (l !! i).
  - cbn [foldl].
    rewrite IH, (lookup_foldl_alter (λ _, F x)) by done.
    destruct (decide (i ∈ dst)); [|done]. by destruct (l !! i).
Qed.

Lemma lookup_bone_alter_ne (f : Object.t → Object.t) (d : nat) (w : World)
    (r : bone_ref) :
  r.1 ≠ d → lookup_bone (upd_objects (alter f d) w) r = lookup_bone w r.
Proof.
  intros Hne. unfold lookup_bone. simpl. by rewrite list_lookup_alter_ne.
Qed.

Lemma fmap_lookup_seq {A} (d : A) (l : list A) :
  (λ k, default d (l !! k)) <$> seq 0 (length l) = l.
Proof.
  apply list_eq. intros i. rewrite list_lookup_fmap.
  destruct (l !! i) as [x|] eqn:Hi.
  - rewrite lookup_seq_lt by by eapply lookup_lt_Some. simpl. by rewrite Hi.
  - rewrite lookup_seq_ge; [done|]. by apply lookup_ge_None.
Qed.

(** With the active object a selected armature, the operator is the two
    nested loops over the source bones and the other selected objects. *)
Lemma copy_shapes_execute (w : World) (s : nat) (o : Object.t) :
  active_object w = Some s →
  s ∈ selected_objects w →
  objects w !! s = Some o →
  pose_bones o = Some (Object.bones o) →
  ADH_CopyCustomShapes.execute w =
    (Ok FINISHED,
     upd_objects
       (λ os, foldl (λ os b,
                foldl (λ os d, alter (copy_shape b) d os) os
                      (remove_first s (selected_objects w)))
              os (Object.bones o)) w).
Proof.
  intros Hactive Hsel Ho Hpose.
  unfold ADH_CopyCustomShapes.execute.
  unfold bind at 1, get. mred. mrewrite Hactive.
  unfold bind at 1, list_remove. rewrite decide_True by done.
  unfold ret at 1. mred.
  unfold bind at 1, of_option at 1, ret at 1. mred.
  unfold bind at 1, the_object at 1, bind at 1, get, of_option at 1. mrewrite Ho.
  unfold ret at 1. mred.
  unfold bind at 1, of_option at 1. mrewrite Hpose. unfold ret at 1. mred.
  unfold bind at 1.
  set (dst := remove_first s (selected_objects w)).
  set (src_bone := λ bone : bone_ref,
         default (Bone.new "") (Object.bones o !! bone.2)).
  assert (∀ d, d ∈ dst → d ≠ s) as Hdst.
  { intros d Hd. apply remove_first_NoDup in Hd; [tauto|].
    apply NoDup_indices_where. }
  destruct (for_each_modify (λ w', objects w' !! s = Some o)
    (λ bone, upd_objects (λ os, foldl (λ os d, alter (copy_shape (src_bone bone)) d os)
                                      os dst))
    (pair s <$> seq 0 (length (Object.bones o)))
    (λ bone, for_each dst (λ armature,
       try_except_pass (
         let* b := the_bone bone in
         let* dst := pose_bone_by_name armature (Bone.name b) in
         let* b := the_bone bone in
         update_bone dst (Bone.set_custom_shape (Bone.custom_shape b))))) w)
    as [Hloop _]; [|done|].
  { intros bone w' (k & -> & Hk)%list_elem_of_fmap Hw'.
    apply elem_of_seq in Hk as [_ Hk]. simpl in Hk.
    destruct (lookup_lt_is_Some_2 (Object.bones o) k Hk) as [b Hb].
    assert (src_bone (s, k) = b) as -> by (unfold src_bone; simpl; by rewrite Hb).
    destruct (for_each_modify (λ w'', objects w'' !! s = Some o)
      (λ d, upd_objects (alter (copy_shape b) d)) dst
      (λ armature,
         try_except_pass (
           let* b := the_bone (s, k) in
           let* dst := pose_bone_by_name armature (Bone.name b) in
           let* b := the_bone (s, k) in
           update_bone dst (Bone.set_custom_shape (Bone.custom_shape b)))) w')
      as [Hinner Hinv]; [|done|].
    { intros d w'' Hd Hw''. split.
      - apply copy_shapes_body. unfold lookup_bone. simpl.
        rewrite Hw''. simpl. rewrite Hpose. done.
      - simpl. rewrite list_lookup_alter_ne; [done|]. by apply Hdst. }
    rewrite Hinner. rewrite foldl_upd_objects in Hinv |- *. done. }
  rewrite Hloop. unfold ret. f_equal. rewrite foldl_upd_objects. unfold upd_objects. f_equal.
  rewrite foldl_fmap.
  rewrite <- (fmap_lookup_seq (Bone.new "") (Object.bones o)) at 2.
  by rewrite foldl_fmap.
Qed.

Lemma lookup_bone_Some (w : World) (r : bone_ref) (b : Bone.t) :
  lookup_bone w r = Some b ↔
  ∃ o, objects w !! r.1 = Some o ∧ pose_bones o = Some (Object.bones o)
       ∧ Object.bones o !! r.2 = Some b.
Proof.
  unfold lookup_bone, pose_bones. split.
  - destruct (objects w !! r.1) as [o|]; simpl; [|done].
    destruct (String.eqb _ _) eqn:Hty; simpl; [|done].
    intros Hb. exists o. by rewrite Hty.
  - intros (o & -> & Hty & Hb). simpl.
    destruct (String.eqb _ _); simpl; [done|discriminate].
Qed.

(** C3.  Let the active object be one of the selected objects and an
    armature (the source), with bone names distinct within each armature as
    the host keeps them.  Then Copy Custom Shapes returns FINISHED, and for
    every other selected armature and every pose bone [bd] of it: if a source
    bone has the name of [bd], [bd] ends with that source bone's custom shape
    and is otherwise as before; if no source bone has its name, [bd] is
    unchanged, and the operator is not aborted.  The source and the objects
    that are not selected are untouched. *)
Theorem copy_custom_shapes_by_bone_name (w : World) (s : nat) :
  active_object w = Some s →
  s ∈ selected_objects w →
  is_type "ARMATURE" w s = true →
  unique_bone_names w →
  let r := ADH_CopyCustomShapes.execute w in
  r.1 = Ok FINISHED
  ∧ (∀ d j bd,
       d ∈ selected_objects w → d ≠ s → lookup_bone w (d, j) = Some bd →
       (∀ k b, lookup_bone w (s, k) = Some b → Bone.name b = Bone.name bd →
               lookup_bone r.2 (d, j)
               = Some (Bone.set_custom_shape (Bone.custom_shape b) bd))
       ∧ ((∀ k b, lookup_bone w (s, k) = Some b → Bone.name b ≠ Bone.name bd) →
          lookup_bone r.2 (d, j) = Some bd))
  ∧ (∀ obj, obj = s ∨ obj ∉ selected_objects w →
            objects r.2 !! obj = objects w !! obj).
Proof.
  intros Hactive Hsel Hty Hnames. unfold is_type in Hty.
  destruct (objects w !! s) as [o|] eqn:Ho; [|done].
  assert (pose_bones o = Some (Object.bones o)) as Hpose
    by (unfold pose_bones; by rewrite Hty).
  cbv zeta. rewrite (copy_shapes_execute w s o) by done. simpl.
  assert (NoDup (remove_first s (selected_objects w))) as Hnd
    by (apply NoDup_remove_first, NoDup_indices_where).
  split; [done|]. split.
  - intros d j bd Hd Hne Hbd.
    assert (d ∈ remove_first s (selected_objects w)) as Hdst.
    { apply remove_first_NoDup; [apply NoDup_indices_where | done]. }
    apply lookup_bone_Some in Hbd as (od & Hod & Hposed & Hj). simpl in *.
    assert (lookup_bone
              (upd_objects
                 (λ os, foldl (λ os b,
                          foldl (λ os d, alter (copy_shape b) d os) os
                                (remove_first s (selected_objects w)))
                        os (Object.bones o)) w) (d, j)
            = Some (copied_shape (Object.bones o) bd)) as Hafter.
    { unfold lookup_bone. simpl.
      rewrite (lookup_foldl_foldl_alter copy_shape) by done.
      rewrite decide_True, Hod by done. simpl.
      rewrite copy_shapes_object by eauto. simpl.
      by rewrite list_lookup_fmap, Hj. }
    rewrite Hafter. split.
    + intros k b (o' & Ho' & _ & Hk)%lookup_bone_Some Hname. simpl in *.
      assert (o' = o) as -> by congruence. f_equal.
      apply copied_shape_counterpart; [by eapply Hnames | | done].
      by eapply list_elem_of_lookup_2.
    + intros Hnone. f_equal. apply copied_shape_no_counterpart.
      intros b [k Hk]%list_elem_of_lookup. apply (Hnone k).
      apply lookup_bone_Some. exists o. by simpl.
  - intros obj Hobj. rewrite (lookup_foldl_foldl_alter copy_shape) by done.
    rewrite decide_False; [done|].
    intros [Hin Hne]%remove_first_NoDup; [|apply NoDup_indices_where].
    by destruct Hobj.
Qed.

Lemma copy_custom_shapes_by_bone_name_witness :
  active_object example_world = Some 0
  ∧ selected_objects example_world = [0; 1; 3; 4]
  ∧ let r := ADH_CopyCustomShapes.execute example_world in
    r.1 = Ok FINISHED
    ∧ custom_shape_of example_world (3, 0) = Some 2
    ∧ custom_shape_of example_world (0, 1) = None
    ∧ custom_shape_of r.2 (3, 0) = None
    ∧ custom_shape_of r.2 (3, 1) = Some 2.
Proof.
  split; [done|]. split; [by vm_compute|].
  destruct (copy_custom_shapes_by_bone_name example_world 0)
    as (Hfin & Hbones & _).
  { done. }
  { apply (bool_decide_unpack _). by vm_compute. }
  { by vm_compute. }
  { intros obj o Ho. do 5 (destruct obj as [|obj];
      [injection Ho as <-; apply (bool_decide_unpack _); by vm_compute|]).
    done. }
  cbv zeta. split; [exact Hfin|]. split; [by vm_compute|]. split; [by vm_compute|].
  assert (3 ∈ selected_objects example_world) as Hsel.
  { apply (bool_decide_unpack _). by vm_compute. }
  split.
  - destruct (Hbones 3 0 (example_bone "leg" false 1 (Some 2)) Hsel) as [Hcopy _];
      [done | by vm_compute |].
    unfold custom_shape_of.
    by rewrite (Hcopy 1 (example_bone "leg" true 1 None) eq_refl eq_refl).
  - destruct (Hbones 3 1 (example_bone "head" false 3 (Some 2)) Hsel) as [_ Hkeep];
      [done | by vm_compute |].
    unfold custom_shape_of. rewrite Hkeep; [done|].
    intros k b Hb. do 3 (destruct k as [|k]; [injection Hb as <-; done|]).
    done.
Defined.
(** ** Rename Regex *)

Module RenameRegexFacts.
Import ADH_RenameRegex.

Lemma item_name_with_eq (it : item) (n old : string) (w : World) :
  item_name w it = Some old →
  item_name (with_item_name it n w) it = Some n.
Proof.
  destruct it as [obj|[a j]]; simpl.
  - rewrite list_lookup_alter, decide_True by done.
    by destruct (objects w !! obj).
  - rewrite lookup_bone_upd_bones, decide_True by done. simpl.
    unfold lookup_bone. simpl.
    destruct (objects w !! a) as [o|]; simpl; [|done].
    destruct (pose_bones o) as [bs|]; simpl; [|done].
    rewrite list_lookup_alter, decide_True by done.
    by destruct (bs !! j).
Qed.

Lemma item_name_with_ne (it it' : item) (n : string) (w : World) :
  it ≠ it' →
  item_name (with_item_name it n w) it' = item_name w it'.
Proof.
  intros Hne. destruct it as [obj|[a j]], it' as [obj'|[a' j']]; simpl.
  - destruct (decide (obj = obj')) as [->|Hobj]; [done|].
    by rewrite list_lookup_alter_ne.
  - unfold lookup_bone. simpl.
    destruct (decide (obj = a')) as [->|Hobj].
    + rewrite list_lookup_alter, decide_True by done.
      by destruct (objects w !! a') as [[]|].
    + by rewrite list_lookup_alter_ne.
  - destruct (decide (a = obj')) as [->|Hobj].
    + rewrite list_lookup_alter, decide_True by done.
      by destruct (objects w !! obj') as [[]|].
    + by rewrite list_lookup_alter_ne.
  - rewrite lookup_bone_upd_bones. simpl.
    destruct (decide (a' = a)) as [->|Ha]; [|done].
    unfold lookup_bone. simpl.
    destruct (objects w !! a) as [o|]; simpl; [|done].
    destruct (pose_bones o) as [bs|]; simpl; [|done].
    rewrite list_lookup_alter_ne; [done|]. intros ->. by apply Hne.
Qed.

(** Assigning a valid name that no other item of the collection has: the
    host stores it as given. *)
Lemma set_item_name_free (host : Host) (it : item) (n old : string) (w : World) :
  keeps_free_names host → valid_name n →
  (∀ it' old', it' ≠ it → same_collection it it' → item_name w it' = Some old' →
               old' ≠ n) →
  item_name w it = Some old →
  set_item_name host it n w = (Ok tt, with_item_name it n w).
Proof.
  intros Hhost Hvalid Hfree Hold. destruct it as [obj|[a j]].
  - unfold set_item_name, set_object_name. rewrite bind_get.
    unfold update_object, modify, with_item_name.
    rewrite unique_name_free; [done..|].
    intros j y Hj Hy Hn. apply (Hfree (object_item j) n); [congruence|done| |done].
    simpl. rewrite Hy. simpl. by f_equal.
  - unfold set_item_name, set_bone_name. rewrite bind_get.
    simpl in Hold. unfold lookup_bone in Hold. simpl in Hold.
    destruct (objects w !! a) as [o|] eqn:Ho; [|done]. simpl in Hold.
    unfold pose_bones in Hold.
    destruct (String.eqb (Object.type o) "ARMATURE") eqn:Hty; [|done].
    cbn [fst snd]. unfold update_bone, update_object, modify, with_item_name.
    cbn [fst snd]. rewrite Ho. rewrite unique_name_free; [done..|].
    intros j' y Hj Hy Hn. apply (Hfree (bone_item (a, j')) n); [congruence|done| |done].
    simpl. unfold lookup_bone. simpl. rewrite Ho. simpl. unfold pose_bones.
    rewrite Hty. simpl. rewrite Hy. simpl. by f_equal.
Qed.

(** The loop renames every item of a list without repetition, as long as no
    substitution raises and the new names are names the host keeps. *)
Lemma rename_loop (host : Host) (re : regex host) (items : list item) :
  keeps_free_names host →
  NoDup items →
  ∀ w,
    (∀ it old, it ∈ items → item_name w it = Some old →
               is_Some (re_sub host re (adh_regex_replacement_string w) old)) →
    (∀ it, it ∈ items → is_Some (item_name w it)) →
    (∀ it old new, it ∈ items → item_name w it = Some old →
       re_sub host re (adh_regex_replacement_string w) old = Some new →
       valid_name new
       ∧ ∀ it' old', it' ≠ it → same_collection it it' → item_name w it' = Some old' →
           old' ≠ new
           ∧ (it' ∈ items → ∀ new',
                re_sub host re (adh_regex_replacement_string w) old' = Some new' →
                new' ≠ new)) →
    ∃ w',
      for_each items (λ item,
        let* w := get in
        let* old := of_option ReferenceError (item_name w item) in
        let* new := of_option re_error
                      (re_sub host re (adh_regex_replacement_string w) old) in
        set_item_name host item new) w = (Ok tt, w')
      ∧ mode w' = mode w
      ∧ (∀ it, it ∈ items → renamed host re w w' it)
      ∧ (∀ it, it ∉ items → item_name w' it = item_name w it).
Proof.
  intros Hhost. induction 1 as [|it items Hit Hnd IH]; intros w Hsub Hnames Hfree.
  - exists w. simpl. repeat split; try done. by intros it ?%elem_of_nil.
  - destruct (Hnames it) as [old Hold]; [by left|].
    destruct (Hsub it old) as [new Hnew]; [by left|done|].
    destruct (Hfree it old new) as [Hvalid Hothers]; [by left|done..|].
    set (w1 := with_item_name it new w).
    assert (set_item_name host it new w = (Ok tt, w1)) as Hset.
    { apply (set_item_name_free host it new old); try done.
      intros it' old' Hne Hsame Hold'. by destruct (Hothers it' old'). }
    assert (adh_regex_replacement_string w1 = adh_regex_replacement_string w
            ∧ mode w1 = mode w) as (Hrepl & Hmode).
    { unfold w1. by destruct it as [?|[? ?]]. }
    destruct (IH w1) as (w' & Hloop & Hmode' & Hin & Hnotin).
    { intros it' old' Hit' Hold'. rewrite Hrepl. apply (Hsub it' old'); [by right|].
      unfold w1 in Hold'. rewrite item_name_with_ne in Hold'; [done|].
      by intros ->. }
    { intros it' Hit'. unfold w1. rewrite item_name_with_ne; [|by intros ->].
      apply Hnames. by right. }
    { intros it2 old2 new2 Hit2 Hold2 Hnew2. rewrite Hrepl in Hnew2.
      assert (it ≠ it2) as Hne2 by (by intros ->).
      unfold w1 in Hold2. rewrite item_name_with_ne in Hold2 by done.
      destruct (Hfree it2 old2 new2) as [Hvalid2 Hothers2]; [by right|done..|].
      split; [done|]. intros it' old' Hne' Hsame' Hold'.
      destruct (decide (it' = it)) as [->|Hne].
      - unfold w1 in Hold'. rewrite (item_name_with_eq it new old) in Hold' by done.
        injection Hold' as <-.
        destruct (Hothers2 it old) as [_ Hnew']; [done..|].
        split; [|by intros ?]. apply (Hnew' (list_elem_of_here _ _) new). done.
      - unfold w1 in Hold'. rewrite item_name_with_ne in Hold' by done.
        destruct (Hothers2 it' old') as [Hold'' Hnew'']; [done..|].
        split; [done|]. intros Hin' new'. rewrite Hrepl. apply Hnew''. by right. }
    exists w'. split; [|split; [congruence|split]].
    + cbn [for_each].
      rewrite (bind_ok _ _ tt w w1); [exact Hloop|].
      rewrite bind_get. rewrite (bind_of_option _ _ old) by done.
      by rewrite (bind_of_option _ _ new).
    + intros it' [->|Hit']%elem_of_cons.
      * exists old, new. split; [done|]. split; [done|].
        rewrite Hnotin by done. by eapply item_name_with_eq.
      * destruct (Hin it' Hit') as (old' & new' & Hold' & Hnew' & Hafter).
        exists old', new'. rewrite <- Hrepl.
        unfold w1 in Hold'. rewrite item_name_with_ne in Hold' by by intros ->.
        done.
    + intros it' Hit'. apply not_elem_of_cons in Hit' as [Hne Hit'].
      rewrite Hnotin by done. by apply item_name_with_ne.
Qed.

Lemma item_name_area_redraw (v : bool) (w : World) (it : item) :
  item_name (set_area_redraw v w) it = item_name w it.
Proof. by destruct it. Qed.

(** When the mode selects a list of items, nothing raises and the host keeps
    the new names, the operator renames the items of the list. *)
Lemma execute_renames (host : Host) (re : regex host) (w : World)
    (items : list item) :
  re_compile host (adh_regex_search_pattern w) = Some re →
  substitution_succeeds host re w →
  keeps_free_names host →
  new_names_free host re w →
  item_list w = Some (Some items) →
  NoDup items →
  (∀ it, it ∈ items → is_Some (item_name w it)) →
  let r := execute host w in
  r.1 = Ok FINISHED ∧ ∀ it, it ∈ items → renamed host re w r.2 it.
Proof.
  intros Hre Hsub Hhost Hfree Hitems Hnd Hnames. cbv zeta.
  destruct (rename_loop host re items Hhost Hnd w) as (w' & Hloop & Hmode & Hin & _).
  { intros it old. by apply Hsub. }
  { done. }
  { intros it old new. by apply Hfree. }
  assert (execute host w =
          (Ok FINISHED,
           if String.eqb (mode w') "POSE" then set_area_redraw true w' else w'))
    as ->.
  { unfold execute. rewrite bind_get.
    rewrite (bind_of_option _ _ re) by done. rewrite Hitems.
    unfold iterable. rewrite (bind_of_option _ _ items) by done.
    rewrite (bind_ok _ _ tt w w') by exact Hloop.
    rewrite bind_get. by destruct (String.eqb (mode w') "POSE"). }
  split; [done|]. simpl.
  intros it Hit. destruct (Hin it Hit) as (old & new & ? & ? & ?).
  exists old, new. destruct (String.eqb (mode w') "POSE"); [|done].
  by rewrite item_name_area_redraw.
Qed.

Lemma NoDup_object_items (objs : list nat) :
  NoDup objs → NoDup (object_item <$> objs).
Proof. apply NoDup_fmap_2. by intros ?? [=]. Qed.

Lemma NoDup_bone_items (a : nat) (js : list nat) :
  NoDup js → NoDup (bone_item <$> (pair a <$> js)).
Proof.
  intros Hnd. apply NoDup_fmap_2; [by intros ?? [=]|].
  apply NoDup_fmap_2; [by intros ?? [=]|done].
Qed.

Lemma selected_bones_of_Some (w : World) (a : nat) (bones : list bone_ref) :
  selected_bones_of w a = Some bones →
  NoDup (bone_item <$> bones)
  ∧ ∀ bone, bone ∈ bones → is_Some (item_name w (bone_item bone)).
Proof.
  unfold selected_bones_of.
  destruct (objects w !! a) as [o|] eqn:Ho; simpl; [|done].
  destruct (pose_bones o) as [bs|] eqn:Hbs; simpl; [|done].
  intros [= <-]. split; [apply NoDup_bone_items, NoDup_indices_where|].
  intros bone (j & -> & Hj)%list_elem_of_fmap.
  apply elem_of_indices_where in Hj as (b & Hb & _).
  simpl. unfold lookup_bone. simpl. rewrite Ho. simpl. rewrite Hbs. simpl.
  by rewrite Hb.
Qed.

End RenameRegexFacts.

(** C1 as the specification states it, in pose mode on an armature with
    the bones [arm], [leg] and [tail], of which [arm] and [leg] are selected,
    with the pattern [leg] and the replacement [arm].  The substitution makes [arm] of
    [leg]; the armature has a bone of that name, and the host stores
    [arm.001].  The operator returns FINISHED, and the name of the selected
    bone [leg] is not the result of the substitution. *)
Lemma rename_regex_onto_a_taken_name :
  let w := mkWorld example_objects example_datablocks (Some 0) "POSE" (Some 0)
                   (Some 2) "leg" "arm" false rigging_tools in
  let r := ADH_RenameRegex.execute example_host w in
  selected_pose_bones w = Some [(0, 0); (0, 1)]
  ∧ Bone.name <$> lookup_bone w (0, 1) = Some "leg"
  ∧ re_sub example_host "leg" "arm" "leg" = Some "arm"
  ∧ r.1 = Ok FINISHED
  ∧ Bone.name <$> lookup_bone r.2 (0, 1) = Some "arm.001"
  ∧ ¬ renamed example_host "leg" w r.2 (ADH_RenameRegex.bone_item (0, 1)).
Proof.
  cbv zeta. split; [by vm_compute|]. split; [by vm_compute|].
  split; [by vm_compute|]. split; [by vm_compute|]. split; [by vm_compute|].
  intros (old & new & Hold & Hnew & Hafter).
  vm_compute in Hold. injection Hold as <-.
  vm_compute in Hnew. injection Hnew as <-.
  vm_compute in Hafter. discriminate.
Qed.

(** C1, amended.  Let the scene's search pattern compile, let the
    substitution not raise on the names concerned, and let every new name be
    one the host stores as given: not empty, of 63 bytes at most, and
    neither the name nor the new name of another object (of another bone of
    the armature).  In OBJECT mode the operator returns FINISHED and every
    selected object is renamed to the result of substituting the replacement
    string for every match of the pattern in its old name; the same holds
    for every selected pose bone in POSE mode and for every selected edit
    bone in EDIT_ARMATURE mode. *)
Theorem rename_regex_renames_selected_items (host : Host) (w : World)
    (re : regex host) :
  re_compile host (adh_regex_search_pattern w) = Some re →
  substitution_succeeds host re w →
  keeps_free_names host →
  new_names_free host re w →
  let r := ADH_RenameRegex.execute host w in
  (mode w = "OBJECT" →
     r.1 = Ok FINISHED
     ∧ ∀ obj, obj ∈ selected_objects w →
              renamed host re w r.2 (ADH_RenameRegex.object_item obj))
  ∧ (mode w = "POSE" →
     ∀ bones, selected_pose_bones w = Some bones →
       r.1 = Ok FINISHED
       ∧ ∀ bone, bone ∈ bones →
                 renamed host re w r.2 (ADH_RenameRegex.bone_item bone))
  ∧ (mode w = "EDIT_ARMATURE" →
     ∀ bones, selected_bones w = Some bones →
       r.1 = Ok FINISHED
       ∧ ∀ bone, bone ∈ bones →
                 renamed host re w r.2 (ADH_RenameRegex.bone_item bone)).
Proof.
  intros Hre Hsub Hhost Hfree. cbv zeta. split; [|split].
  - intros Hmode.
    destruct (RenameRegexFacts.execute_renames host re w
                (ADH_RenameRegex.object_item <$> selected_objects w))
      as [Hfin Hall]; try done.
    + unfold ADH_RenameRegex.item_list. by rewrite Hmode.
    + apply RenameRegexFacts.NoDup_object_items, NoDup_indices_where.
    + intros it (obj & -> & Hobj)%list_elem_of_fmap.
      apply elem_of_indices_where in Hobj as (o & Ho & _). simpl. by rewrite Ho.
    + split; [done|]. intros obj Hobj. apply Hall.
      apply list_elem_of_fmap. by exists obj.
  - intros Hmode bones Hbones.
    destruct (RenameRegexFacts.execute_renames host re w
                (ADH_RenameRegex.bone_item <$> bones))
      as [Hfin Hall]; try done.
    + unfold ADH_RenameRegex.item_list. by rewrite Hmode, Hbones.
    + unfold selected_pose_bones in Hbones.
      destruct (pose_object w) as [a|]; [|done].
      by apply RenameRegexFacts.selected_bones_of_Some in Hbones as [? _].
    + unfold selected_pose_bones in Hbones.
      destruct (pose_object w) as [a|]; [|done].
      apply RenameRegexFacts.selected_bones_of_Some in Hbones as [_ Hnames].
      intros it (bone & -> & Hbone)%list_elem_of_fmap. by apply Hnames.
    + split; [done|]. intros bone Hbone. apply Hall.
      apply list_elem_of_fmap. by exists bone.
  - intros Hmode bones Hbones.
    destruct (RenameRegexFacts.execute_renames host re w
                (ADH_RenameRegex.bone_item <$> bones))
      as [Hfin Hall]; try done.
    + unfold ADH_RenameRegex.item_list. by rewrite Hmode, Hbones.
    + unfold selected_bones in Hbones. rewrite Hmode in Hbones. simpl in Hbones.
      destruct (active_object w) as [a|]; [|done].
      by apply RenameRegexFacts.selected_bones_of_Some in Hbones as [? _].
    + unfold selected_bones in Hbones. rewrite Hmode in Hbones. simpl in Hbones.
      destruct (active_object w) as [a|]; [|done].
      apply RenameRegexFacts.selected_bones_of_Some in Hbones as [_ Hnames].
      intros it (bone & -> & Hbone)%list_elem_of_fmap. by apply Hnames.
    + split; [done|]. intros bone Hbone. apply Hall.
      apply list_elem_of_fmap. by exists bone.
Qed.

(** In the example scene the bones [arm] and [leg] are selected and [leg] is
    to become [shin]: no bone of the armature has or gets that name. *)
Lemma example_new_names_free : new_names_free example_host "leg" example_world.
Proof.
  intros items it old new Hitems Hit Hold Hnew.
  vm_compute in Hitems. injection Hitems as <-.
  assert (∀ j old', ADH_RenameRegex.item_name example_world
                      (ADH_RenameRegex.bone_item (0, j)) = Some old' →
            (j = 0 ∧ old' = "arm") ∨ (j = 1 ∧ old' = "leg") ∨ (j = 2 ∧ old' = "tail"))
    as Hbones.
  { intros [|[|[|j]]] old' H; vm_compute in H; [| | |done]; injection H as <-; auto. }
  apply elem_of_cons in Hit as [->|Hit]; [|apply elem_of_cons in Hit as [->|Hit]];
    [| |by apply elem_of_nil in Hit];
    vm_compute in Hold; injection Hold as <-;
    vm_compute in Hnew; injection Hnew as <-;
    (split; [split; [done|simpl; lia]|]);
    intros [obj|[a j]] old' Hne Hsame Hold'; try done;
    simpl in Hsame; subst a;
    destruct (Hbones j old' Hold') as [[-> ->]|[[-> ->]|[-> ->]]]; try done;
    (split; [done|]); intros _ new' Hnew'; vm_compute in Hnew';
    by injection Hnew' as <-.
Qed.

Lemma rename_regex_renames_selected_items_witness :
  re_compile example_host (adh_regex_search_pattern example_world) = Some "leg"
  ∧ mode example_world = "POSE"
  ∧ selected_pose_bones example_world = Some [(0, 0); (0, 1)]
  ∧ let r := ADH_RenameRegex.execute example_host example_world in
    r.1 = Ok FINISHED
    ∧ Bone.name <$> lookup_bone r.2 (0, 0) = Some "arm"
    ∧ Bone.name <$> lookup_bone r.2 (0, 1) = Some "shin".
Proof.
  split; [done|]. split; [done|]. split; [by vm_compute|].
  destruct (rename_regex_renames_selected_items example_host example_world "leg")
    as (_ & Hpose & _).
  { done. }
  { intros items it old _ _ _. by eexists. }
  { exact example_host_keeps_free_names. }
  { exact example_new_names_free. }
  destruct (Hpose eq_refl [(0, 0); (0, 1)]) as [Hfin Hall]; [by vm_compute|].
  cbv zeta. split; [exact Hfin|]. split.
  - destruct (Hall (0, 0)) as (old & new & Hold & Hnew & Hafter); [by left|].
    injection Hold as <-. injection Hnew as <-. exact Hafter.
  - destruct (Hall (0, 1)) as (old & new & Hold & Hnew & Hafter);
      [by right; left|].
    injection Hold as <-. injection Hnew as <-. exact Hafter.
Defined.

(** ** Create Hook Bones *)

Module HookBonesFacts.

Lemma alter_last {A} (f : A → A) (l : list A) (x : A) :
  alter f (length l) (l ++ [x]) = l ++ [f x].
Proof.
  replace (length l) with (length l + 0) by lia. by rewrite alter_app_r.
Qed.

Lemma fmap_indices_from {A} (d : A) (P : A → bool) (pre l : list A) :
  (λ j, default d ((pre ++ l) !! j)) <$> indices_from P (length pre) l
  = filter (λ x, P x = true) l.
Proof.
  revert pre. induction l as [|x l IH]; intros pre; simpl; [done|].
  rewrite filter_cons.
  assert ((λ j, default d ((pre ++ x :: l) !! j)) <$> indices_from P (S (length pre)) l
          = filter (λ x, P x = true) l) as IH'.
  { specialize (IH (pre ++ [x])).
    rewrite length_app, <- (assoc_L (++)) in IH. simpl in IH.
    by rewrite Nat.add_1_r in IH. }
  destruct (P x) eqn:HP.
  - rewrite decide_True by done. rewrite fmap_cons, IH'. f_equal.
    by rewrite list_lookup_middle.
  - by rewrite decide_False.
Qed.

(** Reading the bones at the selected indices gives the selected bones. *)
Lemma fmap_indices_where {A} (d : A) (P : A → bool) (l : list A) :
  (λ j, default d (l !! j)) <$> indices_where P l = filter (λ x, P x = true) l.
Proof. apply (fmap_indices_from d P []). Qed.

Lemma mode_set_armature (m m' : string) (pose : option nat) (a : nat) (o : Object.t)
    (w : World) :
  active_object w = Some a →
  objects w !! a = Some o →
  Object.type o = "ARMATURE" →
  (m = "OBJECT" ∧ m' = "OBJECT" ∧ pose = None
   ∨ m = "EDIT" ∧ m' = "EDIT_ARMATURE" ∧ pose = None
   ∨ m = "POSE" ∧ m' = "POSE" ∧ pose = Some a) →
  mode_set m w = (Ok tt, set_mode m' pose w).
Proof.
  intros Ha Ho Hty Hm. unfold mode_set. rewrite bind_get.
  rewrite (bind_of_option _ _ a) by done.
  unfold the_object. rewrite (bind_ok _ _ o w w).
  2:{ rewrite bind_get. by rewrite Ho. }
  rewrite Hty.
  destruct Hm as [(-> & -> & ->)|[(-> & -> & ->)|(-> & -> & ->)]]; done.
Qed.

(** One round of the first loop: a hook is appended to the armature. *)
Lemma new_hook_body (host : Host) (hook_layers : list bool) (a j : nat)
    (o : Object.t) (b : Bone.t) (w : World) :
  keeps_free_names host →
  valid_name ("hook-" +:+ Bone.name b) →
  "hook-" +:+ Bone.name b ∉ Bone.name <$> Object.bones o →
  active_object w = Some a →
  objects w !! a = Some o →
  Object.type o = "ARMATURE" →
  Object.bones o !! j = Some b →
  (let* b := the_bone (a, j) in
   let hook_name := "hook-" +:+ Bone.name b in
   let* a := context_active_object in
   let* hook := edit_bones_new host a hook_name in
   update_bone hook (Bone.set_head (Bone.head b)) >>
   update_bone hook (Bone.set_tail (Bone.tail b)) >>
   update_bone hook (Bone.set_bbone_x (Bone.bbone_x b / 2)%float) >>
   update_bone hook (Bone.set_bbone_z (Bone.bbone_z b / 2)%float) >>
   update_bone hook (Bone.set_layers hook_layers) >>
   update_bone hook (Bone.set_roll (Bone.roll b))) w
  = (Ok tt,
     upd_objects (alter (Object.upd_bones (λ bs, bs ++ [hook_bone hook_layers b])) a) w).
Proof.
  intros Hhost Hvalid Hnew Ha Ho Hty Hj.
  assert (lookup_bone w (a, j) = Some b) as Hb.
  { apply lookup_bone_Some. exists o. unfold pose_bones. by rewrite Hty. }
  unfold the_bone. rewrite (bind_ok _ _ b w w).
  2:{ rewrite bind_get. by rewrite Hb. }
  cbv zeta. unfold context_active_object. rewrite (bind_ok _ _ a w w).
  2:{ rewrite bind_get. by rewrite Ha. }
  unfold edit_bones_new, the_object.
  rewrite (bind_ok _ _ (a, length (Object.bones o)) w
             (upd_objects (alter (Object.upd_bones
                (λ bs, bs ++ [Bone.new ("hook-" +:+ Bone.name b)])) a) w)).
  2:{ rewrite (bind_ok _ _ o w w).
      - cbv zeta. by rewrite unique_name_new.
      - rewrite bind_get. by rewrite Ho. }
  unfold update_bone, update_object. rewrite !bind_modify. unfold modify.
  f_equal. unfold upd_objects. simpl. f_equal.
  rewrite !list_alter_alter_eq. apply list_alter_ext; [|done].
  intros x Hx. assert (x = o) as -> by congruence.
  unfold Object.upd_bones. simpl. f_equal.
  rewrite !list_alter_alter_eq. by rewrite alter_last.
Qed.

Lemma hook_name_inj (s1 s2 : string) : "hook-" +:+ s1 = "hook-" +:+ s2 → s1 = s2.
Proof. simpl. by intros [=]. Qed.

(** The first loop, with the hooks of the bones already gone through in
    [ready]: the name of every hook still to come is free, the host stores
    it as given, and the hooks are appended in order. *)
Lemma new_hooks_loop (host : Host) (hook_layers : list bool) (a : nat)
    (bs0 : list Bone.t) :
  keeps_free_names host →
  hook_names_free bs0 →
  (∀ b, b ∈ bs0 → Bone.select b = true → valid_name ("hook-" +:+ Bone.name b)) →
  ∀ (js : list nat) (pending ready : list Bone.t) (w : World) (o : Object.t),
    Forall2 (λ j b, bs0 !! j = Some b ∧ Bone.select b = true) js pending →
    NoDup (Bone.name <$> pending) →
    (∀ h b, h ∈ ready → b ∈ pending → Bone.name h ≠ "hook-" +:+ Bone.name b) →
    active_object w = Some a →
    objects w !! a = Some o →
    Object.type o = "ARMATURE" →
    Object.bones o = bs0 ++ ready →
    for_each (pair a <$> js) (λ bone,
      let* b := the_bone bone in
      let hook_name := "hook-" +:+ Bone.name b in
      let* a := context_active_object in
      let* hook := edit_bones_new host a hook_name in
      update_bone hook (Bone.set_head (Bone.head b)) >>
      update_bone hook (Bone.set_tail (Bone.tail b)) >>
      update_bone hook (Bone.set_bbone_x (Bone.bbone_x b / 2)%float) >>
      update_bone hook (Bone.set_bbone_z (Bone.bbone_z b / 2)%float) >>
      update_bone hook (Bone.set_layers hook_layers) >>
      update_bone hook (Bone.set_roll (Bone.roll b))) w
    = (Ok tt,
       upd_objects
         (alter (Object.upd_bones
                   (λ _, bs0 ++ ready ++ (hook_bone hook_layers <$> pending))) a) w).
Proof.
  intros Hhost Hfree Hvalid js pending. revert js.
  induction pending as [|b pending IH]; intros js ready w o Hjs Hnd Hready Ha Ho Hty Hbs.
  - apply Forall2_nil_inv_r in Hjs as ->. simpl. unfold ret. f_equal.
    symmetry. apply upd_objects_id. apply list_alter_same.
    intros x Hx. assert (x = o) as -> by congruence.
    apply upd_bones_id. by rewrite Hbs, app_nil_r.
  - apply Forall2_cons_inv_r in Hjs as (j & js' & [Hj Hsel] & Hjs & ->).
    rewrite fmap_cons in Hnd. apply NoDup_cons in Hnd as [Hb Hnd].
    assert (b ∈ bs0) as Hin by by eapply list_elem_of_lookup_2.
    assert (Object.bones o !! j = Some b) as Hj'.
    { rewrite Hbs. by apply lookup_app_l_Some. }
    assert ("hook-" +:+ Bone.name b ∉ Bone.name <$> Object.bones o) as Hnew.
    { rewrite Hbs. intros (x & Hx & [Hx'|Hx']%elem_of_app)%list_elem_of_fmap.
      - by apply (Hfree b x).
      - apply (Hready x b); [done | by left | done]. }
    rewrite fmap_cons. cbn [for_each].
    erewrite bind_ok; [|by eapply (new_hook_body host hook_layers a j o b); auto].
    set (o1 := Object.upd_bones (λ bs, bs ++ [hook_bone hook_layers b]) o).
    erewrite (IH js' (ready ++ [hook_bone hook_layers b]) _ o1).
    + f_equal. unfold upd_objects. simpl. f_equal.
      rewrite list_alter_alter_eq. apply list_alter_ext; [|done].
      intros x _. unfold Object.upd_bones. simpl. f_equal.
      by rewrite <- !(assoc_L (++)).
    + done.
    + done.
    + intros h b' [Hh'| ->%list_elem_of_singleton]%elem_of_app Hb'.
      * apply Hready; [done | by right].
      * simpl. intros Heq%hook_name_inj. apply Hb. rewrite Heq.
        apply list_elem_of_fmap. by exists b'.
    + done.
    + simpl. by rewrite list_lookup_alter, decide_True, Ho.
    + done.
    + unfold o1. simpl. by rewrite Hbs, <- (assoc_L (++)).
Qed.

Lemma bone_index_middle (n : string) (l1 l2 : list Bone.t) (h : Bone.t) :
  (∀ x, x ∈ l1 → Bone.name x ≠ n) → Bone.name h = n →
  bone_index n (l1 ++ h :: l2) = Some (length l1).
Proof.
  intros Hl1 Hh. unfold bone_index.
  destruct (list_find (λ b, Bone.name b = n) (l1 ++ h :: l2)) as [[i x]|] eqn:Hfind.
  - apply list_find_Some in Hfind as (Hi & Hn & Hbefore). simpl. f_equal.
    destruct (Nat.lt_trichotomy i (length l1)) as [Hlt|[->|Hgt]]; [|done|].
    + rewrite lookup_app_l in Hi by done.
      destruct (Hl1 x); [by eapply list_elem_of_lookup_2 | done].
    + destruct (Hbefore (length l1) h); [by rewrite list_lookup_middle|done..].
  - apply list_find_None in Hfind. rewrite Forall_app, Forall_cons in Hfind.
    by destruct Hfind as (_ & ? & _).
Qed.

(** One round of the second loop: the hook found by name gets its
    constraint. *)
Lemma constrain_hook_body (a j k : nat) (o : Object.t) (b h : Bone.t) (w : World) :
  active_object w = Some a →
  objects w !! a = Some o →
  Object.type o = "ARMATURE" →
  Object.bones o !! j = Some b →
  bone_index ("hook-" +:+ Bone.name b) (Object.bones o) = Some k →
  Object.bones o !! k = Some h →
  (let* b := the_bone (a, j) in
   let* a := context_active_object in
   let* hook := pose_bone_by_name a ("hook-" +:+ Bone.name b) in
   let* ct_constraint := constraints_new hook "COPY_TRANSFORMS" in
   update_constraint hook ct_constraint (Constraint.set_owner_space "LOCAL") >>
   update_constraint hook ct_constraint (Constraint.set_target_space "LOCAL") >>
   update_constraint hook ct_constraint (Constraint.set_target (Some a)) >>
   update_constraint hook ct_constraint (Constraint.set_subtarget (Bone.name b))) w
  = (Ok tt,
     upd_objects
       (alter (Object.upd_bones
                 (alter (Bone.upd_constraints (λ cs, cs ++ [hook_constraint a b])) k))
              a) w).
Proof.
  intros Ha Ho Hty Hj Hk Hh.
  assert (pose_bones o = Some (Object.bones o)) as Hpose
    by (unfold pose_bones; by rewrite Hty).
  assert (lookup_bone w (a, j) = Some b) as Hb
    by (apply lookup_bone_Some; by exists o).
  assert (lookup_bone w (a, k) = Some h) as Hhook
    by (apply lookup_bone_Some; by exists o).
  unfold the_bone at 1. rewrite (bind_ok _ _ b w w).
  2:{ rewrite bind_get. by rewrite Hb. }
  unfold context_active_object. rewrite (bind_ok _ _ a w w).
  2:{ rewrite bind_get. by rewrite Ha. }
  rewrite (bind_ok _ _ (a, k) w w).
  2:{ unfold pose_bone_by_name, the_object. rewrite (bind_ok _ _ o w w).
      2:{ rewrite bind_get. by rewrite Ho. }
      rewrite (bind_of_option _ _ (Object.bones o)) by done.
      by rewrite (bind_of_option _ _ k). }
  unfold constraints_new, the_bone.
  rewrite (bind_ok _ _ (length (Bone.constraints h)) w
             (upd_objects (alter (Object.upd_bones
                (alter (Bone.upd_constraints
                          (λ cs, cs ++ [Constraint.new "COPY_TRANSFORMS"])) k)) a) w)).
  2:{ rewrite (bind_ok _ _ h w w); [done|]. rewrite bind_get. by rewrite Hhook. }
  unfold update_constraint, update_bone, update_object.
  rewrite !bind_modify. unfold modify.
  f_equal. unfold upd_objects. simpl. f_equal.
  rewrite !list_alter_alter_eq. apply list_alter_ext; [|done].
  intros x Hx. assert (x = o) as -> by congruence.
  unfold Object.upd_bones. simpl. f_equal.
  rewrite !list_alter_alter_eq. apply list_alter_ext; [|done].
  intros y Hy. assert (y = h) as -> by congruence.
  unfold Bone.upd_constraints. simpl. f_equal.
  rewrite !list_alter_alter_eq. by rewrite alter_last.
Qed.

(** The second loop, with the hooks of the bones already gone through in
    [ready]: every hook still to come is found by its name and gets its
    constraint. *)
Lemma constrain_hooks_loop (hook_layers : list bool) (a : nat) (bs0 : list Bone.t) :
  hook_names_free bs0 →
  ∀ (js : list nat) (pending ready : list Bone.t) (w : World) (o : Object.t),
    Forall2 (λ j b, bs0 !! j = Some b ∧ Bone.select b = true) js pending →
    NoDup (Bone.name <$> pending) →
    (∀ h b, h ∈ ready → b ∈ pending → Bone.name h ≠ "hook-" +:+ Bone.name b) →
    active_object w = Some a →
    objects w !! a = Some o →
    Object.type o = "ARMATURE" →
    Object.bones o = bs0 ++ ready ++ (hook_bone hook_layers <$> pending) →
    for_each (pair a <$> js) (λ bone,
      let* b := the_bone bone in
      let* a := context_active_object in
      let* hook := pose_bone_by_name a ("hook-" +:+ Bone.name b) in
      let* ct_constraint := constraints_new hook "COPY_TRANSFORMS" in
      update_constraint hook ct_constraint (Constraint.set_owner_space "LOCAL") >>
      update_constraint hook ct_constraint (Constraint.set_target_space "LOCAL") >>
      update_constraint hook ct_constraint (Constraint.set_target (Some a)) >>
      update_constraint hook ct_constraint (Constraint.set_subtarget (Bone.name b))) w
    = (Ok tt,
       upd_objects
         (alter (Object.upd_bones
                   (λ _, bs0 ++ ready
                         ++ (constrained_hook hook_layers a <$> pending))) a) w).
Proof.
  intros Hfree js pending. revert js.
  induction pending as [|b pending IH]; intros js ready w o Hjs Hnd Hready Ha Ho Hty Hbs.
  - apply Forall2_nil_inv_r in Hjs as ->. simpl. unfold ret. f_equal.
    symmetry. apply upd_objects_id. apply list_alter_same.
    intros x Hx. assert (x = o) as -> by congruence.
    apply upd_bones_id. by rewrite Hbs.
  - apply Forall2_cons_inv_r in Hjs as (j & js' & [Hj Hsel] & Hjs & ->).
    rewrite fmap_cons in Hnd. apply NoDup_cons in Hnd as [Hb Hnd].
    set (k := length bs0 + length ready).
    assert (bone_index ("hook-" +:+ Bone.name b) (Object.bones o) = Some k) as Hk.
    { rewrite Hbs, (assoc_L (++)), fmap_cons. unfold k. rewrite <- length_app.
      apply bone_index_middle; [|done].
      intros x [Hx|Hx]%elem_of_app.
      - apply (Hfree b x); [by eapply list_elem_of_lookup_2 | done..].
      - apply Hready; [done | by left]. }
    assert (Object.bones o !! k = Some (hook_bone hook_layers b)) as Hh.
    { rewrite Hbs, (assoc_L (++)), fmap_cons. unfold k. rewrite <- length_app.
      by rewrite list_lookup_middle. }
    assert (Object.bones o !! j = Some b) as Hj'.
    { rewrite Hbs. by apply lookup_app_l_Some. }
    rewrite fmap_cons. cbn [for_each].
    erewrite bind_ok; [|by eapply (constrain_hook_body a j k o b)].
    set (o1 := Object.upd_bones
                 (alter (Bone.upd_constraints (λ cs, cs ++ [hook_constraint a b])) k) o).
    erewrite (IH js' (ready ++ [constrained_hook hook_layers a b]) _ o1).
    + f_equal. unfold upd_objects. simpl. f_equal.
      rewrite list_alter_alter_eq. apply list_alter_ext; [|done].
      intros x _. unfold Object.upd_bones. simpl. f_equal.
      by rewrite <- !(assoc_L (++)).
    + done.
    + done.
    + intros h b' [Hh'| ->%list_elem_of_singleton]%elem_of_app Hb'.
      * apply Hready; [done | by right].
      * simpl. intros Heq%hook_name_inj. apply Hb. rewrite Heq.
        apply list_elem_of_fmap. by exists b'.
    + done.
    + simpl. by rewrite list_lookup_alter, decide_True, Ho.
    + done.
    + unfold o1. simpl. rewrite Hbs, (assoc_L (++)), fmap_cons.
      unfold k. rewrite <- length_app.
      replace (length (bs0 ++ ready)) with (length (bs0 ++ ready) + 0) by lia.
      rewrite alter_app_r. simpl. by rewrite <- !(assoc_L (++)).
Qed.

Lemma Forall2_indices_where {A} (P : A → bool) (l : list A) :
  Forall2 (λ j x, l !! j = Some x ∧ P x = true)
          (indices_where P l) (filter (λ x, P x = true) l).
Proof.
  destruct l as [|d l']; [constructor|]. set (l := d :: l').
  rewrite <- (fmap_indices_where d P l). apply Forall2_fmap_r.
  apply Forall_Forall2_diag, Forall_forall.
  intros j (x & Hx & HP)%elem_of_indices_where. simpl. by rewrite Hx.
Qed.

Lemma NoDup_names_filter (P : Bone.t → Prop) `{∀ b, Decision (P b)}
    (bs : list Bone.t) :
  NoDup (Bone.name <$> bs) → NoDup (Bone.name <$> filter P bs).
Proof.
  intros Hnd. eapply sublist_NoDup; [exact Hnd|].
  apply fmap_sublist, sublist_filter.
Qed.

Lemma indices_where_hooks (hook_layers : list bool) (bs pending : list Bone.t) :
  indices_where Bone.select (bs ++ (hook_bone hook_layers <$> pending))
  = indices_where Bone.select bs.
Proof.
  unfold indices_where.
  rewrite indices_from_app, (indices_from_none _ (hook_bone hook_layers <$> pending)).
  - by rewrite app_nil_r.
  - by intros x (b & -> & _)%list_elem_of_fmap.
Qed.

(** The whole operator on an armature whose hook names are free. *)
Lemma execute_hooks (host : Host) (hook_layers : list bool) (w : World) (a : nat)
    (o : Object.t) :
  keeps_free_names host →
  active_object w = Some a →
  objects w !! a = Some o →
  Object.type o = "ARMATURE" →
  mode w = "OBJECT" ∨ mode w = "EDIT_ARMATURE" ∨ mode w = "POSE" →
  NoDup (Bone.name <$> Object.bones o) →
  hook_names_free (Object.bones o) →
  (∀ b, b ∈ Object.bones o → Bone.select b = true →
        valid_name ("hook-" +:+ Bone.name b)) →
  ADH_CreateHookBones.execute host hook_layers w =
    (Ok FINISHED,
     set_mode (mode w) (if String.eqb (mode w) "POSE" then Some a else None)
       (upd_objects
          (alter (Object.upd_bones
                    (λ bs, bs ++ (constrained_hook hook_layers a
                                    <$> filter (λ b, Bone.select b = true)
                                               (Object.bones o)))) a) w)).
Proof.
  intros Hhost Ha Ho Hty Hmode Hnd Hfree Hvalid.
  assert (pose_bones o = Some (Object.bones o)) as Hpose
    by (unfold pose_bones; by rewrite Hty).
  set (js := indices_where Bone.select (Object.bones o)).
  set (sel := filter (λ b, Bone.select b = true) (Object.bones o)).
  unfold ADH_CreateHookBones.execute. rewrite bind_get.
  (* into edit mode *)
  set (w1 := set_mode "EDIT_ARMATURE" None w).
  rewrite (bind_ok _ _ tt w w1)
    by (apply (mode_set_armature _ _ _ a o); auto).
  rewrite bind_get.
  assert (selected_bones w1 = Some (pair a <$> js)) as ->.
  { unfold selected_bones, selected_bones_of. simpl. rewrite Ha. simpl.
    rewrite Ho. simpl. by rewrite Hpose. }
  unfold iterable at 1. rewrite (bind_of_option _ _ (pair a <$> js)) by done.
  (* the hooks *)
  set (o2 := Object.upd_bones (λ bs, bs ++ (hook_bone hook_layers <$> sel)) o).
  set (w2 := upd_objects (alter (λ _, o2) a) w1).
  erewrite (bind_ok _ _ tt w1 w2).
  2:{ etrans.
      - apply (new_hooks_loop host hook_layers a (Object.bones o) Hhost Hfree Hvalid
                 js sel [] w1 o); try done.
        + apply Forall2_indices_where.
        + by apply NoDup_names_filter.
        + by intros h b ?%elem_of_nil.
        + by rewrite app_nil_r.
      - f_equal. unfold w2. apply (upd_objects_alter_ext _ _ _ o); done. }
  (* into pose mode *)
  assert (objects w2 !! a = Some o2) as Ho2.
  { unfold w2. simpl. by rewrite list_lookup_alter, decide_True, Ho. }
  set (w3 := set_mode "POSE" (Some a) w2).
  rewrite (bind_ok _ _ tt w2 w3)
    by (apply (mode_set_armature _ _ _ a o2); auto).
  rewrite bind_get.
  assert (selected_pose_bones w3 = Some (pair a <$> js)) as ->.
  { unfold selected_pose_bones, selected_bones_of. simpl.
    rewrite list_lookup_alter, decide_True, Ho by done. simpl.
    unfold pose_bones, o2. simpl. rewrite Hty. simpl.
    by rewrite indices_where_hooks. }
  unfold iterable at 1. rewrite (bind_of_option _ _ (pair a <$> js)) by done.
  (* the constraints *)
  set (o4 := Object.upd_bones
               (λ _, Object.bones o ++ (constrained_hook hook_layers a <$> sel)) o2).
  set (w4 := upd_objects (alter (λ _, o4) a) w3).
  erewrite (bind_ok _ _ tt w3 w4).
  2:{ etrans.
      - apply (constrain_hooks_loop hook_layers a (Object.bones o) Hfree js sel []
                 w3 o2); try done.
        + apply Forall2_indices_where.
        + by apply NoDup_names_filter.
        + by intros h b ?%elem_of_nil.
      - f_equal. unfold w4. apply (upd_objects_alter_ext _ _ _ o2); done. }
  (* back to the mode of before *)
  assert (active_object w4 = Some a) as Ha4 by done.
  assert (objects w4 !! a = Some o4) as Ho4.
  { unfold w4. simpl. rewrite !list_lookup_alter, !decide_True by done.
    by rewrite Ho. }
  assert (Object.type o4 = "ARMATURE") as Hty4 by done.
  assert (∀ m p,
            set_mode m p w4 =
            set_mode m p
              (upd_objects
                 (alter (Object.upd_bones
                           (λ bs, bs ++ (constrained_hook hook_layers a <$> sel))) a)
                 w)) as Hfinal.
  { intros m p. unfold set_mode. simpl. f_equal.
    rewrite !list_alter_alter_eq. apply list_alter_ext; [|done].
    intros x Hx. assert (x = o) as -> by congruence. done. }
  destruct Hmode as [Hm|[Hm|Hm]]; rewrite Hm; simpl.
  - rewrite (bind_ok _ _ tt w4 (set_mode "OBJECT" None w4))
      by (apply (mode_set_armature _ _ _ a o4); auto).
    unfold ret. by rewrite Hfinal.
  - rewrite (bind_ok _ _ tt w4 (set_mode "EDIT_ARMATURE" None w4))
      by (apply (mode_set_armature _ _ _ a o4); auto).
    unfold ret. by rewrite Hfinal.
  - rewrite (bind_ok _ _ tt w4 (set_mode "POSE" (Some a) w4))
      by (apply (mode_set_armature _ _ _ a o4); auto 10).
    unfold ret. by rewrite Hfinal.
Qed.

End HookBonesFacts.

(** C5 on the scene a first run of the operator leaves, in pose mode with
    [arm] and [leg] still selected: the armature has the bones [arm], [leg],
    [tail], [hook-arm] and [hook-leg].  The operator returns FINISHED.  The
    names [hook-arm] and [hook-leg] being taken, the host names the two new
    bones [hook-arm.001] and [hook-leg.001]; the second loop looks the hook
    up by ['hook-'] followed by the bone's name, finds the hooks of the
    first run and gives each a second constraint, and the new bones are left
    with none.  The selected bones have not got the hooks the docstring
    promises. *)
Lemma create_hook_bones_twice :
  let w := hooked_example_world in
  let r := ADH_CreateHookBones.execute example_host
             ADH_CreateHookBones.default_hook_layers w in
  let bones_of (w : World) := Object.bones <$> objects w !! 0 in
  active_object w = Some 0
  ∧ is_type "ARMATURE" w 0 = true
  ∧ mode w = "POSE"
  ∧ selected_pose_bones w = Some [(0, 0); (0, 1)]
  ∧ fmap Bone.name <$> bones_of w
    = Some ["arm"; "leg"; "tail"; "hook-arm"; "hook-leg"]
  ∧ r.1 = Ok FINISHED
  ∧ fmap Bone.name <$> bones_of r.2
    = Some ["arm"; "leg"; "tail"; "hook-arm"; "hook-leg";
            "hook-arm.001"; "hook-leg.001"]
  ∧ fmap (λ b, length (Bone.constraints b)) <$> bones_of r.2
    = Some [0; 0; 0; 2; 2; 0; 0]
  ∧ ¬ creates_constrained_hooks example_host ADH_CreateHookBones.default_hook_layers w.
Proof.
  cbv zeta.
  split; [by vm_compute|]. split; [by vm_compute|]. split; [by vm_compute|].
  split; [by vm_compute|]. split; [by vm_compute|]. split; [by vm_compute|].
  split; [by vm_compute|]. split; [by vm_compute|].
  intros (_ & _ & Hall).
  assert (∃ o, objects hooked_example_world !! 0 = Some o
               ∧ length (Object.bones o) = 5
               ∧ example_bone "arm" true 0 None ∈ Object.bones o)
    as (o & Ho & Hlen & Hin).
  { eexists. split; [vm_compute; reflexivity|]. split; [done | by left]. }
  destruct (Hall 0 o (example_bone "arm" true 0 None)) as (k & Hk & Hlook);
    [by vm_compute | done..|].
  rewrite Hlen in Hk.
  do 5 (destruct k as [|k]; [lia|]).
  destruct k as [|[|k]]; vm_compute in Hlook; discriminate.
Qed.

(** Create Hook Bones where the hook names are free.  Let the active object
    be an armature in object, edit or pose mode, with distinct bone names,
    let no bone of it have the name ['hook-'] followed by the name of a
    selected bone, and let these names be names the host stores as given
    (63 bytes at most).  Then the operator returns FINISHED with the mode of
    before restored, and for every selected bone it has created a new bone
    named ['hook-'] followed by the bone's name, with the bone's head, tail
    and roll, half its [bbone_x] and [bbone_z], the operator's Hook Layers as
    layers, and one constraint: COPY_TRANSFORMS with owner and target space
    LOCAL, targeting the bone in the active armature. *)
Theorem create_hook_bones_when_names_free (host : Host) (hook_layers : list bool)
    (w : World) (a : nat) (o : Object.t) :
  keeps_free_names host →
  active_object w = Some a →
  objects w !! a = Some o →
  Object.type o = "ARMATURE" →
  mode w = "OBJECT" ∨ mode w = "EDIT_ARMATURE" ∨ mode w = "POSE" →
  NoDup (Bone.name <$> Object.bones o) →
  hook_names_free (Object.bones o) →
  (∀ b, b ∈ Object.bones o → Bone.select b = true →
        valid_name ("hook-" +:+ Bone.name b)) →
  creates_constrained_hooks host hook_layers w
  ∧ ∀ b, let h := constrained_hook hook_layers a b in
         Bone.name h = "hook-" +:+ Bone.name b
         ∧ Bone.head h = Bone.head b
         ∧ Bone.tail h = Bone.tail b
         ∧ Bone.roll h = Bone.roll b
         ∧ Bone.bbone_x h = (Bone.bbone_x b / 2)%float
         ∧ Bone.bbone_z h = (Bone.bbone_z b / 2)%float
         ∧ Bone.layers h = hook_layers
         ∧ Bone.constraints h
           = [Constraint.mk "COPY_TRANSFORMS" "LOCAL" "LOCAL" (Some a) (Bone.name b)].
Proof.
  intros Hhost Ha Ho Hty Hmode Hnd Hfree Hvalid. split; [|done].
  unfold creates_constrained_hooks. cbv zeta.
  rewrite (HookBonesFacts.execute_hooks host hook_layers w a o) by done. simpl.
  split; [done|]. split; [done|].
  intros a' o' b Ha' Ho' Hb Hsel.
  assert (a' = a) as -> by congruence. assert (o' = o) as -> by congruence.
  assert (b ∈ filter (λ b, Bone.select b = true) (Object.bones o)) as Hin
    by by apply list_elem_of_filter.
  apply list_elem_of_lookup in Hin as [p Hp].
  exists (length (Object.bones o) + p). split; [lia|].
  apply lookup_bone_Some. simpl.
  rewrite list_lookup_alter, decide_True, Ho by done. simpl.
  eexists. split; [done|]. simpl. split.
  - unfold pose_bones. simpl. by rewrite Hty.
  - rewrite lookup_app_r by lia.
    replace (length (Object.bones o) + p - length (Object.bones o)) with p by lia.
    by rewrite list_lookup_fmap, Hp.
Qed.

Lemma create_hook_bones_when_names_free_witness :
  creates_constrained_hooks example_host ADH_CreateHookBones.default_hook_layers
    example_world
  ∧ (λ o, Bone.name <$> Object.bones o) <$> objects hooked_example_world !! 0
    = Some ["arm"; "leg"; "tail"; "hook-arm"; "hook-leg"].
Proof.
  split; [|by vm_compute].
  eapply (create_hook_bones_when_names_free example_host _ example_world 0).
  - exact example_host_keeps_free_names.
  - done.
  - vm_compute. reflexivity.
  - done.
  - by right; right.
  - apply (bool_decide_unpack _). by vm_compute.
  - intros b b' Hb Hsel Hb'. simpl in Hb, Hb'.
    repeat (apply elem_of_cons in Hb as [->|Hb]); [| |done|by apply elem_of_nil in Hb];
    repeat (apply elem_of_cons in Hb' as [->|Hb']);
      try (by apply elem_of_nil in Hb'); done.
  - intros b Hb Hsel. simpl in Hb.
    repeat (apply elem_of_cons in Hb as [->|Hb]); [| |done|by apply elem_of_nil in Hb];
      (split; [done|simpl; lia]).
Defined.

(** ** Where the operators raise *)

(** A search pattern that does not compile: Rename Regex raises [re.error]
    before it looks at the mode, and renames nothing. *)
Lemma rename_regex_raises_on_bad_pattern (host : Host) (w : World) :
  re_compile host (adh_regex_search_pattern w) = None →
  ADH_RenameRegex.execute host w = (Raise re_error, w).
Proof.
  intros Hre. unfold ADH_RenameRegex.execute. rewrite bind_get.
  unfold bind, of_option. by rewrite Hre.
Qed.

Lemma rename_regex_raises_on_bad_pattern_witness :
  let w := mkWorld example_objects example_datablocks (Some 0) "POSE" (Some 0)
                   (Some 2) "(" "shin" false rigging_tools in
  re_compile example_host (adh_regex_search_pattern w) = None
  ∧ ADH_RenameRegex.execute example_host w = (Raise re_error, w).
Proof.
  cbv zeta. split; [done|]. by apply rename_regex_raises_on_bad_pattern.
Defined.

(** An active object that is not among the selected objects: Copy Custom
    Shapes raises [ValueError] when it takes the source off the list of
    destinations, and copies nothing. *)
Lemma copy_custom_shapes_raises_when_source_not_selected (w : World) :
  (∀ s, active_object w = Some s → s ∉ selected_objects w) →
  ADH_CopyCustomShapes.execute w = (Raise ValueError, w).
Proof.
  intros Hactive. unfold ADH_CopyCustomShapes.execute. rewrite bind_get.
  destruct (active_object w) as [s|]; [|done].
  unfold bind, list_remove. by rewrite decide_False by by apply Hactive.
Qed.

Lemma copy_custom_shapes_raises_when_source_not_selected_witness :
  let w := mkWorld [ example_armature "rig" true 0 [example_bone "arm" true 0 (Some 2)];
                     example_armature "rig.copy" true 1 [example_bone "arm" true 0 None];
                     example_mesh "prop" false 2 [] [] ]
                   example_datablocks (Some 2) "OBJECT" None None
                   "leg" "shin" false rigging_tools in
  ADH_CopyCustomShapes.poll w = true
  ∧ ADH_CopyCustomShapes.execute w = (Raise ValueError, w).
Proof.
  cbv zeta. split; [by vm_compute|].
  apply copy_custom_shapes_raises_when_source_not_selected.
  intros s [= <-]. apply (bool_decide_unpack _). by vm_compute.
Defined.

(** ** Display Wire For Skinned Objects *)

Module DisplayWireFacts.
Import ADH_DisplayWireForSkinnedObjects.

Lemma has_armature_mod_skinned (armature_obj : option nat) (o : Object.t) :
  has_armature_mod armature_obj o = true ↔ skinned_by armature_obj o.
Proof.
  unfold has_armature_mod, skinned_by, armature_mod.
  rewrite negb_true_iff, bool_decide_eq_false. split.
  - intros Hne. destruct (filter _ _) as [|m ms] eqn:Hf; [done|].
    assert (m ∈ m :: ms) as Hm by by left.
    rewrite <- Hf in Hm. apply list_elem_of_filter in Hm as [[? ?] ?].
    by exists m.
  - intros (m & Hm & Hty & Hobj) Hnil.
    assert (m ∈ filter (λ m, Modifier.type m = "ARMATURE"
                             ∧ Modifier.object m = armature_obj)
                       (Object.modifiers o)) as Hin
      by by apply list_elem_of_filter.
    rewrite Hnil in Hin. by apply elem_of_nil in Hin.
Qed.

Lemma affected_objects_indices (w : World) (armature_obj : option nat) :
  filter (λ obj, is_affected w armature_obj obj = true) (selectable_objects w) =
    indices_where (λ o, Object.linked o && has_armature_mod armature_obj o) (objects w).
Proof.
  apply filter_indices_from. intros i x Hx. unfold is_affected. simpl. by rewrite Hx.
Qed.

(** The operator sets [show_wire] on the selectable objects that pass the
    test and leaves everything else as it was. *)
Lemma display_wire_execute (show_wire : bool) (w : World) :
  execute show_wire w =
    (Ok FINISHED,
     upd_objects
       (fmap (λ o, if Object.linked o && has_armature_mod (active_object w) o
                   then Object.set_show_wire show_wire o else o)) w).
Proof.
  unfold execute. unfold bind at 1, get. unfold bind at 1.
  rewrite (for_each_alter_objects (λ _, Object.set_show_wire show_wire)).
  - unfold ret. f_equal. unfold upd_objects. f_equal.
    rewrite affected_objects_indices. apply foldl_alter_indices_where.
  - done.
  - intros i. rewrite affected_objects_indices.
    intros (o & Ho & _)%elem_of_indices_where. by eapply lookup_lt_Some.
Qed.

End DisplayWireFacts.

(** Display Wire For Skinned Objects returns FINISHED on every scene.  It
    gives [show_wire] the value of the operator's property on every
    selectable object that has an ARMATURE modifier whose object is the
    active object, and changes nothing else: not another attribute of those
    objects, not an object that is not selectable or not skinned by the
    active object, and nothing of the scene besides the objects. *)
Theorem display_wire_marks_objects_skinned_by_active (show_wire : bool) (w : World) :
  let r := ADH_DisplayWireForSkinnedObjects.execute show_wire w in
  r.1 = Ok FINISHED
  ∧ same_but_objects w r.2
  ∧ ∀ obj o, objects w !! obj = Some o →
      (obj ∈ selectable_objects w → skinned_by (active_object w) o →
       objects r.2 !! obj = Some (Object.set_show_wire show_wire o))
      ∧ (obj ∉ selectable_objects w ∨ ¬ skinned_by (active_object w) o →
         objects r.2 !! obj = Some o).
Proof.
  cbv zeta. rewrite DisplayWireFacts.display_wire_execute. simpl.
  split; [done|]. split; [by destruct w|].
  intros obj o Ho. rewrite list_lookup_fmap, Ho. simpl. split.
  - intros (o' & Ho' & Hl)%elem_of_indices_where Hsk.
    assert (o' = o) as -> by congruence. rewrite Hl. simpl.
    by rewrite (proj2 (DisplayWireFacts.has_armature_mod_skinned _ _) Hsk).
  - intros Hnot.
    destruct (Object.linked o) eqn:Hl; simpl; [|done].
    destruct (has_armature_mod (active_object w) o) eqn:Hh; [|done].
    destruct Hnot as [Hnot|Hnot]; destruct Hnot.
    + apply elem_of_indices_where. by exists o.
    + by apply DisplayWireFacts.has_armature_mod_skinned.
Qed.

(** The objects the operator touches do not depend on what it sets, so of
    two runs in a row the second decides: running with one value and then
    with another leaves the scene as a single run with the second value
    does.  In particular a second run with the same value changes nothing. *)
Theorem display_wire_last_run_decides (v1 v2 : bool) (w : World) :
  let r1 := ADH_DisplayWireForSkinnedObjects.execute v1 w in
  ADH_DisplayWireForSkinnedObjects.execute v2 r1.2
  = ADH_DisplayWireForSkinnedObjects.execute v2 w.
Proof.
  cbv zeta. rewrite !DisplayWireFacts.display_wire_execute.
  cbn [fst snd]. f_equal. unfold upd_objects. cbn [objects active_object]. f_equal.
  rewrite <- list_fmap_compose. apply list_fmap_ext. intros i o _.
  unfold compose.
  destruct (Object.linked o && has_armature_mod (active_object w) o) eqn:Hc;
    [|by rewrite Hc].
  change (Object.linked (Object.set_show_wire v1 o)) with (Object.linked o).
  change (has_armature_mod (active_object w) (Object.set_show_wire v1 o))
    with (has_armature_mod (active_object w) o).
  by rewrite Hc.
Qed.

(** ** Sync Object Data Name To Object *)

Module SyncDataNameFacts.
Import ADH_SyncObjectDataNameToObject.

Lemma foldl_upd_datablocks {X} (h : X → list ObData.t → list ObData.t) (xs : list X)
    (w : World) :
  foldl (λ w x, upd_datablocks (h x) w) w xs =
    upd_datablocks (λ ds, foldl (λ ds x, h x ds) ds xs) w.
Proof.
  revert w. induction xs as [|x xs IH]; intros w; simpl.
  - by destruct w.
  - by rewrite IH.
Qed.

Lemma foldl_ext_eq {A B} (f g : A → B → A) (xs : list B) (a : A) :
  (∀ a x, f a x = g a x) → foldl f a xs = foldl g a xs.
Proof.
  intros Hfg. revert a. induction xs as [|x xs IH]; intros a; [done|].
  simpl. by rewrite Hfg, IH.
Qed.

Lemma filter_none {A} (P : A → Prop) `{∀ x, Decision (P x)} (l : list A) :
  (∀ x, x ∈ l → ¬ P x) → filter P l = [].
Proof.
  induction l as [|y l IH]; intros Hl; [done|].
  rewrite filter_cons, decide_False by (apply Hl; by left).
  apply IH. intros x Hx. apply Hl. by right.
Qed.

Lemma foldl_omap {A B C} (f : A → option B) (g : C → B → C) (xs : list A) (c : C) :
  foldl g c (omap f xs) =
    foldl (λ c x, match f x with Some b => g c b | None => c end) c xs.
Proof.
  revert c. induction xs as [|x xs IH]; intros c; [done|].
  cbn [omap list_omap foldl]. destruct (f x); cbn [foldl]; by rewrite IH.
Qed.

Lemma elem_of_data_renames (w : World) (p : nat * string) :
  p ∈ data_renames w ↔
  ∃ obj o, obj ∈ selected_objects w ∧ objects w !! obj = Some o
           ∧ Object.data o = Some p.1 ∧ Object.name o = p.2.
Proof.
  unfold data_renames. rewrite list_elem_of_omap. split.
  - intros (obj & Hobj & Hp). exists obj.
    destruct (objects w !! obj) as [o|]; [|done]. simpl in Hp.
    destruct (Object.data o) as [d|] eqn:Hd; [|done]. simpl in Hp.
    injection Hp as <-. by exists o.
  - intros (obj & o & Hobj & Ho & Hd & Hn). exists obj. split; [done|].
    rewrite Ho. simpl. rewrite Hd. simpl. by destruct p; simpl in *; subst.
Qed.

(** Where the names are free the host stores each as given: the operator is
    its assignments in sequence, and the objects stay. *)
Lemma sync_data_name_execute (host : Host) (w : World) :
  keeps_free_names host →
  data_names_free w →
  execute host w =
    (Ok FINISHED,
     upd_datablocks
       (λ ds, foldl (λ ds p, alter (ObData.set_name p.2) p.1 ds) ds (data_renames w)) w).
Proof.
  intros Hhost Hfree.
  unfold execute. unfold bind at 1, get. unfold bind at 1.
  pose (g := λ (obj : nat) (w' : World),
          match (o ← objects w !! obj; d ← Object.data o; Some (d, Object.name o)) with
          | Some p => upd_datablocks (alter (ObData.set_name p.2) p.1) w'
          | None => w'
          end).
  destruct (for_each_modify
              (λ w', objects w' = objects w
                     ∧ ∀ d' db', datablocks w' !! d' = Some db' →
                         (∃ db0, datablocks w !! d' = Some db0
                                 ∧ ObData.name db' = ObData.name db0)
                         ∨ (d', ObData.name db') ∈ data_renames w)
              g (selected_objects w)
              (λ obj, let* o := the_object obj in
                      match Object.data o with
                      | Some d => set_data_name host d (Object.name o)
                      | None => ret tt
                      end) w) as [-> _].
  - intros obj w' Hobj [Hw' Hnames]. assert (Hsel := Hobj).
    apply elem_of_indices_where in Hobj as (o & Ho & _).
    unfold g. rewrite Ho. simpl.
    unfold the_object. rewrite (bind_ok _ _ o w' w').
    2:{ rewrite bind_get. by rewrite Hw', Ho. }
    destruct (Object.data o) as [d|] eqn:Hd; simpl; [|done].
    assert ((d, Object.name o) ∈ data_renames w) as Hin.
    { apply elem_of_data_renames. by exists obj, o. }
    destruct (Hfree d _ Hin) as (Hvalid & Hother & Hsame).
    unfold set_data_name. rewrite bind_get. unfold update_datablock, modify.
    rewrite unique_name_free; [|done..|].
    + split; [done|]. split; [by destruct w'|].
      intros d' db' Hdb'. simpl in Hdb'.
      destruct (decide (d' = d)) as [->|Hne].
      * rewrite list_lookup_alter, decide_True in Hdb' by done.
        destruct (datablocks w' !! d); [|done]. injection Hdb' as <-. by right.
      * rewrite list_lookup_alter_ne in Hdb' by done. by apply Hnames.
    + intros j y Hj Hy Hn. destruct (Hnames j y Hy) as [(db0 & Hdb0 & Hname)|Hgiven].
      * apply (Hother j db0); [done..|]. congruence.
      * rewrite Hn in Hgiven. by apply Hj, Hsame.
  - split; [done|]. intros d' db' Hdb'. left. by exists db'.
  - unfold ret. f_equal.
    rewrite <- (foldl_upd_datablocks (λ p, alter (ObData.set_name p.2) p.1)).
    unfold data_renames. rewrite foldl_omap.
    apply foldl_ext_eq. intros w' obj. unfold g. by destruct (_ ≫= _).
Qed.

(** Of the names assigned to one data-block, the last stays. *)
Lemma lookup_renamed (ps : list (nat * string)) (ds : list ObData.t) (d : nat) :
  foldl (λ ds p, alter (ObData.set_name p.2) p.1 ds) ds ps !! d =
    (λ db, match last (filter (λ p, p.1 = d) ps) with
           | Some p => ObData.set_name p.2 db
           | None => db
           end) <$> ds !! d.
Proof.
  revert ds. induction ps as [|[d0 n] ps IH]; intros ds.
  - simpl. by destruct (ds !! d).
  - cbn [foldl]. rewrite IH. rewrite filter_cons. cbn [fst snd].
    destruct (decide (d0 = d)) as [->|Hne].
    + rewrite list_lookup_alter, decide_True by done.
      destruct (ds !! d) as [db|]; [|done]. simpl. f_equal.
      destruct (filter _ ps) as [|q qs] eqn:Hf; [done|].
      rewrite (last_cons (d, n)).
      destruct (last (q :: qs)) as [p|] eqn:Hlast; [done|].
      by apply last_None in Hlast.
    + by rewrite list_lookup_alter_ne.
Qed.

(** The names are as free after the operator as before it. *)
Lemma data_names_free_after (w : World) :
  data_names_free w →
  data_names_free
    (upd_datablocks
       (λ ds, foldl (λ ds p, alter (ObData.set_name p.2) p.1 ds) ds (data_renames w)) w).
Proof.
  intros Hfree.
  set (w' := upd_datablocks _ w).
  assert (data_renames w' = data_renames w) as Hsame by by destruct w.
  intros d n Hin. rewrite Hsame in Hin |- *.
  destruct (Hfree d n Hin) as (Hvalid & Hother & Hone).
  split; [done|]. split; [|done].
  intros d' db' Hne Hdb'. unfold w' in Hdb'. cbn [datablocks upd_datablocks] in Hdb'.
  rewrite lookup_renamed in Hdb'.
  destruct (datablocks w !! d') as [db0|] eqn:Hdb0; [|done].
  cbn [fmap option_fmap option_map] in Hdb'. injection Hdb' as <-.
  destruct (last _) as [[d1 n1]|] eqn:Hlast.
  - apply last_Some_elem_of, list_elem_of_filter in Hlast as [Hd1 Hin1].
    simpl in Hd1. subst d1. simpl. intros ->. by apply Hne, Hone.
  - by apply (Hother d' db0).
Qed.

End SyncDataNameFacts.

(** Sync Object Data Name To Object, where the names of the selected
    objects are names the host stores as given to their data-blocks (valid,
    the name of no other data-block, and one name for one data-block).  The
    operator returns FINISHED and leaves the objects as they are.  A
    data-block that no selected object uses keeps its name.  A data-block
    that selected objects use gets the name of the last of them in
    [context.selected_objects]: when several selected objects share their
    data, the names of the earlier ones are overwritten.  Nothing but the
    name of a data-block changes. *)
Theorem sync_data_name_last_selected_user_names_data (host : Host) (w : World) :
  keeps_free_names host →
  data_names_free w →
  let r := ADH_SyncObjectDataNameToObject.execute host w in
  r.1 = Ok FINISHED
  ∧ same_but_datablocks w r.2
  ∧ ∀ d db, datablocks w !! d = Some db →
      (∀ before obj after o,
         selected_objects w = before ++ obj :: after →
         objects w !! obj = Some o → Object.data o = Some d →
         (∀ obj' o', obj' ∈ after → objects w !! obj' = Some o' →
                     Object.data o' ≠ Some d) →
         datablocks r.2 !! d = Some (ObData.set_name (Object.name o) db))
      ∧ ((∀ obj o, obj ∈ selected_objects w → objects w !! obj = Some o →
                   Object.data o ≠ Some d) →
         datablocks r.2 !! d = Some db).
Proof.
  intros Hhost Hfree.
  cbv zeta. rewrite SyncDataNameFacts.sync_data_name_execute by done. cbn [fst snd].
  split; [done|]. split; [by destruct w|].
  intros d db Hdb. cbn [datablocks upd_datablocks].
  rewrite SyncDataNameFacts.lookup_renamed, Hdb. cbn [fmap option_fmap option_map].
  split.
  - intros before obj after o Hsel Ho Hd Hafter. do 2 f_equal.
    unfold data_renames. rewrite Hsel, omap_app. cbn [omap list_omap].
    rewrite Ho. simpl. rewrite Hd. simpl.
    rewrite filter_app, filter_cons. cbn [fst]. rewrite decide_True by done.
    assert (filter (λ p : nat * string, p.1 = d)
              (omap (λ obj, o ← objects w !! obj; d ← Object.data o;
                            Some (d, Object.name o)) after) = []) as ->.
    { apply SyncDataNameFacts.filter_none. intros [d' n] Hin Heq.
      simpl in Heq. subst d'.
      apply list_elem_of_omap in Hin as (obj' & Hobj' & Hp).
      destruct (objects w !! obj') as [o'|] eqn:Ho'; [|done]. simpl in Hp.
      destruct (Object.data o') as [d'|] eqn:Hd'; [|done]. simpl in Hp.
      injection Hp as -> _. by eapply Hafter. }
    by rewrite last_snoc.
  - intros Hnone.
    assert (filter (λ p : nat * string, p.1 = d) (data_renames w) = []) as ->; [|done].
    apply SyncDataNameFacts.filter_none. intros p Hin Heq.
    apply SyncDataNameFacts.elem_of_data_renames in Hin
      as (obj & o & Hobj & Ho & Hd & _).
    eapply Hnone; [done..|]. by rewrite Hd, Heq.
Qed.

(** In the example scene with the mesh of [body] named [Cube], the names of
    the selected objects are free for their data-blocks. *)
Lemma example_data_names_free : data_names_free example_world_cube.
Proof.
  assert (data_renames example_world_cube
          = [(0, "rig"); (1, "body"); (3, "rig.copy"); (4, "wgt-tail")]) as Hren
    by by vm_compute.
  intros d n Hin. rewrite Hren in Hin |- *.
  repeat (apply elem_of_cons in Hin as [[= -> ->]|Hin]);
    try (by apply elem_of_nil in Hin);
    (split; [split; [done|simpl; lia]|]);
    (split;
     [ intros [|[|[|[|[|d']]]]] db' Hne Hdb'; vm_compute in Hdb'; try done;
       by injection Hdb' as <-
     | intros d' Hin';
       repeat (apply elem_of_cons in Hin' as [[= ->]|Hin']);
       try (by apply elem_of_nil in Hin'); done ]).
Qed.

Lemma sync_data_name_last_selected_user_names_data_witness :
  ObData.name <$> datablocks example_world_cube
    = ["rig"; "Cube"; "prop"; "rig.copy"; "wgt-tail"]
  ∧ let r := ADH_SyncObjectDataNameToObject.execute example_host example_world_cube in
    r.1 = Ok FINISHED
    ∧ ObData.name <$> datablocks r.2 !! 1 = Some "body".
Proof.
  split; [by vm_compute|].
  destruct (sync_data_name_last_selected_user_names_data example_host
              example_world_cube example_host_keeps_free_names
              example_data_names_free) as (Hfin & _ & Hnames).
  cbv zeta. split; [exact Hfin|].
  destruct (Hnames 1 (ObData.mk "Cube" [] [] [] [ "Basis"; "Key 1" ]))
    as [Hlast _]; [by vm_compute|].
  assert (∃ o, objects example_world_cube !! 1 = Some o
               ∧ Object.data o = Some 1 ∧ Object.name o = "body")
    as (o & Ho & Hd & Hn).
  { eexists. split; [vm_compute; reflexivity|done]. }
  rewrite (Hlast [0] 1 [3; 4] o); [by rewrite Hn|by vm_compute|done|done|].
  intros obj' o' Hobj' Ho'.
  repeat (apply elem_of_cons in Hobj' as [->|Hobj']);
    try (by apply elem_of_nil in Hobj');
    vm_compute in Ho'; by injection Ho' as <-.
Defined.

(** Run a second time, the operator changes nothing: the objects have kept
    their names, so every data-block is given the name it already has, which
    the host keeps.  (The names are to be free as in the first run.) *)
Theorem sync_data_name_idempotent (host : Host) (w : World) :
  keeps_free_names host →
  data_names_free w →
  let r := ADH_SyncObjectDataNameToObject.execute host w in
  ADH_SyncObjectDataNameToObject.execute host r.2 = (Ok FINISHED, r.2).
Proof.
  intros Hhost Hfree.
  cbv zeta. rewrite (SyncDataNameFacts.sync_data_name_execute host w) by done.
  cbn [fst snd].
  rewrite SyncDataNameFacts.sync_data_name_execute
    by (done || by apply SyncDataNameFacts.data_names_free_after).
  f_equal. unfold upd_datablocks at 1. cbn [objects datablocks active_object mode
    pose_object active_bone adh_regex_search_pattern adh_regex_replacement_string
    area_redraw addon upd_datablocks].
  unfold upd_datablocks. f_equal.
  change (data_renames (mkWorld _ _ _ _ _ _ _ _ _ _)) with (data_renames w).
  apply list_eq. intros d. rewrite !SyncDataNameFacts.lookup_renamed.
  destruct (datablocks w !! d) as [db|]; [|done]. simpl. f_equal.
  by destruct (last _).
Qed.

Lemma sync_data_name_idempotent_witness :
  let r := ADH_SyncObjectDataNameToObject.execute example_host example_world_cube in
  ObData.name <$> datablocks r.2 = ["rig"; "body"; "prop"; "rig.copy"; "wgt-tail"]
  ∧ ADH_SyncObjectDataNameToObject.execute example_host r.2 = (Ok FINISHED, r.2).
Proof.
  cbv zeta. split; [by vm_compute|].
  apply (sync_data_name_idempotent example_host example_world_cube
           example_host_keeps_free_names example_data_names_free).
Defined.

(** ** Sync Custom Shape Position to Bone *)

(** A property of the world that every pass through the body of a loop
    keeps, whether the pass returns or raises, holds when the loop is left. *)
Lemma for_each_invariant {X} (I : World → Prop) (xs : list X) (body : X → M unit)
    (w : World) :
  (∀ x w, x ∈ xs → I w → I (body x w).2) →
  I w → I (for_each xs body w).2.
Proof.
  revert w. induction xs as [|x xs IH]; intros w Hbody Hw; [done|].
  simpl. unfold bind. specialize (Hbody x w (list_elem_of_here _ _) Hw) as Hx.
  destruct (body x w) as [[[]|e] w'] eqn:Hb; [|done].
  apply IH; [|done]. intros y w'' Hy. apply Hbody. by right.
Qed.

Lemma snd_bind_ret {A B} (m : M A) (b : B) (w : World) :
  (bind m (λ _, ret b) w).2 = (m w).2.
Proof. unfold bind, ret. by destruct (m w) as [[a|e] w']. Qed.

Lemma with_placement_id (o : Object.t) : with_placement (Object.placement o) o = o.
Proof. by destruct o. Qed.

Module SyncShapePositionFacts.

Lemma moved_only_refl (w : World) : moved_only w w.
Proof.
  split; [by destruct w|]. split; [done|]. intros obj o Ho. split; [|done].
  exists (Object.placement o). by rewrite with_placement_id.
Qed.

Lemma moved_only_lookup_bone (w w' : World) (r : bone_ref) :
  moved_only w w' → lookup_bone w' r = lookup_bone w r.
Proof.
  intros (_ & Hlen & Hobjs). unfold lookup_bone.
  destruct (objects w !! r.1) as [o|] eqn:Ho.
  - destruct (Hobjs _ _ Ho) as [[p ->] _]. done.
  - apply lookup_ge_None in Ho. rewrite <- Hlen in Ho.
    apply lookup_ge_None in Ho. by rewrite Ho.
Qed.

Lemma moved_only_body (host : Host) (w w' : World) (bones : list bone_ref)
    (bone : bone_ref) :
  obj_to_bone_moves_only host →
  selected_pose_bones w = Some bones → bone ∈ bones →
  moved_only w w' →
  moved_only w
    ((let* b := the_bone bone in
      match Bone.custom_shape b with
      | Some obj =>
          let* w := get in
          rigify_utils_obj_to_bone host obj (active_object w) (Bone.name b)
      | None => ret tt
      end) w').2.
Proof.
  intros Hhost Hsel Hbone Hw'.
  unfold bind at 1, the_bone, bind at 1, get, of_option.
  rewrite (moved_only_lookup_bone w w') by done.
  destruct (lookup_bone w bone) as [b|] eqn:Hb; [|done].
  unfold ret at 1. destruct (Bone.custom_shape b) as [obj|] eqn:Hshape; [|done].
  unfold bind at 1, rigify_utils_obj_to_bone.
  unfold get at 1. cbn beta iota.
  destruct (active_object w') as [rig|]; [|done].
  unfold bind, of_option, get, ret, raise, modify. cbn beta iota.
  destruct (obj_to_bone host w' obj rig (Bone.name b)) as [o'|] eqn:Ho'; [|done].
  cbn [snd].
  destruct Hw' as (Hsame & Hlen & Hobjs).
  split; [by destruct w, w'; simpl in *; injection Hsame as <- <- <- <- <- <- <- <- <-|].
  split; [simpl; by rewrite length_insert|].
  intros obj1 o1 Ho1. destruct (Hobjs _ _ Ho1) as [[p Hp] Hfar]. simpl.
  destruct (decide (obj1 = obj)) as [->|Hne].
  - rewrite list_lookup_insert_eq by (by eapply lookup_lt_Some).
    rewrite (Hhost _ _ _ _ _ _ Ho' Hp). split.
    + by exists (Object.placement o').
    + intros Hnot. destruct Hnot. by exists bones, bone, b.
  - rewrite list_lookup_insert_ne by done. split; [by exists p | done].
Qed.

End SyncShapePositionFacts.

(** With an [obj_to_bone] that only moves the object it is given, Sync
    Custom Shape Position to Bone moves objects and does nothing else,
    whether it returns or raises on the way: no object is added or removed,
    every object keeps all but its placement, and an object that is not the
    custom shape of a selected pose bone is not moved either.  In particular
    nothing at all changes when no selected pose bone has a custom shape. *)
Theorem sync_shape_position_moves_custom_shapes_only (host : Host) (w : World) :
  obj_to_bone_moves_only host →
  let r := ADH_SyncCustomShapePositionToBone.execute host w in
  same_but_objects w r.2
  ∧ length (objects r.2) = length (objects w)
  ∧ (∀ obj o, objects w !! obj = Some o →
       (∃ p, objects r.2 !! obj = Some (with_placement p o))
       ∧ (¬ shape_of_selected_bone w obj → objects r.2 !! obj = Some o))
  ∧ ((∀ obj, ¬ shape_of_selected_bone w obj) → r.2 = w).
Proof.
  intros Hhost. cbv zeta.
  assert (moved_only w
            (ADH_SyncCustomShapePositionToBone.execute host w).2) as Hmoved.
  { unfold ADH_SyncCustomShapePositionToBone.execute.
    unfold bind at 1, get.
    destruct (selected_pose_bones w) as [bones|] eqn:Hsel;
      [|apply SyncShapePositionFacts.moved_only_refl].
    unfold bind at 1, iterable, of_option, ret at 1.
    rewrite snd_bind_ret.
    apply (for_each_invariant (moved_only w)).
    - intros bone w' Hbone Hw'.
      by apply (SyncShapePositionFacts.moved_only_body host w w' bones).
    - apply SyncShapePositionFacts.moved_only_refl. }
  destruct Hmoved as (Hsame & Hlen & Hobjs).
  split; [done|]. split; [done|]. split; [done|].
  intros Hnone.
  assert (objects (ADH_SyncCustomShapePositionToBone.execute host w).2 = objects w)
    as Heq.
  { apply list_eq. intros obj.
    destruct (objects w !! obj) as [o|] eqn:Ho.
    - destruct (Hobjs _ _ Ho) as [_ Hfar]. by apply Hfar.
    - apply lookup_ge_None in Ho. rewrite <- Hlen in Ho. by apply lookup_ge_None. }
  unfold same_but_objects in Hsame. rewrite <- Heq in Hsame.
  by destruct (ADH_SyncCustomShapePositionToBone.execute host w).2.
Qed.

Lemma example_host_moves_only : obj_to_bone_moves_only example_host.
Proof.
  intros w obj rig n o o' Ho' Ho. simpl in Ho'. rewrite Ho in Ho'. simpl in Ho'.
  destruct (objects w !! rig) as [r|]; simpl in Ho'; [|done].
  destruct (bone_index n (Object.bones r)) as [j|]; simpl in Ho'; [|done].
  destruct (Object.bones r !! j) as [b|]; simpl in Ho'; [|done].
  by injection Ho' as <-.
Qed.

Lemma sync_shape_position_moves_custom_shapes_only_witness :
  obj_to_bone_moves_only example_host
  ∧ let r := ADH_SyncCustomShapePositionToBone.execute example_host
               example_world_with_shape in
    length (objects r.2) = 3
    ∧ objects r.2 !! 1 = Some (example_mesh "body" true 1 [] [])
    ∧ ∃ p, objects r.2 !! 2 = Some (with_placement p (example_mesh "wgt-arm" false 2 [] [])).
Proof.
  split; [exact example_host_moves_only|].
  destruct (sync_shape_position_moves_custom_shapes_only example_host
              example_world_with_shape example_host_moves_only)
    as (_ & Hlen & Hobjs & _).
  cbv zeta. split; [exact Hlen|]. split.
  - apply (Hobjs 1 (example_mesh "body" true 1 [] []) eq_refl).
    intros (bones & bone & b & Hsel & Hin & Hb & Hshape).
    vm_compute in Hsel. injection Hsel as <-.
    apply list_elem_of_singleton in Hin as ->.
    vm_compute in Hb. injection Hb as <-. discriminate Hshape.
  - apply (Hobjs 2 (example_mesh "wgt-arm" false 2 [] []) eq_refl).
Defined.

(** ** Apply Lattices *)

Module ApplyLatticesFacts.

(** One pass of the first loop: the last shape key goes. *)
Lemma remove_key_body (a d i : nat) (o : Object.t) (w : World) :
  active_object w = Some a → objects w !! a = Some o → Object.data o = Some d →
  (update_object a (Object.set_active_shape_key_index (i - 1)) >> shape_key_remove) w =
    (Ok tt,
     upd_datablocks (alter (ObData.upd_key_blocks (delete (i - 1))) d)
       (upd_objects (alter (Object.set_active_shape_key_index (i - 1)) a) w)).
Proof.
  intros Ha Ho Hd.
  unfold bind at 1, update_object, modify.
  set (w1 := upd_objects (alter (Object.set_active_shape_key_index (i - 1)) a) w).
  assert (active_object w1 = Some a) as Ha1 by done.
  assert (objects w1 !! a = Some (Object.set_active_shape_key_index (i - 1) o)) as Ho1.
  { simpl. by rewrite list_lookup_alter, decide_True, Ho. }
  clearbody w1. unfold shape_key_remove. munfold.
  rewrite Ha1. mred. rewrite Ho1. mred. simpl. by rewrite Hd.
Qed.

(** The first loop removes every shape key. *)
Lemma remove_keys_loop (a d : nat) (n : nat) :
  ∀ (w : World) (o : Object.t) (mesh : ObData.t),
    active_object w = Some a → objects w !! a = Some o → Object.data o = Some d →
    datablocks w !! d = Some mesh → length (ObData.key_blocks mesh) = n →
    for_each (reverse (seq 1 n)) (λ i,
      update_object a (Object.set_active_shape_key_index (i - 1)) >> shape_key_remove) w =
      (Ok tt, if decide (n = 0) then w else without_shape_keys a d w).
Proof.
  induction n as [|n IH]; intros w o mesh Ha Ho Hd Hmesh Hlen; [done|].
  rewrite seq_S, reverse_snoc. cbn [for_each].
  unfold bind at 1. rewrite (remove_key_body a d (1 + n) o) by done.
  replace (1 + n - 1) with n by lia.
  rewrite (IH _ (Object.set_active_shape_key_index n o)
              (ObData.upd_key_blocks (delete n) mesh)); cycle 1.
  - done.
  - simpl. by rewrite list_lookup_alter, decide_True, Ho.
  - done.
  - simpl. by rewrite list_lookup_alter, decide_True, Hmesh.
  - simpl. rewrite length_delete; [lia|]. apply lookup_lt_is_Some. lia.
  - f_equal. rewrite (decide_False (P := S n = 0)) by lia.
    unfold without_shape_keys. destruct w as [os ds ? ? ? ? ? ? ? ?].
    unfold upd_datablocks, upd_objects. simpl in *.
    destruct (decide (n = 0)) as [->|Hn].
    + f_equal. apply list_alter_ext; [|done]. intros m' Hm'.
      assert (m' = mesh) as -> by congruence.
      unfold ObData.upd_key_blocks. f_equal.
      destruct (ObData.key_blocks mesh) as [|k [|k' ks]]; simpl in *; done.
    + f_equal.
      * rewrite list_alter_alter_eq. apply list_alter_ext; [|done].
        intros o' _. by destruct o'.
      * rewrite list_alter_alter_eq. apply list_alter_ext; [|done].
        intros m' _. by destruct m'.
Qed.

Lemma after_keys_active (a d : nat) (mesh : ObData.t) (w : World) :
  active_object (after_keys a d mesh w) = active_object w.
Proof. unfold after_keys. by destruct (bool_decide _). Qed.

Lemma after_keys_object (a d : nat) (mesh : ObData.t) (w : World) (o : Object.t) :
  objects w !! a = Some o →
  ∃ i, objects (after_keys a d mesh w) !! a
       = Some (Object.set_active_shape_key_index i o).
Proof.
  intros Ho. unfold after_keys. destruct (bool_decide _).
  - exists (Object.active_shape_key_index o). rewrite Ho. by destruct o.
  - exists 0. simpl. by rewrite list_lookup_alter, decide_True, Ho.
Qed.

Lemma after_keys_other_objects (a d : nat) (mesh : ObData.t) (w : World) (obj : nat) :
  obj ≠ a → objects (after_keys a d mesh w) !! obj = objects w !! obj.
Proof.
  intros Hne. unfold after_keys. destruct (bool_decide _); [done|].
  simpl. by rewrite list_lookup_alter_ne.
Qed.

Lemma after_keys_datablocks (a d : nat) (mesh : ObData.t) (w : World) (d' : nat) :
  datablocks w !! d = Some mesh →
  datablocks (after_keys a d mesh w) !! d' =
    if decide (d' = d) then Some (ObData.upd_key_blocks (λ _, []) mesh)
    else datablocks w !! d'.
Proof.
  intros Hmesh. unfold after_keys.
  destruct (bool_decide (ObData.key_blocks mesh = [])) eqn:Hkeys.
  - apply bool_decide_eq_true in Hkeys.
    destruct (decide (d' = d)) as [->|]; [|done].
    rewrite Hmesh. f_equal. destruct mesh. simpl in *. by subst.
  - simpl. destruct (decide (d' = d)) as [->|Hne].
    + by rewrite list_lookup_alter, decide_True, Hmesh.
    + by rewrite list_lookup_alter_ne.
Qed.

(** The operator up to its second loop: the shape keys are gone. *)
Lemma execute_removes_keys (host : Host) (w : World) (a d : nat) (o : Object.t)
    (mesh : ObData.t) :
  active_object w = Some a → objects w !! a = Some o → Object.data o = Some d →
  datablocks w !! d = Some mesh →
  ADH_ApplyLattices.execute host w =
    (let* o := the_object a in
     for_each_in_collection (Object.modifiers o) (λ m,
       if String.eqb (Modifier.type m) "LATTICE"
       then modifier_apply host (Modifier.name m)
       else ret tt) >>
     ret FINISHED) (after_keys a d mesh w).
Proof.
  intros Ha Ho Hd Hmesh. unfold ADH_ApplyLattices.execute.
  unfold bind at 1, context_active_object, bind at 1, get, of_option.
  rewrite Ha. unfold ret at 1.
  unfold bind at 1, the_object, bind at 1, get, of_option. rewrite Ho. unfold ret at 1.
  unfold bind at 1, of_option. rewrite Hd. unfold ret at 1.
  unfold bind at 1. unfold bind at 1, of_option. rewrite Hmesh. unfold ret at 1.
  unfold bind at 1, after_keys.
  destruct (bool_decide (ObData.key_blocks mesh = [])) eqn:Hkeys; [done|].
  rewrite (remove_keys_loop a d _ w o mesh) by done.
  rewrite decide_False; [done|].
  apply bool_decide_eq_false in Hkeys. by destruct (ObData.key_blocks mesh).
Qed.

(** Applying the modifier the loop is at: the host's result replaces the
    data, and the modifier leaves the stack. *)
Lemma apply_body (host : Host) (a d : nat) (o : Object.t) (kept rest : list Modifier.t)
    (m : Modifier.t) (d' : ObData.t) (w : World) :
  active_object w = Some a → objects w !! a = Some o →
  Object.modifiers o = kept ++ m :: rest → Object.data o = Some d →
  (∀ m', m' ∈ kept → Modifier.name m' ≠ Modifier.name m) →
  apply_modifier host w a m = Some d' →
  modifier_apply host (Modifier.name m) w =
    (Ok tt,
     upd_objects (alter (Object.upd_modifiers (delete (length kept))) a)
       (upd_datablocks (<[d := d']>) w)).
Proof.
  intros Ha Ho Hms Hd Hkept Happly.
  assert (list_find (λ m', Modifier.name m' = Modifier.name m) (Object.modifiers o)
          = Some (length kept, m)) as Hfind.
  { apply list_find_Some. rewrite Hms. split; [|split; [done|]].
    - by rewrite list_lookup_middle.
    - intros j y Hy Hj. apply Hkept.
      rewrite lookup_app_l in Hy by done. by eapply list_elem_of_lookup_2. }
  unfold modifier_apply. munfold. rewrite Ha. mred. rewrite Ho. mred.
  rewrite Hfind. mred. rewrite Hd. mred. rewrite Happly. by mred.
Qed.

Lemma not_lattice (m : Modifier.t) :
  String.eqb (Modifier.type m) "LATTICE" = false ↔ Modifier.type m ≠ "LATTICE".
Proof. apply String.eqb_neq. Qed.

(** The second loop on a stack without LATTICE modifier does nothing. *)
Lemma skip_loop (host : Host) (rest : list Modifier.t) (w : World) :
  (∀ m, m ∈ rest → Modifier.type m ≠ "LATTICE") →
  for_each rest (λ m,
    if String.eqb (Modifier.type m) "LATTICE"
    then modifier_apply host (Modifier.name m)
    else ret tt) w = (Ok tt, w).
Proof.
  induction rest as [|m rest IH]; intros Hnone; [done|].
  cbn [for_each].
  rewrite (proj2 (not_lattice m)) by (apply Hnone; by left).
  unfold bind at 1, ret at 1. apply IH. intros m' Hm'. apply Hnone. by right.
Qed.

(** The second loop with a host that applies every modifier: the LATTICE
    modifiers leave the stack, the others stay in their order. *)
Lemma apply_loop (host : Host) (a d : nat) (rest : list Modifier.t) :
  applies_modifiers_of host a →
  ∀ (kept : list Modifier.t) (w : World) (o : Object.t),
    active_object w = Some a → objects w !! a = Some o →
    Object.modifiers o = kept ++ rest → Object.data o = Some d →
    NoDup (Modifier.name <$> (kept ++ rest)) →
    ∃ ds,
      for_each rest (λ m,
        if String.eqb (Modifier.type m) "LATTICE"
        then modifier_apply host (Modifier.name m)
        else ret tt) w =
      (Ok tt,
       upd_datablocks (λ _, ds)
         (upd_objects
            (alter (Object.upd_modifiers
                      (λ _, kept ++ filter (λ m, Modifier.type m ≠ "LATTICE") rest)) a)
            w)).
Proof.
  intros Hhost. induction rest as [|m rest IH]; intros kept w o Ha Ho Hms Hd Hnd.
  - exists (datablocks w). cbn [for_each filter list_filter]. unfold ret. f_equal.
    rewrite (upd_objects_id _ w); [by destruct w|].
    apply list_alter_same. intros o' Ho'.
    assert (o' = o) as -> by congruence. destruct o. simpl in *. by subst.
  - cbn [for_each]. rewrite filter_cons.
    destruct (String.eqb (Modifier.type m) "LATTICE") eqn:Hty.
    + apply String.eqb_eq in Hty.
      rewrite decide_False by (intros Hne; by apply Hne).
      destruct (Hhost w m) as [d' Hd'].
      unfold bind at 1.
      assert (∀ m', m' ∈ kept → Modifier.name m' ≠ Modifier.name m) as Hkept.
      { intros m' Hm' Heq. rewrite fmap_app, fmap_cons in Hnd.
        apply NoDup_app in Hnd as (_ & Hnd & _).
        apply (Hnd (Modifier.name m')); [by apply list_elem_of_fmap_2|].
        rewrite Heq. by left. }
      rewrite (apply_body host a d o kept rest m d') by done.
      destruct (IH kept
                  (upd_objects (alter (Object.upd_modifiers (delete (length kept))) a)
                     (upd_datablocks (<[d := d']>) w))
                  (Object.upd_modifiers (delete (length kept)) o))
        as [ds Hrest].
      * done.
      * simpl. by rewrite list_lookup_alter, decide_True, Ho.
      * simpl. rewrite Hms.
        rewrite (delete_middle kept rest m). done.
      * done.
      * rewrite fmap_app, fmap_cons in Hnd. rewrite fmap_app.
        apply NoDup_app in Hnd as (Hk & Hkr & Hr). apply NoDup_cons in Hr as [_ Hr].
        apply NoDup_app. split; [done|]. split; [|done].
        intros x Hx Hx'. apply (Hkr x Hx). by right.
      * exists ds. rewrite Hrest. f_equal.
        destruct w as [os ds0 ? ? ? ? ? ? ? ?]. unfold upd_datablocks, upd_objects.
        simpl. f_equal. rewrite list_alter_alter_eq. by apply list_alter_ext.
    + apply not_lattice in Hty. rewrite decide_True by done.
      unfold bind at 1, ret at 1.
      destruct (IH (kept ++ [m]) w o) as [ds Hrest]; try done.
      * by rewrite <- app_assoc.
      * by rewrite <- app_assoc.
      * exists ds. rewrite Hrest. by rewrite <- app_assoc.
Qed.

(** The second loop with a host that applies no modifier: it raises at the
    first LATTICE modifier and has changed nothing. *)
Lemma refuse_loop (host : Host) (a d : nat) (o : Object.t) (w : World)
    (rest : list Modifier.t) :
  refuses_modifiers_of host a →
  active_object w = Some a → objects w !! a = Some o → Object.data o = Some d →
  rest ⊆ Object.modifiers o →
  (∃ m, m ∈ rest ∧ Modifier.type m = "LATTICE") →
  for_each rest (λ m,
    if String.eqb (Modifier.type m) "LATTICE"
    then modifier_apply host (Modifier.name m)
    else ret tt) w = (Raise RuntimeError, w).
Proof.
  intros Hhost Ha Ho Hd. induction rest as [|m rest IH]; intros Hsub (l & Hl & Hty).
  - by apply elem_of_nil in Hl.
  - cbn [for_each]. destruct (String.eqb (Modifier.type m) "LATTICE") eqn:Hm.
    + unfold bind at 1.
      assert (is_Some (list_find (λ m', Modifier.name m' = Modifier.name m)
                                 (Object.modifiers o))) as [[j m'] Hfind].
      { apply list_find_elem_of with m; [|done]. apply Hsub. by left. }
      assert (modifier_apply host (Modifier.name m) w = (Raise RuntimeError, w)) as ->; [|done].
      unfold modifier_apply. munfold. rewrite Ha. mred. rewrite Ho. mred.
      rewrite Hfind. mred. rewrite Hd. mred. by rewrite Hhost.
    + unfold bind at 1, ret at 1. apply IH.
      * intros x Hx. apply Hsub. by right.
      * exists l. split; [|done].
        apply elem_of_cons in Hl as [->|Hl]; [|done].
        apply not_lattice in Hm. done.
Qed.

Section with_active_mesh.
Context (host : Host) (w : World) (a d : nat) (o : Object.t) (mesh : ObData.t).
Hypothesis Ha : active_object w = Some a.
Hypothesis Ho : objects w !! a = Some o.
Hypothesis Hd : Object.data o = Some d.
Hypothesis Hmesh : datablocks w !! d = Some mesh.

Lemma execute_loop (i : nat) :
  objects (after_keys a d mesh w) !! a = Some (Object.set_active_shape_key_index i o) →
  ADH_ApplyLattices.execute host w =
    (for_each (Object.modifiers o) (λ m,
       if String.eqb (Modifier.type m) "LATTICE"
       then modifier_apply host (Modifier.name m)
       else ret tt) >>
     ret FINISHED) (after_keys a d mesh w).
Proof using Ha Ho Hd Hmesh.
  intros Hi.
  rewrite (execute_removes_keys host w a d o mesh) by done.
  unfold bind at 1, the_object, bind at 1, get, of_option. rewrite Hi.
  by unfold ret at 1.
Qed.

Lemma execute_without_lattice :
  (∀ m, m ∈ Object.modifiers o → Modifier.type m ≠ "LATTICE") →
  ADH_ApplyLattices.execute host w = (Ok FINISHED, after_keys a d mesh w).
Proof using Ha Ho Hd Hmesh.
  intros Hnone. destruct (after_keys_object a d mesh w o Ho) as [i Hi].
  rewrite (execute_loop i Hi). unfold bind. by rewrite skip_loop.
Qed.

Lemma execute_applied :
  NoDup (Modifier.name <$> Object.modifiers o) →
  applies_modifiers_of host a →
  ∃ ds,
    ADH_ApplyLattices.execute host w =
      (Ok FINISHED,
       upd_datablocks (λ _, ds)
         (upd_objects
            (alter (Object.upd_modifiers
                      (λ _, filter (λ m, Modifier.type m ≠ "LATTICE")
                                   (Object.modifiers o))) a)
            (after_keys a d mesh w))).
Proof using Ha Ho Hd Hmesh.
  intros Hnd Hhost. destruct (after_keys_object a d mesh w o Ho) as [i Hi].
  rewrite (execute_loop i Hi).
  destruct (apply_loop host a d (Object.modifiers o) Hhost []
              (after_keys a d mesh w) (Object.set_active_shape_key_index i o))
    as [ds Hloop]; try done.
  { by rewrite after_keys_active. }
  exists ds. unfold bind. by rewrite Hloop.
Qed.

Lemma execute_refused :
  (∃ m, m ∈ Object.modifiers o ∧ Modifier.type m = "LATTICE") →
  refuses_modifiers_of host a →
  ADH_ApplyLattices.execute host w = (Raise RuntimeError, after_keys a d mesh w).
Proof using Ha Ho Hd Hmesh.
  intros Hlattice Hhost. destruct (after_keys_object a d mesh w o Ho) as [i Hi].
  rewrite (execute_loop i Hi). unfold bind.
  rewrite (refuse_loop host a d (Object.set_active_shape_key_index i o)); try done.
  by rewrite after_keys_active.
Qed.
End with_active_mesh.

End ApplyLatticesFacts.

(** Apply Lattices on a mesh without LATTICE modifier: it returns FINISHED
    and has removed every shape key of the active object's data, however
    many there were; the rest of that data-block, the other data-blocks and
    the other objects are as before, and of the active object only the index
    of the active shape key may have changed. *)
Theorem apply_lattices_removes_every_shape_key (host : Host) (w : World)
    (a d : nat) (o : Object.t) (mesh : ObData.t) :
  active_object w = Some a → objects w !! a = Some o → Object.data o = Some d →
  datablocks w !! d = Some mesh →
  (∀ m, m ∈ Object.modifiers o → Modifier.type m ≠ "LATTICE") →
  let r := ADH_ApplyLattices.execute host w in
  r.1 = Ok FINISHED
  ∧ datablocks r.2 !! d = Some (ObData.upd_key_blocks (λ _, []) mesh)
  ∧ (∀ d', d' ≠ d → datablocks r.2 !! d' = datablocks w !! d')
  ∧ (∃ i, objects r.2 !! a = Some (Object.set_active_shape_key_index i o))
  ∧ (∀ obj, obj ≠ a → objects r.2 !! obj = objects w !! obj).
Proof.
  intros Ha Ho Hd Hmesh Hnone. cbv zeta.
  rewrite (ApplyLatticesFacts.execute_without_lattice host w a d o mesh) by done.
  cbn [fst snd]. split; [done|]. split.
  { by rewrite ApplyLatticesFacts.after_keys_datablocks, decide_True. }
  split.
  { intros d' Hne.
    by rewrite ApplyLatticesFacts.after_keys_datablocks, decide_False. }
  split; [by apply ApplyLatticesFacts.after_keys_object|].
  intros obj Hne. by apply ApplyLatticesFacts.after_keys_other_objects.
Qed.

Lemma apply_lattices_removes_every_shape_key_witness :
  ObData.key_blocks <$> datablocks example_world_face !! 0
    = Some ["Basis"; "Smile"; "Frown"]
  ∧ let r := ADH_ApplyLattices.execute example_host example_world_face in
    r.1 = Ok FINISHED
    ∧ datablocks r.2 !! 0 = Some (ObData.mk "face" [] [] [] []).
Proof.
  split; [done|].
  destruct (apply_lattices_removes_every_shape_key example_host example_world_face
              0 0 (example_mesh "face" true 0
                     [ Modifier.mk "Subsurf" "SUBSURF" true true None ] [])
              (ObData.mk "face" [] [] [] [ "Basis"; "Smile"; "Frown" ]))
    as (Hfin & Hd & _); [done | done | done | done | |].
  - intros m ->%list_elem_of_singleton. done.
  - split; [exact Hfin | exact Hd].
Defined.

(** Apply Lattices with a host that applies every modifier it is asked to,
    on a stack whose modifiers have distinct names, as the host keeps them:
    it returns FINISHED, the LATTICE modifiers are off the stack of the
    active object and the other modifiers are left in their order.  Nothing
    else about the active object changes, apart from the index of its active
    shape key, and no other object changes. *)
Theorem apply_lattices_takes_lattices_off_the_stack (host : Host) (w : World)
    (a d : nat) (o : Object.t) (mesh : ObData.t) :
  active_object w = Some a → objects w !! a = Some o → Object.data o = Some d →
  datablocks w !! d = Some mesh →
  NoDup (Modifier.name <$> Object.modifiers o) →
  applies_modifiers_of host a →
  let r := ADH_ApplyLattices.execute host w in
  r.1 = Ok FINISHED
  ∧ (∃ i, objects r.2 !! a =
          Some (Object.upd_modifiers (filter (λ m, Modifier.type m ≠ "LATTICE"))
                  (Object.set_active_shape_key_index i o)))
  ∧ (∀ obj, obj ≠ a → objects r.2 !! obj = objects w !! obj).
Proof.
  intros Ha Ho Hd Hmesh Hnd Hhost. cbv zeta.
  destruct (ApplyLatticesFacts.execute_applied host w a d o mesh) as [ds ->];
    try done.
  destruct (ApplyLatticesFacts.after_keys_object a d mesh w o Ho) as [i Hi].
  cbn [fst snd]. split; [done|]. split.
  - exists i. simpl. rewrite list_lookup_alter, decide_True, Hi by done.
    done.
  - intros obj Hne. simpl. rewrite list_lookup_alter_ne by done.
    by apply ApplyLatticesFacts.after_keys_other_objects.
Qed.

Lemma apply_lattices_takes_lattices_off_the_stack_witness :
  let r := ADH_ApplyLattices.execute willing_host example_world_body_active in
  Modifier.name <$> Object.modifiers (example_mesh "body" true 1
      [ Modifier.mk "Armature" "ARMATURE" true true (Some 0);
        Modifier.mk "Lattice" "LATTICE" true true None;
        Modifier.mk "Subsurf" "SUBSURF" true true None ]
      [ "arm"; "leg"; "tail"; "spine" ]) = ["Armature"; "Lattice"; "Subsurf"]
  ∧ r.1 = Ok FINISHED
  ∧ ∃ o', objects r.2 !! 1 = Some o'
          ∧ Modifier.name <$> Object.modifiers o' = ["Armature"; "Subsurf"].
Proof.
  cbv zeta. split; [done|].
  destruct (apply_lattices_takes_lattices_off_the_stack willing_host
              example_world_body_active 1 1
              (example_mesh "body" true 1
                 [ Modifier.mk "Armature" "ARMATURE" true true (Some 0);
                   Modifier.mk "Lattice" "LATTICE" true true None;
                   Modifier.mk "Subsurf" "SUBSURF" true true None ]
                 [ "arm"; "leg"; "tail"; "spine" ])
              (ObData.mk "body" [] [] [] [ "Basis"; "Key 1" ]))
    as (Hfin & [i Hobj] & _); [done | done | done | done | | |].
  - apply (bool_decide_unpack _). by vm_compute.
  - intros w m. by eexists.
  - split; [exact Hfin|]. eexists. split; [exact Hobj|]. by vm_compute.
Defined.

(** Apply Lattices with a host that refuses to apply the modifiers of the
    active object (its data is shared, say): the operator raises at the
    first LATTICE modifier and leaves the stack as it was, but the shape keys
    are gone all the same: they were removed before the first modifier was
    tried, and nothing brings them back. *)
Theorem apply_lattices_loses_shape_keys_when_host_refuses (host : Host) (w : World)
    (a d : nat) (o : Object.t) (mesh : ObData.t) :
  active_object w = Some a → objects w !! a = Some o → Object.data o = Some d →
  datablocks w !! d = Some mesh →
  (∃ m, m ∈ Object.modifiers o ∧ Modifier.type m = "LATTICE") →
  refuses_modifiers_of host a →
  let r := ADH_ApplyLattices.execute host w in
  r.1 = Raise RuntimeError
  ∧ datablocks r.2 !! d = Some (ObData.upd_key_blocks (λ _, []) mesh)
  ∧ (∃ i, objects r.2 !! a = Some (Object.set_active_shape_key_index i o)).
Proof.
  intros Ha Ho Hd Hmesh Hlattice Hhost. cbv zeta.
  rewrite (ApplyLatticesFacts.execute_refused host w a d o mesh) by done.
  cbn [fst snd]. split; [done|]. split.
  - by rewrite ApplyLatticesFacts.after_keys_datablocks, decide_True.
  - by apply ApplyLatticesFacts.after_keys_object.
Qed.

Lemma apply_lattices_loses_shape_keys_when_host_refuses_witness :
  let r := ADH_ApplyLattices.execute refusing_host example_world_body_active in
  ObData.key_blocks <$> datablocks example_world_body_active !! 1
    = Some ["Basis"; "Key 1"]
  ∧ r.1 = Raise RuntimeError
  ∧ ObData.key_blocks <$> datablocks r.2 !! 1 = Some [].
Proof.
  cbv zeta. split; [done|].
  destruct (apply_lattices_loses_shape_keys_when_host_refuses refusing_host
              example_world_body_active 1 1
              (example_mesh "body" true 1
                 [ Modifier.mk "Armature" "ARMATURE" true true (Some 0);
                   Modifier.mk "Lattice" "LATTICE" true true None;
                   Modifier.mk "Subsurf" "SUBSURF" true true None ]
                 [ "arm"; "leg"; "tail"; "spine" ])
              (ObData.mk "body" [] [] [] [ "Basis"; "Key 1" ]))
    as (Hfin & Hd & _); [done | done | done | done | | done |].
  - exists (Modifier.mk "Lattice" "LATTICE" true true None).
    split; [|done]. right. by left.
  - split; [exact Hfin|]. by rewrite Hd.
Defined.

(** ** Create Custom Shape, the name being free *)

Module CreateShapeFacts.
Import ADH_CreateCustomShape.

Lemma insert_end {A} (l : list A) (x y : A) :
  <[length l := y]> (l ++ [x]) = l ++ [y].
Proof.
  replace (length l) with (length l + 0) by lia. by rewrite insert_app_r.
Qed.

Lemma name_unused_free (name : string) (w : World) :
  name_unused name w → name ∉ scene_object_names w.
Proof.
  intros [Hobjs _] Hin. apply Hobjs. unfold scene_object_names in Hin.
  apply list_elem_of_fmap in Hin as (o & -> & Ho).
  apply list_elem_of_filter in Ho as [_ Ho]. by apply list_elem_of_fmap_2.
Qed.

(** [create_widget] when the name is free. *)
Lemma create_widget_fresh (host : Host) (self : props) (rig : nat) (bone_name : string)
    (p : vec3 * vec3 * vec3) (w : World) :
  let name := widget_prefix self +:+ bone_name in
  keeps_free_names host → valid_name name →
  name_unused name w →
  obj_to_bone host (with_new_widget name w) (length (objects w)) rig bone_name
    = Some (with_placement p (linked_widget name (length (datablocks w)))) →
  create_widget host self (Some rig) bone_name None w =
    (Ok (Some (length (objects w))),
     upd_objects (λ os, os ++ [widget_object self name (length (datablocks w)) p])
       (upd_datablocks (λ ds, ds ++ [ObData.new name]) w)).
Proof.
  intros name Hlaw Hvalid Hunused Hhost.
  pose proof (name_unused_free name w Hunused) as Hfree.
  destruct Hunused as [Hobjs Hdata].
  unfold create_widget. fold name.
  unfold meshes_new, objects_new, scene_objects_link, rigify_utils_obj_to_bone,
    update_object, bind, get, modify, ret, of_option.
  rewrite bool_decide_eq_false_2 by done. unfold ret, raise. mred.
  rewrite !unique_name_new by done.
  match goal with
  | |- context [obj_to_bone host ?W ?n rig bone_name] =>
      replace W with (with_new_widget name w);
        [replace n with (length (objects w)) by done|]
  end.
  - rewrite Hhost. mred. f_equal.
    unfold with_new_widget, widget_object, linked_widget, upd_objects, upd_datablocks.
    simpl. by rewrite insert_end, HookBonesFacts.alter_last.
  - unfold with_new_widget, linked_widget, upd_objects, upd_datablocks. simpl.
    by rewrite HookBonesFacts.alter_last.
Qed.

(** [create_widget] when the name is free and [obj_to_bone] raises: the new
    mesh and the new object stay behind. *)
Lemma create_widget_unplaced (host : Host) (self : props) (rig : nat)
    (bone_name : string) (w : World) :
  let name := widget_prefix self +:+ bone_name in
  keeps_free_names host → valid_name name →
  name_unused name w →
  obj_to_bone host (with_new_widget name w) (length (objects w)) rig bone_name = None →
  create_widget host self (Some rig) bone_name None w =
    (Raise RuntimeError, with_new_widget name w).
Proof.
  intros name Hlaw Hvalid Hunused Hhost.
  pose proof (name_unused_free name w Hunused) as Hfree.
  destruct Hunused as [Hobjs Hdata].
  unfold create_widget. fold name.
  unfold meshes_new, objects_new, scene_objects_link, rigify_utils_obj_to_bone,
    update_object, bind, get, modify, ret, of_option.
  rewrite bool_decide_eq_false_2 by done. unfold ret, raise. mred.
  rewrite !unique_name_new by done.
  assert (upd_objects (alter (Object.set_linked true)
                         (length (objects (upd_datablocks
                                             (λ ds, ds ++ [ObData.new name]) w))))
            (upd_objects (λ os, os ++ [Object.new name (length (datablocks w))])
               (upd_datablocks (λ ds, ds ++ [ObData.new name]) w))
          = with_new_widget name w) as ->.
  { unfold with_new_widget, linked_widget, upd_objects, upd_datablocks. simpl.
    by rewrite HookBonesFacts.alter_last. }
  change (length (objects (upd_datablocks (λ ds, ds ++ [ObData.new name]) w)))
    with (length (objects w)).
  by rewrite Hhost.
Qed.

(** Filling the mesh of the widget just made. *)
Lemma fill_new_mesh (host : Host) (w : World) (wo : Object.t) (name : string)
    (verts : list vec3) (edges : list (nat * nat)) (faces : list (list nat)) :
  Object.data wo = Some (length (datablocks w)) →
  fill_mesh host (length (objects w)) verts edges faces
    (upd_objects (λ os, os ++ [wo]) (upd_datablocks (λ ds, ds ++ [ObData.new name]) w)) =
    (Ok tt,
     upd_objects (λ os, os ++ [wo])
       (upd_datablocks
          (λ ds, ds ++ [from_pydata host verts edges faces (ObData.new name)]) w)).
Proof.
  intros Hdata. unfold fill_mesh. munfold. simpl.
  rewrite list_lookup_middle by done. mred. rewrite Hdata. mred.
  f_equal. unfold upd_objects, upd_datablocks. simpl.
  by rewrite HookBonesFacts.alter_last.
Qed.

(** The operator when the name of the widget is free. *)
Lemma execute_fresh (host : Host) (self : props) (w : World) (active : bone_ref)
    (b : Bone.t) (rig : nat) (p : vec3 * vec3 * vec3) :
  active_pose_bone w = Some active → lookup_bone w active = Some b →
  active_object w = Some rig →
  keeps_free_names host → valid_name (widget_name self b) →
  name_unused (widget_name self b) w →
  obj_to_bone host (with_new_widget (widget_name self b) w) (length (objects w)) rig
              (Bone.name b)
    = Some (with_placement p (linked_widget (widget_name self b)
                                            (length (datablocks w)))) →
  execute host self w
  = (Ok FINISHED, with_widget host self (widget_name self b) p active w).
Proof.
  intros Hactive Hb Hrig Hlaw Hvalid Hfree Hhost.
  assert (active.1 < length (objects w)) as Hlt.
  { unfold lookup_bone in Hb. destruct (objects w !! active.1) eqn:Ho; [|done].
    by eapply lookup_lt_Some. }
  unfold execute. unfold bind at 1, get. rewrite Hactive, Hrig.
  unfold bind at 1, of_option, ret at 1.
  unfold bind at 1, the_bone, bind at 1, get, of_option. rewrite Hb.
  unfold ret at 1. unfold bind at 1.
  unfold with_widget, widget_mesh.
  destruct (widget_shape self);
    unfold create_sphere_widget, create_ring_widget, create_box_widget;
    unfold bind at 1;
    rewrite (create_widget_fresh host self rig (Bone.name b) p w) by done;
    unfold bind at 1;
    rewrite fill_new_mesh by done;
    unfold ret at 1; unfold bind, update_bone, update_object, modify, ret;
    f_equal; unfold upd_objects, upd_datablocks; simpl;
    by rewrite alter_app_l.
Qed.

(** The operator when the name of the widget is taken. *)
Lemma execute_taken (host : Host) (self : props) (w : World) (active : bone_ref)
    (b : Bone.t) :
  active_pose_bone w = Some active → lookup_bone w active = Some b →
  widget_name self b ∈ scene_object_names w →
  execute host self w =
    (Ok FINISHED,
     upd_objects (alter (Object.upd_bones (alter (Bone.set_custom_shape None) active.2))
                        active.1) w).
Proof.
  intros Hactive Hb Hname.
  unfold execute. unfold bind at 1, get. rewrite Hactive.
  unfold bind at 1, of_option, ret at 1.
  unfold bind at 1, the_bone, bind at 1, get, of_option. rewrite Hb.
  unfold ret at 1. unfold bind at 1.
  destruct (widget_shape self);
    unfold create_sphere_widget, create_ring_widget, create_box_widget;
    unfold bind at 1; rewrite create_widget_exists by done; done.
Qed.

(** The scene with the widget, as the context shows it. *)
Lemma with_widget_lookup_bone (host : Host) (self : props) (name : string)
    (p : vec3 * vec3 * vec3) (active : bone_ref) (b : Bone.t) (w : World) :
  lookup_bone w active = Some b →
  lookup_bone (with_widget host self name p active w) active
  = Some (Bone.set_custom_shape (Some (length (objects w))) b).
Proof.
  unfold lookup_bone. simpl.
  destruct (objects w !! active.1) as [o|] eqn:Ho; [|done]. simpl.
  rewrite lookup_app_l by (rewrite length_alter; by eapply lookup_lt_Some).
  rewrite list_lookup_alter, decide_True, Ho by done. simpl.
  unfold pose_bones. simpl. destruct (String.eqb _ _); simpl; [|done].
  intros Hb. by rewrite list_lookup_alter, decide_True, Hb.
Qed.

Lemma with_widget_active_pose_bone (host : Host) (self : props) (name : string)
    (p : vec3 * vec3 * vec3) (active : bone_ref) (w : World) :
  active_pose_bone w = Some active →
  active_pose_bone (with_widget host self name p active w) = Some active.
Proof.
  unfold active_pose_bone. simpl.
  destruct (pose_object w) as [a|]; simpl; [|done].
  destruct (active_bone w) as [j|]; simpl; [|done].
  destruct (lookup_bone w (a, j)) as [b|] eqn:Hb; simpl; [|done].
  intros [= <-].
  change (pose_object (with_widget host self name p (a, j) w)) with (pose_object w).
  by rewrite (with_widget_lookup_bone host self name p (a, j) b w Hb).
Qed.

Lemma with_widget_name_taken (host : Host) (self : props) (name : string)
    (p : vec3 * vec3 * vec3) (active : bone_ref) (w : World) :
  name ∈ scene_object_names (with_widget host self name p active w).
Proof.
  unfold scene_object_names. simpl. rewrite filter_app, fmap_app.
  apply elem_of_app. right. rewrite filter_cons, decide_True by done. by left.
Qed.

End CreateShapeFacts.

(** Create Custom Shape for an active pose bone whose widget name is a name
    the host stores as given (not empty, 63 bytes at most) and that no object
    and no data-block has yet, [obj_to_bone] moving the new object and doing
    nothing else to it: the operator returns FINISHED and has added one mesh
    and one object of the widget's name.  The mesh is what the host's
    [from_pydata] makes of the table of the chosen shape at the operator's
    size and position; the object uses that mesh, is linked to the scene and
    lies on the operator's layers; the active pose bone has the new object
    as its custom shape.  Nothing else changes. *)
Theorem create_custom_shape_builds_widget (host : Host)
    (self : ADH_CreateCustomShape.props) (w : World) (active : bone_ref) (b : Bone.t)
    (rig : nat) (p : vec3 * vec3 * vec3) :
  active_pose_bone w = Some active → lookup_bone w active = Some b →
  active_object w = Some rig →
  keeps_free_names host → valid_name (widget_name self b) →
  name_unused (widget_name self b) w →
  obj_to_bone host (with_new_widget (widget_name self b) w) (length (objects w)) rig
              (Bone.name b)
    = Some (with_placement p (linked_widget (widget_name self b)
                                            (length (datablocks w)))) →
  let r := ADH_CreateCustomShape.execute host self w in
  r = (Ok FINISHED, with_widget host self (widget_name self b) p active w)
  ∧ objects r.2 !! length (objects w)
    = Some (widget_object self (widget_name self b) (length (datablocks w)) p)
  ∧ datablocks r.2 = datablocks w ++ [widget_mesh host self (widget_name self b)]
  ∧ lookup_bone r.2 active
    = Some (Bone.set_custom_shape (Some (length (objects w))) b)
  ∧ length (objects r.2) = S (length (objects w))
  ∧ (∀ obj, obj < length (objects w) → obj ≠ active.1 →
            objects r.2 !! obj = objects w !! obj).
Proof.
  intros Hactive Hb Hrig Hlaw Hvalid Hfree Hhost. cbv zeta.
  rewrite (CreateShapeFacts.execute_fresh host self w active b rig p) by done.
  split; [done|]. cbn [snd]. split.
  { simpl. rewrite lookup_app_r by by rewrite length_alter.
    by rewrite length_alter, Nat.sub_diag. }
  split; [done|]. split; [by apply CreateShapeFacts.with_widget_lookup_bone|].
  split.
  { simpl. rewrite length_app, length_alter. simpl. lia. }
  intros obj Hlt Hne. simpl.
  rewrite lookup_app_l by by rewrite length_alter.
  by rewrite list_lookup_alter_ne.
Qed.

Lemma create_custom_shape_builds_widget_witness :
  let r := ADH_CreateCustomShape.execute example_host example_box_props example_world in
  name_unused "box-tail" example_world
  ∧ r.1 = Ok FINISHED
  ∧ length (objects r.2) = 6
  ∧ custom_shape_of r.2 (0, 2) = Some 5
  ∧ ObData.name <$> datablocks r.2 !! 5 = Some "box-tail"
  ∧ ObData.vertices <$> datablocks r.2 !! 5
    = Some [ (-1, 0, -1); (-1, 1, -1); (1, 1, -1); (1, 0, -1);
             (-1, 0, 1); (-1, 1, 1); (1, 1, 1); (1, 0, 1) ]%float.
Proof.
  cbv zeta.
  assert (name_unused "box-tail" example_world) as Hfree.
  { split; apply (bool_decide_unpack _); by vm_compute. }
  split; [exact Hfree|].
  destruct (create_custom_shape_builds_widget example_host example_box_props
              example_world (0, 2) (example_bone "tail" false 2 (Some 4)) 0
              ((2, 0, 0), (0, 0, 0), (1, 1, 1))%float)
    as (Hr & _ & Hdata & Hbone & Hlen & _);
    [ by vm_compute | by vm_compute | done | exact example_host_keeps_free_names
    | split; [done|simpl; lia] | exact Hfree | by vm_compute |].
  split; [by rewrite Hr|]. split; [exact Hlen|].
  split; [unfold custom_shape_of; by rewrite Hbone|].
  rewrite Hdata. split; by vm_compute.
Defined.

(** Run again with the same properties, the operator finds the widget of
    the first run under its name, makes nothing, and resets the custom shape
    of the active pose bone to [None]: after two runs in a row the widget is
    in the scene and the bone does not use it.  (The widget's name is one
    the host stores as given, so that the first run leaves it in the
    scene.) *)
Theorem create_custom_shape_twice_clears_the_shape (host : Host)
    (self : ADH_CreateCustomShape.props) (w : World) (active : bone_ref) (b : Bone.t)
    (rig : nat) (p : vec3 * vec3 * vec3) :
  active_pose_bone w = Some active → lookup_bone w active = Some b →
  active_object w = Some rig →
  keeps_free_names host → valid_name (widget_name self b) →
  name_unused (widget_name self b) w →
  obj_to_bone host (with_new_widget (widget_name self b) w) (length (objects w)) rig
              (Bone.name b)
    = Some (with_placement p (linked_widget (widget_name self b)
                                            (length (datablocks w)))) →
  let r1 := ADH_CreateCustomShape.execute host self w in
  let r2 := ADH_CreateCustomShape.execute host self r1.2 in
  custom_shape_of r1.2 active = Some (length (objects w))
  ∧ r2.1 = Ok FINISHED
  ∧ custom_shape_of r2.2 active = None
  ∧ objects r2.2 !! length (objects w)
    = Some (widget_object self (widget_name self b) (length (datablocks w)) p)
  ∧ length (objects r2.2) = S (length (objects w))
  ∧ datablocks r2.2 = datablocks r1.2.
Proof.
  intros Hactive Hb Hrig Hlaw Hvalid Hfree Hhost. cbv zeta.
  rewrite (CreateShapeFacts.execute_fresh host self w active b rig p) by done.
  cbn [snd].
  pose proof (CreateShapeFacts.with_widget_lookup_bone host self (widget_name self b) p
                active b w Hb) as Hb1.
  rewrite (CreateShapeFacts.execute_taken host self _ active
             (Bone.set_custom_shape (Some (length (objects w))) b));
    [| by apply CreateShapeFacts.with_widget_active_pose_bone
     | done
     | apply CreateShapeFacts.with_widget_name_taken ].
  cbn [fst snd].
  assert (active.1 < length (objects w)) as Hlt.
  { unfold lookup_bone in Hb. destruct (objects w !! active.1) eqn:Ho; [|done].
    by eapply lookup_lt_Some. }
  split; [unfold custom_shape_of; by rewrite Hb1|]. split; [done|]. split.
  { unfold custom_shape_of. rewrite lookup_bone_upd_bones, decide_True by done.
    unfold lookup_bone in Hb1.
    destruct (objects _ !! active.1) as [o|]; [|done]. simpl in *.
    destruct (pose_bones o) as [bs|]; [|done]. simpl in *.
    by rewrite list_lookup_alter, decide_True, Hb1. }
  split.
  { simpl. rewrite list_lookup_alter_ne by lia.
    rewrite lookup_app_r by by rewrite length_alter.
    by rewrite length_alter, Nat.sub_diag. }
  split; [|done].
  simpl. rewrite length_alter, length_app, length_alter. simpl. lia.
Qed.

Lemma create_custom_shape_twice_clears_the_shape_witness :
  let r1 := ADH_CreateCustomShape.execute example_host example_box_props example_world in
  let r2 := ADH_CreateCustomShape.execute example_host example_box_props r1.2 in
  name_unused "box-tail" example_world
  ∧ custom_shape_of r1.2 (0, 2) = Some 5
  ∧ r2.1 = Ok FINISHED
  ∧ custom_shape_of r2.2 (0, 2) = None
  ∧ Object.name <$> objects r2.2 !! 5 = Some "box-tail".
Proof.
  cbv zeta.
  assert (name_unused "box-tail" example_world) as Hfree.
  { split; apply (bool_decide_unpack _); by vm_compute. }
  split; [exact Hfree|].
  destruct (create_custom_shape_twice_clears_the_shape example_host example_box_props
              example_world (0, 2) (example_bone "tail" false 2 (Some 4)) 0
              ((2, 0, 0), (0, 0, 0), (1, 1, 1))%float)
    as (H1 & Hfin & H2 & Hobj & _);
    [ by vm_compute | by vm_compute | done | exact example_host_keeps_free_names
    | split; [done|simpl; lia] | exact Hfree | by vm_compute |].
  split; [exact H1|]. split; [exact Hfin|]. split; [exact H2|].
  change (length (objects example_world)) with 5 in Hobj. by rewrite Hobj.
Defined.

(** When [obj_to_bone] raises on the new object, the operator raises with
    it, and what it had made by then stays behind: the scene has one more
    mesh, empty, and one more object of the widget's name, linked to the
    scene, while the active pose bone keeps the custom shape it had.  The
    widget's name is in the scene from then on: the case in which a run
    makes nothing and clears the custom shape of the bone.  (The widget's
    name is one the host stores as given: not empty, 63 bytes at most, and
    the name of no object and of no data-block.) *)
Theorem create_custom_shape_leaves_empty_widget_when_placing_fails (host : Host)
    (self : ADH_CreateCustomShape.props) (w : World) (active : bone_ref) (b : Bone.t)
    (rig : nat) :
  active_pose_bone w = Some active → lookup_bone w active = Some b →
  active_object w = Some rig →
  keeps_free_names host → valid_name (widget_name self b) →
  name_unused (widget_name self b) w →
  obj_to_bone host (with_new_widget (widget_name self b) w) (length (objects w)) rig
              (Bone.name b) = None →
  let r := ADH_CreateCustomShape.execute host self w in
  (∃ e, r.1 = Raise e)
  ∧ r.2 = with_new_widget (widget_name self b) w
  ∧ objects r.2 = objects w ++ [linked_widget (widget_name self b) (length (datablocks w))]
  ∧ datablocks r.2 = datablocks w ++ [ObData.new (widget_name self b)]
  ∧ lookup_bone r.2 active = Some b
  ∧ widget_name self b ∈ scene_object_names r.2.
Proof.
  intros Hactive Hb Hrig Hlaw Hvalid Hfree Hhost. cbv zeta.
  assert (ADH_CreateCustomShape.execute host self w
          = (Raise RuntimeError, with_new_widget (widget_name self b) w)) as ->.
  { unfold ADH_CreateCustomShape.execute. unfold bind at 1, get.
    rewrite Hactive, Hrig. unfold bind at 1, of_option, ret at 1.
    unfold bind at 1, the_bone, bind at 1, get, of_option. rewrite Hb.
    unfold ret at 1. unfold bind at 1.
    destruct (ADH_CreateCustomShape.widget_shape self);
      unfold ADH_CreateCustomShape.create_sphere_widget,
        ADH_CreateCustomShape.create_ring_widget,
        ADH_CreateCustomShape.create_box_widget;
      unfold bind at 1;
      by rewrite (CreateShapeFacts.create_widget_unplaced host self rig (Bone.name b) w). }
  cbn [fst snd]. split; [by eexists|]. split; [done|]. split; [done|].
  split; [done|]. split.
  - unfold lookup_bone in *. simpl.
    destruct (objects w !! active.1) as [o|] eqn:Ho; [|done].
    rewrite lookup_app_l by by eapply lookup_lt_Some. by rewrite Ho.
  - unfold scene_object_names. simpl. rewrite filter_app, fmap_app.
    apply elem_of_app. right. rewrite filter_cons, decide_True by done. by left.
Qed.

Lemma create_custom_shape_leaves_empty_widget_when_placing_fails_witness :
  let r := ADH_CreateCustomShape.execute unplacing_host example_box_props
             example_world in
  name_unused "box-tail" example_world
  ∧ (∃ e, r.1 = Raise e)
  ∧ length (objects r.2) = 6
  ∧ custom_shape_of r.2 (0, 2) = Some 4
  ∧ "box-tail" ∈ scene_object_names r.2.
Proof.
  cbv zeta.
  assert (name_unused "box-tail" example_world) as Hfree.
  { split; apply (bool_decide_unpack _); by vm_compute. }
  split; [exact Hfree|].
  destruct (create_custom_shape_leaves_empty_widget_when_placing_fails unplacing_host
              example_box_props example_world (0, 2)
              (example_bone "tail" false 2 (Some 4)) 0)
    as (Hraise & _ & Hobjs & _ & Hbone & Hname);
    [ by vm_compute | by vm_compute | done
    | intros others n Hn Hnot; by apply example_host_keeps_free_names
    | split; [done|simpl; lia] | exact Hfree | done |].
  split; [exact Hraise|]. split; [by rewrite Hobjs|].
  split; [unfold custom_shape_of; by rewrite Hbone | exact Hname].
Defined.

(** ** When the operators cancel *)

(** A computation that does not return [CANCELLED]. *)
Lemma bind_not_cancelled {A} (m : M A) (k : A → M status) (w : World) :
  (∀ a w', (k a w').1 ≠ Ok CANCELLED) → (bind m k w).1 ≠ Ok CANCELLED.
Proof.
  intros Hk. unfold bind. destruct (m w) as [[a|e] w']; [apply Hk | done].
Qed.

(** Rename Regex past the choice of the items: it returns FINISHED or
    raises. *)
Lemma rename_regex_items_not_cancelled (host : Host) (re : regex host)
    (items : option (list ADH_RenameRegex.item)) (w : World) :
  ((let* item_list := iterable items in
    for_each item_list (λ item,
      let* w := get in
      let* old := of_option ReferenceError (ADH_RenameRegex.item_name w item) in
      let* new := of_option re_error
                    (re_sub host re (adh_regex_replacement_string w) old) in
      ADH_RenameRegex.set_item_name host item new) >>
    let* w := get in
    (if String.eqb (mode w) "POSE" then tag_redraw else ret tt) >>
    ret FINISHED) w).1 ≠ Ok CANCELLED.
Proof.
  apply bind_not_cancelled. intros item_list w1.
  apply bind_not_cancelled. intros _ w2.
  apply bind_not_cancelled. intros w3 w4.
  apply bind_not_cancelled. intros _ w5. done.
Qed.

(** Rename Regex returns CANCELLED exactly when the pattern compiles and the
    mode is none of OBJECT, POSE and EDIT_ARMATURE, and it has then changed
    nothing.  In those three modes it returns FINISHED or raises; a pattern
    that does not compile makes it raise in any mode. *)
Theorem rename_regex_cancels_in_other_modes_only (host : Host) (w : World) :
  let r := ADH_RenameRegex.execute host w in
  (r.1 = Ok CANCELLED
   ↔ is_Some (re_compile host (adh_regex_search_pattern w))
     ∧ mode w ≠ "OBJECT" ∧ mode w ≠ "POSE" ∧ mode w ≠ "EDIT_ARMATURE")
  ∧ (r.1 = Ok CANCELLED → r.2 = w).
Proof.
  cbv zeta. unfold ADH_RenameRegex.execute. rewrite bind_get.
  destruct (re_compile host (adh_regex_search_pattern w)) as [re|] eqn:Hre.
  2:{ unfold bind, of_option, raise. cbn [fst snd]. split; [|done].
      split; [done|]. intros [[re Hsome] _]. done. }
  rewrite (bind_of_option _ _ re) by done.
  unfold ADH_RenameRegex.item_list.
  destruct (String.eqb (mode w) "OBJECT") eqn:Hobject.
  { apply String.eqb_eq in Hobject.
    pose proof (rename_regex_items_not_cancelled host re
                  (Some (ADH_RenameRegex.object_item <$> selected_objects w)) w) as Hno.
    split; [|by intros Hc].
    split; [by intros Hc | by intros (_ & Hne & _)]. }
  destruct (String.eqb (mode w) "POSE") eqn:Hpose.
  { apply String.eqb_eq in Hpose.
    pose proof (rename_regex_items_not_cancelled host re
                  (fmap (M:=list) ADH_RenameRegex.bone_item <$> selected_pose_bones w)
                  w) as Hno.
    split; [|by intros Hc].
    split; [by intros Hc | by intros (_ & _ & Hne & _)]. }
  destruct (String.eqb (mode w) "EDIT_ARMATURE") eqn:Hedit.
  { apply String.eqb_eq in Hedit.
    pose proof (rename_regex_items_not_cancelled host re
                  (fmap (M:=list) ADH_RenameRegex.bone_item <$> selected_bones w)
                  w) as Hno.
    split; [|by intros Hc].
    split; [by intros Hc | by intros (_ & _ & _ & Hne)]. }
  apply String.eqb_neq in Hobject, Hpose, Hedit.
  unfold ret. cbn [fst snd]. split; [|done]. split; [|done]. intros _.
  split; [by exists re | done].
Qed.

(** Use Same Custom Shape without an active pose bone returns CANCELLED and
    changes nothing.  With one, it changes custom shapes of selected pose
    bones and nothing else: a pose bone that is not selected, every object
    other than the armature in pose mode, and all that is not an object
    are as before. *)
Theorem use_same_custom_shape_touches_selected_bones_only (w : World) :
  let r := ADH_UseSameCustomShape.execute w in
  (active_pose_bone w = None → r = (Ok CANCELLED, w))
  ∧ same_but_objects w r.2
  ∧ (∀ obj, pose_object w ≠ Some obj → objects r.2 !! obj = objects w !! obj)
  ∧ (∀ bone b, lookup_bone w bone = Some b → Bone.select b = false →
               lookup_bone r.2 bone = Some b).
Proof.
  cbv zeta. destruct (active_pose_bone w) as [active|] eqn:Hactive.
  - rewrite (use_same_shape_execute w active Hactive). cbn [snd].
    destruct (active_pose_bone_Some w active Hactive)
      as (o & b0 & Hpose & Ho & Hpb & _).
    split; [done|]. split; [by destruct w|]. split.
    + intros obj Hobj. simpl. rewrite list_lookup_alter_ne; [done|].
      intros <-. by rewrite Hpose in Hobj.
    + intros bone b Hb Hsel. rewrite lookup_bone_upd_bones.
      destruct (decide (bone.1 = active.1)) as [Heq|Hne]; [|done].
      unfold lookup_bone in Hb. rewrite Heq, Ho in Hb. simpl in Hb.
      rewrite Ho. simpl. destruct (pose_bones o) as [bs|]; simpl in *; [|done].
      rewrite list_lookup_fmap, Hb. simpl. by rewrite Hsel.
  - unfold ADH_UseSameCustomShape.execute. rewrite bind_get, Hactive.
    unfold ret. cbn [snd]. split; [done|]. split; [by destruct w|]. done.
Qed.

(** ** Remove Vertex Groups of Unselected Bones, twice *)

(** A second run removes nothing: the groups the first run left are those
    named after selected pose bones, and the bones are as they were. *)
Theorem remove_vertex_groups_idempotent (w : World) :
  ADH_RemoveVertexGroupsUnselectedBones.poll w = true →
  let r := ADH_RemoveVertexGroupsUnselectedBones.execute w in
  ADH_RemoveVertexGroupsUnselectedBones.execute r.2 = (Ok FINISHED, r.2).
Proof.
  intros Hpoll. cbv zeta.
  apply bool_decide_eq_true in Hpoll.
  destruct (selected_pose_bones w) as [bones|] eqn:Hsel; [|done].
  rewrite (remove_vertex_groups_execute w bones Hsel). cbn [snd].
  set (G := λ o, if is_selected_mesh o
                 then keep_vertex_groups (selected_pose_bone_names w) o else o).
  assert (∀ o, Object.type (G o) = Object.type o) as G_type
    by (intros o; unfold G; by destruct (is_selected_mesh o)).
  assert (∀ o, Object.bones (G o) = Object.bones o) as G_bones
    by (intros o; unfold G; by destruct (is_selected_mesh o)).
  rewrite (remove_vertex_groups_execute _ bones)
    by (by rewrite (selected_pose_bones_fmap G G_type G_bones)).
  rewrite (selected_pose_bone_names_fmap G G_type G_bones). fold G.
  f_equal. unfold upd_objects. simpl. f_equal.
  rewrite <- list_fmap_compose. apply list_fmap_ext. intros i o _.
  unfold compose.
  assert (is_selected_mesh (G o) = is_selected_mesh o) as Hsm
    by (unfold G; by destruct (is_selected_mesh o) eqn:E; [|rewrite ?E]).
  unfold G at 1. rewrite Hsm. unfold G.
  destruct (is_selected_mesh o); [|done].
  unfold keep_vertex_groups, Object.upd_vertex_groups. simpl. f_equal.
  apply list_filter_filter_l. done.
Qed.

Lemma remove_vertex_groups_idempotent_witness :
  let r := ADH_RemoveVertexGroupsUnselectedBones.execute example_world in
  ADH_RemoveVertexGroupsUnselectedBones.poll example_world = true
  ∧ objects r.2 ≠ objects example_world
  ∧ ADH_RemoveVertexGroupsUnselectedBones.execute r.2 = (Ok FINISHED, r.2).
Proof.
  cbv zeta. split; [by vm_compute|]. split; [by vm_compute|].
  apply (remove_vertex_groups_idempotent example_world). by vm_compute.
Defined.

(** The poll of the operator asks for a list of selected pose bones, not for
    a bone in it.  With the empty list the operator can run, and then it
    removes every vertex group of every selected mesh object. *)
Theorem remove_vertex_groups_removes_all_without_selected_bone (w : World) :
  selected_pose_bones w = Some [] →
  let r := ADH_RemoveVertexGroupsUnselectedBones.execute w in
  ADH_RemoveVertexGroupsUnselectedBones.poll w = true
  ∧ r.1 = Ok FINISHED
  ∧ ∀ obj o, obj ∈ selected_objects w → objects w !! obj = Some o →
             Object.type o = "MESH" →
             objects r.2 !! obj = Some (Object.upd_vertex_groups (λ _, []) o).
Proof.
  intros Hsel. cbv zeta.
  rewrite (remove_vertex_groups_execute w [] Hsel). cbn [fst snd].
  split; [unfold ADH_RemoveVertexGroupsUnselectedBones.poll; by rewrite Hsel|].
  split; [done|].
  intros obj o (o' & Ho' & Hs)%elem_of_indices_where Ho Hty.
  assert (o' = o) as -> by congruence.
  simpl. rewrite list_lookup_fmap, Ho. simpl. f_equal.
  unfold is_selected_mesh. rewrite Hs, Hty. simpl.
  unfold keep_vertex_groups, Object.upd_vertex_groups, selected_pose_bone_names.
  rewrite Hsel. simpl. f_equal.
  induction (Object.vertex_groups o) as [|vg vgs IH]; [done|].
  rewrite filter_cons, decide_False; [done|]. apply not_elem_of_nil.
Qed.

Lemma remove_vertex_groups_removes_all_without_selected_bone_witness :
  let r := ADH_RemoveVertexGroupsUnselectedBones.execute example_world_no_bone_selected in
  selected_pose_bones example_world_no_bone_selected = Some []
  ∧ Object.vertex_groups <$> objects example_world_no_bone_selected !! 1
    = Some [VertexGroup.mk "arm"; VertexGroup.mk "leg"]
  ∧ r.1 = Ok FINISHED
  ∧ Object.vertex_groups <$> objects r.2 !! 1 = Some [].
Proof.
  cbv zeta. split; [by vm_compute|]. split; [by vm_compute|].
  destruct (remove_vertex_groups_removes_all_without_selected_bone
              example_world_no_bone_selected) as (_ & Hfin & Hobj); [by vm_compute|].
  split; [exact Hfin|].
  rewrite (Hobj 1 (example_mesh "body" true 1 [] [ "arm"; "leg" ]));
    [done | | done | done].
  apply (bool_decide_unpack _). by vm_compute.
Defined.

(** ** Add Subdivision Surface Modifier, run after run *)

Module AddSubsurfFacts.

Lemma no_subsurf (ms : list Modifier.t) :
  indices_where is_subsurf ms = [] ↔ ∀ m, m ∈ ms → is_subsurf m = false.
Proof.
  split.
  - intros Hnil m Hm. destruct (is_subsurf m) eqn:Hsub; [|done].
    apply list_elem_of_lookup in Hm as [j Hj].
    assert (j ∈ indices_where is_subsurf ms) as Hin
      by (apply elem_of_indices_where; by exists m).
    rewrite Hnil in Hin. by apply elem_of_nil in Hin.
  - intros Hnone. by apply indices_from_none.
Qed.

Lemma with_subsurf_again (v1 v2 : bool) (o : Object.t) :
  with_subsurf v2 (with_subsurf v1 o) = with_subsurf v2 o.
Proof.
  unfold with_subsurf at 2 3.
  destruct (bool_decide (indices_where is_subsurf (Object.modifiers o) = [])) eqn:Hsml.
  - apply bool_decide_eq_true in Hsml. unfold with_subsurf.
    rewrite bool_decide_eq_false_2.
    + destruct o as [n ty s lk d ms vgs bs sw ls ak pl].
      unfold Object.upd_modifiers. simpl in *. f_equal.
      rewrite fmap_app. f_equal.
      rewrite <- (list_fmap_id ms) at 2. apply list_fmap_ext. intros j m Hm. simpl.
      rewrite (proj1 (no_subsurf ms) Hsml m); [done|].
      by eapply list_elem_of_lookup_2.
    + simpl. unfold indices_where in *. rewrite indices_from_app, Hsml. done.
  - apply bool_decide_eq_false in Hsml. unfold with_subsurf.
    assert (indices_where is_subsurf
              ((λ m, if is_subsurf m then subsurf_settings v1 m else m)
                 <$> Object.modifiers o)
            = indices_where is_subsurf (Object.modifiers o)) as Hsame.
    { unfold indices_where at 1. rewrite indices_from_fmap.
      apply indices_where_ext. intros m _. simpl. by destruct (is_subsurf m) eqn:E. }
    rewrite bool_decide_eq_false_2 by (simpl; by rewrite Hsame).
    destruct o as [n ty s lk d ms vgs bs sw ls ak pl].
    unfold Object.upd_modifiers. simpl in *. f_equal.
    rewrite <- list_fmap_compose. apply list_fmap_ext. intros j m _. simpl.
    destruct (is_subsurf m) eqn:E; [|by rewrite E].
    by rewrite subsurf_settings_is_subsurf, E.
Qed.

End AddSubsurfFacts.

(** Of two runs in a row the second decides, whatever the stacks were: the
    scene after a run with one value of Show in Viewport and then a run with
    another is the scene after a single run with the second value.  A mesh
    that had no SUBSURF modifier has one after the two runs, not two. *)
Theorem add_subsurf_last_run_decides (v1 v2 : bool) (w : World) :
  let r1 := ADH_AddSubdivisionSurfaceModifier.execute v1 w in
  ADH_AddSubdivisionSurfaceModifier.execute v2 r1.2
  = ADH_AddSubdivisionSurfaceModifier.execute v2 w.
Proof.
  cbv zeta. rewrite !add_subsurf_execute. cbn [snd]. f_equal.
  unfold upd_objects. simpl. f_equal.
  rewrite <- list_fmap_compose. apply list_fmap_ext. intros i o _. unfold compose.
  destruct (is_selected_mesh o) eqn:Hsel; [|by rewrite Hsel].
  assert (is_selected_mesh (with_subsurf v1 o) = true) as ->.
  { unfold is_selected_mesh in *. by rewrite with_subsurf_select, with_subsurf_type. }
  apply AddSubsurfFacts.with_subsurf_again.
Qed.

(** What the operator does to the stacks: an object that is not a selected
    mesh is left as it is; a selected mesh without SUBSURF modifier gets one
    modifier at the end of its stack, a SUBSURF modifier with the settings,
    named 'Subsurf' when no modifier of the stack has that name; on a
    selected mesh with SUBSURF modifiers the stack keeps its length and
    order, and a modifier of another type is left as it is. *)
Theorem add_subsurf_appends_one_modifier_at_most (show_viewport : bool) (w : World) :
  let r := ADH_AddSubdivisionSurfaceModifier.execute show_viewport w in
  length (objects r.2) = length (objects w)
  ∧ ∀ obj o, objects w !! obj = Some o →
      ∃ o', objects r.2 !! obj = Some o'
        ∧ (obj ∉ selected_objects w ∨ Object.type o ≠ "MESH" → o' = o)
        ∧ (obj ∈ selected_objects w → Object.type o = "MESH" →
           (∀ m, m ∈ Object.modifiers o → Modifier.type m ≠ "SUBSURF") →
           ∃ sm, o' = Object.upd_modifiers (λ ms, ms ++ [sm]) o
                 ∧ Modifier.type sm = "SUBSURF"
                 ∧ Modifier.show_viewport sm = show_viewport
                 ∧ Modifier.show_expanded sm = false
                 ∧ ((∀ m, m ∈ Object.modifiers o → Modifier.name m ≠ "Subsurf") →
                    Modifier.name sm = "Subsurf"))
        ∧ (obj ∈ selected_objects w → Object.type o = "MESH" →
           (∃ m, m ∈ Object.modifiers o ∧ Modifier.type m = "SUBSURF") →
           length (Object.modifiers o') = length (Object.modifiers o)
           ∧ ∀ j m, Object.modifiers o !! j = Some m →
               Modifier.type m ≠ "SUBSURF" → Object.modifiers o' !! j = Some m).
Proof.
  cbv zeta. rewrite add_subsurf_execute. cbn [snd]. simpl.
  split; [by rewrite length_fmap|].
  intros obj o Ho. rewrite list_lookup_fmap, Ho. simpl. eexists. split; [done|].
  assert (obj ∈ selected_objects w ↔ Object.select o = true) as Hsel.
  { unfold selected_objects. rewrite elem_of_indices_where. split.
    - intros (o' & Ho' & Hs). congruence.
    - intros Hs. by exists o. }
  assert (∀ m, is_subsurf m = false ↔ Modifier.type m ≠ "SUBSURF") as Hsub
    by (intros m; apply String.eqb_neq).
  split; [|split].
  - intros Hnot. unfold is_selected_mesh.
    destruct (Object.select o) eqn:Hs; simpl; [|done].
    destruct (String.eqb (Object.type o) "MESH") eqn:Hty; [|done].
    apply String.eqb_eq in Hty. destruct Hnot as [Hnot|Hnot]; [|done].
    destruct Hnot. by apply Hsel.
  - intros Hin Hty Hnone. unfold is_selected_mesh.
    rewrite (proj1 Hsel Hin), Hty. simpl. unfold with_subsurf.
    rewrite bool_decide_eq_true_2.
    + by eexists.
    + apply AddSubsurfFacts.no_subsurf. intros m Hm. by apply Hsub, Hnone.
  - intros Hin Hty (m0 & Hm0 & Hty0). unfold is_selected_mesh.
    rewrite (proj1 Hsel Hin), Hty. simpl. unfold with_subsurf.
    rewrite bool_decide_eq_false_2.
    + simpl. split; [by rewrite length_fmap|].
      intros j m Hm Hne. rewrite list_lookup_fmap, Hm. simpl.
      by rewrite (proj2 (Hsub m) Hne).
    + intros Hnil. pose proof (proj1 (AddSubsurfFacts.no_subsurf _) Hnil m0 Hm0) as E.
      apply Hsub in E. done.
Qed.

(** ** Create Hook Bones and the bones that were there *)

(** With the hook names free and names the host stores as given, Create Hook
    Bones adds one bone per selected bone at the end of the armature: the
    bones that were there keep their attributes, their constraints and their
    place in the armature, and no other object is touched. *)
Theorem create_hook_bones_adds_bones_only (host : Host) (hook_layers : list bool)
    (w : World) (a : nat) (o : Object.t) :
  keeps_free_names host →
  active_object w = Some a →
  objects w !! a = Some o →
  Object.type o = "ARMATURE" →
  mode w = "OBJECT" ∨ mode w = "EDIT_ARMATURE" ∨ mode w = "POSE" →
  NoDup (Bone.name <$> Object.bones o) →
  hook_names_free (Object.bones o) →
  (∀ b, b ∈ Object.bones o → Bone.select b = true →
        valid_name ("hook-" +:+ Bone.name b)) →
  let r := ADH_CreateHookBones.execute host hook_layers w in
  (∀ j b, Object.bones o !! j = Some b → lookup_bone r.2 (a, j) = Some b)
  ∧ (∃ o', objects r.2 !! a = Some o'
           ∧ length (Object.bones o')
             = length (Object.bones o)
               + length (filter (λ b, Bone.select b = true) (Object.bones o)))
  ∧ (∀ obj, obj ≠ a → objects r.2 !! obj = objects w !! obj).
Proof.
  intros Hhost Ha Ho Hty Hmode Hnd Hfree Hvalid. cbv zeta.
  rewrite (HookBonesFacts.execute_hooks host hook_layers w a o) by done. cbn [snd].
  split; [|split].
  - intros j b Hb. unfold lookup_bone. simpl.
    rewrite list_lookup_alter, decide_True, Ho by done. simpl.
    unfold pose_bones. simpl. rewrite Hty. simpl.
    rewrite lookup_app_l by by eapply lookup_lt_Some. done.
  - eexists. simpl. rewrite list_lookup_alter, decide_True, Ho by done.
    split; [done|]. simpl. by rewrite length_app, length_fmap.
  - intros obj Hne. simpl. by rewrite list_lookup_alter_ne.
Qed.

Lemma create_hook_bones_adds_bones_only_witness :
  let r := ADH_CreateHookBones.execute example_host
             ADH_CreateHookBones.default_hook_layers example_world in
  lookup_bone r.2 (0, 2) = Some (example_bone "tail" false 2 (Some 4))
  ∧ (∃ o', objects r.2 !! 0 = Some o' ∧ length (Object.bones o') = 5)
  ∧ objects r.2 !! 1 = objects example_world !! 1.
Proof.
  cbv zeta.
  destruct (create_hook_bones_adds_bones_only example_host
              ADH_CreateHookBones.default_hook_layers example_world 0
              (example_armature "rig" true 0
                 [ example_bone "arm" true 0 None;
                   example_bone "leg" true 1 None;
                   example_bone "tail" false 2 (Some 4) ]))
    as (Hold & Hnew & Hrest).
  - exact example_host_keeps_free_names.
  - done.
  - done.
  - done.
  - by right; right.
  - apply (bool_decide_unpack _). by vm_compute.
  - intros b b' Hb Hsel Hb'. simpl in Hb, Hb'.
    repeat (apply elem_of_cons in Hb as [->|Hb]); [| |done|by apply elem_of_nil in Hb];
    repeat (apply elem_of_cons in Hb' as [->|Hb']);
      try (by apply elem_of_nil in Hb'); done.
  - intros b Hb Hsel. simpl in Hb.
    repeat (apply elem_of_cons in Hb as [->|Hb]); [| |done|by apply elem_of_nil in Hb];
      (split; [done|simpl; lia]).
  - split; [by apply (Hold 2)|]. split; [exact Hnew | by apply Hrest].
Defined.

(** ** The widget meshes *)

(** The tables of each widget fit together as a mesh, at any size and
    position: edges and faces refer to vertices of the table only, no edge is
    listed twice or joins a vertex to itself, and every side of every face
    is a listed edge.  The sphere and the box are surfaces without border:
    every edge is shared by exactly two faces.  The ring has edges only. *)
Theorem widget_meshes_fit_together (size pos : float) :
  well_formed_mesh (length (ADH_CreateCustomShape.sphere_verts size pos))
    ADH_CreateCustomShape.sphere_edges ADH_CreateCustomShape.sphere_faces
  ∧ closed_surface ADH_CreateCustomShape.sphere_edges ADH_CreateCustomShape.sphere_faces
  ∧ well_formed_mesh (length (ADH_CreateCustomShape.box_verts size pos))
      ADH_CreateCustomShape.box_edges ADH_CreateCustomShape.box_faces
  ∧ closed_surface ADH_CreateCustomShape.box_edges ADH_CreateCustomShape.box_faces
  ∧ well_formed_mesh (length (ADH_CreateCustomShape.ring_verts size pos))
      ADH_CreateCustomShape.ring_edges ADH_CreateCustomShape.ring_faces.
Proof.
  cbn [length ADH_CreateCustomShape.sphere_verts ADH_CreateCustomShape.box_verts
       ADH_CreateCustomShape.ring_verts].
  unfold well_formed_mesh, closed_surface.
  repeat split; apply (bool_decide_unpack _); by vm_compute.
Qed.
